(** * Audio-to-verdict pipeline of the Slack QA bot: a shallow embedding

    The development follows the three Python scripts of the repository:
    - [qa_bot.py]  (module [QaBot]): URL-based bot, Whisper transcription;
    - [extra.py]   (module [Extra]): file-upload bot, silence-chunked
      transcription;
    - [main.py]    (module [Main]): stand-alone chunked analysis script.

    Python [str] values are sequences of Unicode code points, modelled as
    [list N].  External collaborators (Slack, HTTP, speech recognition, the
    text-generation service, the file system) are oracles; every call to one
    of them is recorded, with its answer, in a trace. *)

From Stdlib Require Import List NArith Bool Ascii String Arith Lia DecimalString.
From Stdlib Require Import PrimFloat.
Import ListNotations.

Set Implicit Arguments.
Local Open Scope N_scope.

(** ** Python strings *)

Module PyStr.

Definition pystr := list N.

(** An ASCII literal of the source, as a sequence of code points. *)
Definition lit (s : string) : pystr :=
  map N_of_ascii (list_ascii_of_string s).

Definition eqb (a b : pystr) : bool :=
  if list_eq_dec N.eq_dec a b then true else false.

(** [s.startswith(p)] *)
Fixpoint startswith (p s : pystr) : bool :=
  match p, s with
  | [], _ => true
  | _ :: _, [] => false
  | a :: p', b :: s' => N.eqb a b && startswith p' s'
  end.

(** [needle in hay] *)
Fixpoint contains (needle hay : pystr) : bool :=
  startswith needle hay ||
  match hay with
  | [] => false
  | _ :: hay' => contains needle hay'
  end.

(** [str.isspace] on one code point (CPython's [Py_UNICODE_ISSPACE]);
    the regular-expression class [\s] of a [str] pattern is the same set. *)
Definition isspace (c : N) : bool :=
  ((0x09 <=? c) && (c <=? 0x0D)) || ((0x1C <=? c) && (c <=? 0x20))
  || (c =? 0x85) || (c =? 0xA0) || (c =? 0x1680)
  || ((0x2000 <=? c) && (c <=? 0x200A))
  || (c =? 0x2028) || (c =? 0x2029) || (c =? 0x202F) || (c =? 0x205F)
  || (c =? 0x3000).

Fixpoint lstrip (s : pystr) : pystr :=
  match s with
  | c :: s' => if isspace c then lstrip s' else s
  | [] => []
  end.

Definition rstrip (s : pystr) : pystr := rev (lstrip (rev s)).

(** [s.strip()] *)
Definition strip (s : pystr) : pystr := rstrip (lstrip s).

(** [sep.join(parts)] *)
Fixpoint join (sep : pystr) (parts : list pystr) : pystr :=
  match parts with
  | [] => []
  | [p] => p
  | p :: rest => p ++ sep ++ join sep rest
  end.

(** [len(s)] *)
Definition len (s : pystr) : N := N.of_nat (List.length s).

(** [s[:n]] *)
Definition upto (n : N) (s : pystr) : pystr := firstn (N.to_nat n) s.

Fixpoint take_while (p : N -> bool) (s : pystr) : pystr :=
  match s with
  | c :: s' => if p c then c :: take_while p s' else []
  | [] => []
  end.

(** [s.split(sep)[-1]] for a one-character separator: the text after the
    last occurrence of [sep] (all of [s] when there is none). *)
Definition split_last (sep : N) (s : pystr) : pystr :=
  rev (take_while (fun c => negb (c =? sep)) (rev s)).

(** [s.lower().endswith(suffix)] for an ASCII lower-case [suffix] made of
    the characters [.], [w], [a], [v]: the only code points whose
    lower-casing ends in one of these letters are the letter and its ASCII
    capital. *)
Definition lower_ascii (c : N) : N :=
  if (0x41 <=? c) && (c <=? 0x5A) then c + 32 else c.

Definition lower_endswith (suffix s : pystr) : bool :=
  startswith (rev suffix) (map lower_ascii (rev s)).

(** [str(n)] for a non-negative integer. *)
Definition of_N (n : N) : pystr :=
  lit (DecimalString.NilZero.string_of_uint (N.to_uint n)).

(** [c * n] for a one-character string [c]. *)
Definition times (c : N) (n : nat) : pystr := repeat c n.

End PyStr.
Import PyStr.

Declare Scope py_scope.
Delimit Scope py_scope with py.
Notation "a +++ b" := (@app N a b) (at level 60, right associativity) : py_scope.
Local Open Scope py_scope.

(** ** The grade extractor *)

(** The glyphs of the two tables, by code point. *)
Module Glyph.
Definition arrow_upper_right : pystr := [0x2197; 0xFE0F].
Definition green_heart       : pystr := [0x1F49A].
Definition fire              : pystr := [0x1F525].
Definition yellow_heart      : pystr := [0x1F49B].
Definition orange_heart      : pystr := [0x1F9E1].
Definition heart             : pystr := [0x2764; 0xFE0F].
Definition rage              : pystr := [0x1F621].
Definition ear               : pystr := [0x1F442].
Definition cross             : pystr := [0x274C].
End Glyph.

(** A [dict] literal iterated with [.items()]: keys in insertion order. *)
Definition items := list (pystr * pystr).

(** The loop shared, word for word, by [qa_bot.py] and [extra.py]:
    <<
      found = []
      for icon, emoji_name in GRADE_EMOJI_MAP.items():
          if icon in analysis:
              found.append(emoji_name)
      return found
    >> *)
Definition grade_loop (table : items) (analysis : pystr) : list pystr :=
  fold_left
    (fun found kv => if contains (fst kv) analysis then found ++ [snd kv] else found)
    table [].

(** ** Exceptions, external calls and the trace *)

(** An instance of a subclass of [Exception]: its class name and [str(e)]. *)
Record exn := Exn { exn_class : string; exn_str : pystr }.

Inductive result (A : Type) : Type :=
| Ok (a : A)
| Err (e : exn).
Arguments Ok {A} a.
Arguments Err {A} e.

Definition path := pystr.

(** What [requests.get] hands back. *)
Record response := Response {
  status_code : N;
  reason : pystr;
  content : list N
}.

(** A [pydub.AudioSegment]: an opaque clip and its average loudness. *)
Record audio := Audio { clip : N; dBFS : PrimFloat.float }.

(** One inbound Slack message (the [event] dict of the listener, or one entry
    of [conversations_history]); [None] is an absent key. *)
Record file_info := FileInfo {
  f_name : option pystr;
  f_mimetype : option pystr;
  f_url_private_download : option pystr;
  f_url_private : option pystr
}.

Record message := Message {
  m_channel : option pystr;
  m_user : option pystr;
  m_text : option pystr;
  m_ts : option pystr;
  m_files : option (list file_info)
}.

Inductive level := DEBUG | INFO | WARNING | ERROR.

(** Every interaction with the outside, with the answer it got. *)
Inductive event :=
| Log (lvl : level) (msg : pystr)
| Stdout (msg : pystr)
| MkTemp (suffix : pystr) (r : result path)
| HttpGet (url : pystr) (bearer : option pystr) (timeout : N) (r : result response)
| WriteFile (p : path) (data : list N) (r : result unit)
| Unlink (p : path) (r : result unit)
| WhisperTranscribe (p : path) (language : pystr) (fp16 : bool) (r : result (option pystr))
| FromWav (p : path) (r : result audio)
| SplitOnSilence (a : audio) (min_silence_len : N)
    (silence_thresh : PrimFloat.float) (keep_silence : N) (chunks : list audio)
| RecognizeGoogle (chunk : audio) (r : result pystr)
| OllamaGenerate (model prompt : pystr) (r : result pystr)
| ReactionsAdd (channel name timestamp : pystr) (r : result unit)
| ReactionsRemove (channel name timestamp : pystr) (r : result unit)
| Say (text thread_ts : pystr) (r : result unit)
| ConversationsHistory (channel : pystr) (limit : N) (r : result (list message)).

(** The outside world: each oracle sees the history of the process so far. *)
Record env := Env {
  o_mktemp : list event -> result pystr;
  o_http_get : list event -> pystr -> option pystr -> result response;
  o_write : list event -> path -> list N -> result unit;
  o_unlink : list event -> path -> result unit;
  o_whisper : list event -> path -> result (option pystr);
  o_from_wav : list event -> path -> result audio;
  o_split_on_silence : audio -> N -> PrimFloat.float -> N -> list audio;
  o_recognize_google : list event -> audio -> result pystr;
  o_generate : list event -> pystr -> pystr -> result pystr;
  o_reactions_add : list event -> pystr -> pystr -> pystr -> result unit;
  o_reactions_remove : list event -> pystr -> pystr -> pystr -> result unit;
  o_say : list event -> pystr -> pystr -> result unit;
  o_history : list event -> pystr -> N -> result (list message)
}.

(** The mutable state of a handler: the set of files that exist and the
    handler's local variable [tmp_path] ([None] while it is [None] or not
    yet bound). *)
Record state := State {
  files : list path;
  tmp_path : option path
}.

(** ** A monad for effects and exceptions

    A computation reads the history of the process and the state; it yields
    a value or a raised exception, the events it added, and the new state.
    A raised exception keeps the effects performed before it. *)

Record out (A : Type) : Type := Out {
  res : result A;
  evs : list event;
  st : state
}.
Arguments Out {A} res evs st.
Arguments res {A} o.
Arguments evs {A} o.
Arguments st {A} o.

Definition M (A : Type) : Type := list event -> state -> out A.

Definition ret {A} (a : A) : M A := fun _ s => Out (Ok a) [] s.

Definition raise {A} (e : exn) : M A := fun _ s => Out (Err e) [] s.

(** Run [k] after [o1], in the history and state [o1] left. *)
Definition andthen {A B} (h : list event) (o1 : out A) (k : M B) : out B :=
  let o2 := k (h ++ evs o1) (st o1) in
  Out (res o2) (evs o1 ++ evs o2) (st o2).

Definition bind {A B} (m : M A) (k : A -> M B) : M B :=
  fun h s =>
    let o1 := m h s in
    match res o1 with
    | Ok a => andthen h o1 (k a)
    | Err e => Out (Err e) (evs o1) (st o1)
    end.

Notation "x <- m ;; k" := (bind m (fun x => k))
  (at level 61, m at next level, right associativity) : py_scope.
Notation "m ;; k" := (bind m (fun _ => k))
  (at level 61, right associativity) : py_scope.

(** [try: body / except Exception as e: handler e] *)
Definition try_except {A} (body : M A) (handler : exn -> M A) : M A :=
  fun h s =>
    let o1 := body h s in
    match res o1 with
    | Ok a => o1
    | Err e => andthen h o1 (handler e)
    end.

(** [try: body / finally: cleanup]; also taken on [return] and [continue].
    An exception of the cleanup replaces the outcome of the body. *)
Definition try_finally {A} (body : M A) (cleanup : M unit) : M A :=
  fun h s =>
    let o1 := body h s in
    let o2 := cleanup (h ++ evs o1) (st o1) in
    Out (match res o2 with Ok _ => res o1 | Err e => Err e end)
        (evs o1 ++ evs o2) (st o2).

(** [try: body / except Exception: pass] *)
Definition swallow (body : M unit) : M unit :=
  try_except body (fun _ => ret tt).

(** [for x in xs: body x] *)
Fixpoint for_each {A} (xs : list A) (body : A -> M unit) : M unit :=
  match xs with
  | [] => ret tt
  | x :: xs' => body x ;; for_each xs' body
  end.

Definition emit (ev : event) : M unit := fun _ s => Out (Ok tt) [ev] s.

(** Ask an oracle, record the call and its answer, raise on [Err]. *)
Definition call {A} (oracle : list event -> result A) (mk : result A -> event) : M A :=
  fun h s => let r := oracle h in Out r [mk r] s.

Definition set_tmp_path (p : option path) : M unit :=
  fun _ s => Out (Ok tt) [] (State (files s) p).

Definition get_tmp_path : M (option path) :=
  fun _ s => Out (Ok (tmp_path s)) [] s.

Definition create_file (p : path) : M unit :=
  fun _ s => Out (Ok tt) [] (State (p :: files s) (tmp_path s)).

Definition remove_file (p : path) : M unit :=
  fun _ s => Out (Ok tt) [] (State (remove (list_eq_dec N.eq_dec) p (files s)) (tmp_path s)).

Definition file_exists (p : path) : M bool :=
  fun _ s => Out (Ok (if in_dec (list_eq_dec N.eq_dec) p (files s) then true else false)) [] s.

(** Truthiness of a [str]. *)
Definition truthy (s : pystr) : bool :=
  match s with [] => false | _ => true end.

(** [d.get(key, default)] on an optional field. *)
Definition get {A} (field : option A) (default : A) : A :=
  match field with Some v => v | None => default end.

(** ** Shared library calls *)

Definition map_result {A B} (f : A -> B) (r : result A) : result B :=
  match r with Ok a => Ok (f a) | Err e => Err e end.

Definition FileNotFoundError (p : path) : exn :=
  Exn "FileNotFoundError" (lit "[Errno 2] No such file or directory: '" +++ p +++ lit "'").

Section Library.
Variable en : env.

Definition logger (lvl : level) (msg : pystr) : M unit := emit (Log lvl msg).

(** [logger.exception] logs at level ERROR (the traceback is not modelled). *)
Definition logger_exception (msg : pystr) : M unit := emit (Log ERROR msg).

Definition print (msg : pystr) : M unit := emit (Stdout msg).

(** [with tempfile.NamedTemporaryFile(suffix=..., delete=False) as tmp: tmp.name]:
    the file is created; its name ends with the suffix. *)
Definition NamedTemporaryFile (suffix : pystr) : M path :=
  stem <- call (o_mktemp en)
            (fun r => MkTemp suffix (map_result (fun st => st +++ suffix) r)) ;;
  create_file (stem +++ suffix) ;;
  ret (stem +++ suffix).

(** [os.unlink(p)] *)
Definition os_unlink (p : path) : M unit :=
  present <- file_exists p ;;
  if (present : bool) then
    call (fun h => o_unlink en h p) (Unlink p) ;;
    remove_file p
  else
    emit (Unlink p (Err (FileNotFoundError p))) ;;
    raise (FileNotFoundError p).

(** [with open(p, "wb") as f: f.write(data)] *)
Definition write_file (p : path) (data : list N) : M unit :=
  call (fun h => o_write en h p data) (WriteFile p data) ;;
  create_file p.

(** [requests.get(url, headers=..., timeout=...)] *)
Definition requests_get (url : pystr) (bearer : option pystr) (timeout : N) : M response :=
  call (fun h => o_http_get en h url bearer) (HttpGet url bearer timeout).

(** [resp.raise_for_status()] *)
Definition raise_for_status (url : pystr) (resp : response) : M unit :=
  let code := status_code resp in
  if (400 <=? code) && (code <? 500) then
    raise (Exn "HTTPError"
             (of_N code +++ lit " Client Error: " +++ reason resp +++ lit " for url: " +++ url))
  else if (500 <=? code) && (code <? 600) then
    raise (Exn "HTTPError"
             (of_N code +++ lit " Server Error: " +++ reason resp +++ lit " for url: " +++ url))
  else ret tt.

(** [ollama.generate(model=..., prompt=...)["response"]] *)
Definition ollama_generate (model prompt : pystr) : M pystr :=
  call (fun h => o_generate en h model prompt) (OllamaGenerate model prompt).

Definition reactions_add (channel name timestamp : pystr) : M unit :=
  call (fun h => o_reactions_add en h channel name timestamp)
       (ReactionsAdd channel name timestamp).

Definition reactions_remove (channel name timestamp : pystr) : M unit :=
  call (fun h => o_reactions_remove en h channel name timestamp)
       (ReactionsRemove channel name timestamp).

Definition slack_say (text thread_ts : pystr) : M unit :=
  call (fun h => o_say en h text thread_ts) (Say text thread_ts).

Definition AudioSegment_from_wav (p : path) : M audio :=
  call (fun h => o_from_wav en h p) (FromWav p).

(** [pydub.silence.split_on_silence]: a pure function of its arguments. *)
Definition split_on_silence (a : audio) (min_silence_len : N)
    (silence_thresh : float) (keep_silence : N) : M (list audio) :=
  let chunks := o_split_on_silence en a min_silence_len silence_thresh keep_silence in
  emit (SplitOnSilence a min_silence_len silence_thresh keep_silence chunks) ;;
  ret chunks.

(** [chunk.export(buf, format="wav")], [sr.AudioFile(buf)], [recognizer.record]
    and [recognizer.recognize_google] on one chunk. *)
Definition recognize_google (chunk : audio) : M pystr :=
  call (fun h => o_recognize_google en h chunk) (RecognizeGoogle chunk).

(** [try: body / except sr.UnknownValueError: handler]; any other exception
    passes through. *)
Definition except_UnknownValueError {A} (body : M A) (handler : M A) : M A :=
  fun h s =>
    let o1 := body h s in
    match res o1 with
    | Ok a => o1
    | Err e =>
        if String.eqb (exn_class e) "UnknownValueError" then andthen h o1 handler
        else o1
    end.

End Library.

Definition nl : pystr := [10].

(** [f"{n:,}"] *)
Fixpoint group3 (digits_rev : pystr) (k : nat) : pystr :=
  match digits_rev with
  | [] => []
  | d :: rest =>
      match k, rest with
      | S (S O), _ :: _ => d :: 44 :: group3 rest 0
      | _, _ => d :: group3 rest (S k)
      end
  end.

Definition of_N_commas (n : N) : pystr := rev (group3 (rev (of_N n)) 0).

(** ** Python's [re] on the two patterns of [qa_bot.py] *)

Module Re.

(** A member of a bracketed set. *)
Inductive item :=
| IChr (c : N)
| ISpace.                       (* \s *)

Inductive atom :=
| Lit (c : N)                   (* one literal character *)
| AnyOf (items : list item)     (* [...]  *)
| NotIn (items : list item).    (* [^...] *)

Inductive regex :=
| Atom (a : atom)
| Cat (r1 r2 : regex)
| Opt (r : regex)               (* r?  greedy *)
| Plus (a : atom)               (* a+  greedy *)
| Group (r : regex).            (* ( r )  capturing group 1 *)

(** A literal under [re.IGNORECASE] (pattern characters are ASCII): the
    text character matches when it lower-cases to the pattern character;
    the [sre] engine adds three non-ASCII equivalents. *)
Definition lit_match (c x : N) : bool :=
  let lc := lower_ascii c in
  (lower_ascii x =? lc)
  || ((lc =? 0x73) && (x =? 0x17F))
  || ((lc =? 0x6B) && (x =? 0x212A))
  || ((lc =? 0x69) && ((x =? 0x130) || (x =? 0x131))).

Definition item_match (i : item) (x : N) : bool :=
  match i with
  | IChr c => x =? c
  | ISpace => isspace x
  end.

(** The sets of the two patterns hold no cased character, so
    [re.IGNORECASE] leaves them as they are. *)
Definition atom_match (a : atom) (x : N) : bool :=
  match a with
  | Lit c => lit_match c x
  | AnyOf items => existsb (fun i => item_match i x) items
  | NotIn items => negb (existsb (fun i => item_match i x) items)
  end.

Section Matcher.
Variable R : Type.

(** [a+]: take as many characters as possible, give back one at a time. *)
Fixpoint plus_loop (a : atom) (s : pystr) (k : pystr -> option R) : option R :=
  match s with
  | x :: s' =>
      if atom_match a x then
        match plus_loop a s' k with
        | Some r => Some r
        | None => k s'
        end
      else None
  | [] => None
  end.

(** Backtracking match of [r] at the start of [s]; [g] is what group 1
    holds so far; [k] continues with the rest of the text. *)
Fixpoint rmatch (r : regex) (s : pystr) (g : option pystr)
    (k : pystr -> option pystr -> option R) : option R :=
  match r with
  | Atom a =>
      match s with
      | x :: s' => if atom_match a x then k s' g else None
      | [] => None
      end
  | Cat r1 r2 => rmatch r1 s g (fun s1 g1 => rmatch r2 s1 g1 k)
  | Opt r1 =>
      match rmatch r1 s g k with
      | Some x => Some x
      | None => k s g
      end
  | Plus a => plus_loop a s (fun s' => k s' g)
  | Group r1 =>
      rmatch r1 s g
        (fun s' _ => k s' (Some (firstn (List.length s - List.length s') s)))
  end.
End Matcher.

Fixpoint has_group (r : regex) : bool :=
  match r with
  | Atom _ | Plus _ => false
  | Cat r1 r2 => has_group r1 || has_group r2
  | Opt r1 => has_group r1
  | Group _ => true
  end.

(** The first way the pattern matches at the start of [s]: the text that is
    left and group 1. *)
Definition match_at (r : regex) (s : pystr) : option (pystr * option pystr) :=
  rmatch r s None (fun rest g => Some (rest, g)).

(** What [findall] reports for a match: group 1 when the pattern has a
    group, the whole match otherwise. *)
Definition reported (r : regex) (s rest : pystr) (g : option pystr) : pystr :=
  if has_group r then get g []
  else firstn (List.length s - List.length rest) s.

(** [re.findall]: scan left to right; after a match go on where it ended
    ([skip] counts the characters of the last match still to pass), after
    a failure one character further. *)
Fixpoint findall_from (r : regex) (s : pystr) (skip : nat) : list pystr :=
  match s with
  | [] =>
      match skip, match_at r [] with
      | O, Some (rest, g) => [reported r [] rest g]
      | _, _ => []
      end
  | _ :: s' =>
      match skip with
      | S n => findall_from r s' n
      | O =>
          match match_at r s with
          | Some (rest, g) =>
              reported r s rest g
                :: findall_from r s' (List.length s - List.length rest - 1)
          | None => findall_from r s' 0
          end
      end
  end.

Definition findall (r : regex) (s : pystr) : list pystr := findall_from r s 0.

(** The pattern of a literal ASCII string. *)
Fixpoint word (w : pystr) : regex :=
  match w with
  | [] => Opt (Atom (AnyOf []))          (* matches the empty string *)
  | [c] => Atom (Lit c)
  | c :: w' => Cat (Atom (Lit c)) (word w')
  end.

End Re.

(** ** [qa_bot.py]: the URL-based bot *)

Module QaBot.

(** The module-level configuration.  [PROMPT_HEAD] and [PROMPT_TAIL] are
    the text of [QA_PROMPT_TEMPLATE] before and after [{transcript}]. *)
Record config := Config {
  SLACK_BOT_TOKEN : pystr;
  SLACK_APP_TOKEN : pystr;
  OLLAMA_MODEL : pystr;
  QA_CHANNEL_ID : pystr;
  WHISPER_MODEL_SIZE : pystr;
  ANALYZE_ONLY : bool;
  PROMPT_HEAD : pystr;
  PROMPT_TAIL : pystr
}.

(** [_raw_channel if _raw_channel.startswith("C") and len(_raw_channel) > 5 else ""] *)
Definition sanitize_channel (_raw_channel : pystr) : pystr :=
  if startswith (lit "C") _raw_channel && (5 <? len _raw_channel)
  then _raw_channel else [].

Definition KeyError (key : string) : exn :=
  Exn "KeyError" (lit "'" +++ lit key +++ lit "'").

(** The configuration block run at import; [environ] is [os.environ]. *)
Definition load_config (environ : string -> option pystr)
    (prompt_head prompt_tail : pystr) : result config :=
  match environ "SLACK_BOT_TOKEN"%string with
  | None => Err (KeyError "SLACK_BOT_TOKEN")
  | Some bot =>
      match environ "SLACK_APP_TOKEN"%string with
      | None => Err (KeyError "SLACK_APP_TOKEN")
      | Some app_token =>
          let _raw_channel := get (environ "QA_CHANNEL_ID"%string) [] in
          Ok (Config bot app_token
                (get (environ "OLLAMA_MODEL"%string)
                     (lit "hf.co/bartowski/Llama-3.2-1B-Instruct-GGUF:Q8_0"))
                (sanitize_channel _raw_channel)
                (get (environ "WHISPER_MODEL"%string) (lit "base"))
                true
                prompt_head prompt_tail)
      end
  end.

Definition GRADE_EMOJI_MAP : items :=
  [ (Glyph.arrow_upper_right, lit "arrow_upper_right");
    (Glyph.green_heart, lit "green_heart");
    (Glyph.fire, lit "fire");
    (Glyph.yellow_heart, lit "yellow_heart");
    (Glyph.orange_heart, lit "orange_heart");
    (Glyph.heart, lit "heart");
    (Glyph.rage, lit "rage");
    (Glyph.ear, lit "ear_with_hearing_aid");
    (Glyph.cross, lit "x") ].

Import Re.

(** [https?://] *)
Definition scheme : regex :=
  Cat (word (lit "http")) (Cat (Opt (Atom (Lit 0x73))) (word (lit "://"))).

(** [re.compile(r'https?://[^\s<>|]+\.wav', re.IGNORECASE)] *)
Definition WAV_URL_PATTERN : regex :=
  Cat scheme
    (Cat (Plus (NotIn [ISpace; IChr 0x3C; IChr 0x3E; IChr 0x7C]))
         (word (lit ".wav"))).

(** [r'<(https?://[^|>]+\.wav)[|>]'] with [re.IGNORECASE] *)
Definition SLACK_LINK_PATTERN : regex :=
  Cat (Atom (Lit 0x3C))
    (Cat (Group (Cat scheme
                   (Cat (Plus (NotIn [IChr 0x7C; IChr 0x3E]))
                        (word (lit ".wav")))))
         (Atom (AnyOf [IChr 0x7C; IChr 0x3E]))).

Definition extract_wav_urls (text : pystr) : list pystr :=
  let slack_links := findall SLACK_LINK_PATTERN text in
  match slack_links with
  | _ :: _ => slack_links
  | [] => findall WAV_URL_PATTERN text
  end.

Definition extract_grade_emojis (analysis : pystr) : list pystr :=
  grade_loop GRADE_EMOJI_MAP analysis.

Section Pipeline.
Variable cfg : config.
Variable en : env.

Definition download_wav (url dest_path : pystr) : M unit :=
  resp <- requests_get en url None 120 ;;
  raise_for_status url resp ;;
  write_file en dest_path (content resp) ;;
  logger INFO (lit "  Downloaded " +++ dest_path +++ lit " ("
               +++ of_N_commas (N.of_nat (List.length (content resp)))
               +++ lit " bytes)").

Definition transcribe_wav (wav_path : pystr) : M pystr :=
  result <- call (fun h => o_whisper en h wav_path)
              (WhisperTranscribe wav_path (lit "en") false) ;;
  ret (strip (get result [])).

Definition analyze_transcript (transcript : pystr) : M pystr :=
  let prompt := PROMPT_HEAD cfg +++ transcript +++ PROMPT_TAIL cfg in
  ollama_generate en (OLLAMA_MODEL cfg) prompt.

(** [f"{s[:n]}{'...' if len(s) > n else ''}"] *)
Definition excerpt (n : N) (s : pystr) : pystr :=
  upto n s +++ (if n <? len s then lit "..." else []).

Definition grade_str (grade_emojis : list pystr) : pystr :=
  match grade_emojis with
  | [] => lit "???"
  | _ => join (lit " ") (map (fun e => lit ":" +++ e +++ lit ":") grade_emojis)
  end.

Definition reply_text (wav_url transcript analysis : pystr) : pystr :=
  let short_url :=
    if contains (lit "/") wav_url then split_last 0x2F wav_url else wav_url in
  lit "*QA Analysis for* `" +++ short_url +++ lit "`" +++ nl +++ nl
  +++ lit "*Transcript:*" +++ nl +++ lit ">>> " +++ excerpt 1500 transcript
  +++ nl +++ nl +++ lit "*Assessment:*" +++ nl +++ analysis.

(** The [for emoji_name in grade_emojis] loop of production mode. *)
Definition react_all (channel message_ts : pystr) (grade_emojis : list pystr) : M unit :=
  for_each grade_emojis (fun emoji_name =>
    try_except
      (reactions_add en channel emoji_name message_ts ;;
       logger INFO (lit "    " +++ [0x2705] +++ lit " Reacted: :" +++ emoji_name +++ lit ":"))
      (fun e =>
         logger WARNING (lit "    " +++ [0x26A0; 0xFE0F] +++ lit " Reaction failed ("
                         +++ emoji_name +++ lit "): " +++ exn_str e))).

Definition no_speech : pystr := Glyph.cross +++ lit " No speech detected".

(** [process_wav_url(wav_url, message_ts, channel, say, client)];
    [say] and [client] tell whether the argument was given. *)
Definition process_wav_url (wav_url message_ts channel : pystr)
    (say client : bool) : M (option pystr) :=
  logger INFO (lit "  " +++ [0x1F3B5] +++ lit " Processing WAV: " +++ wav_url) ;;
  set_tmp_path None ;;
  try_finally
    (try_except
       (tmp_name <- NamedTemporaryFile en (lit ".wav") ;;
        set_tmp_path (Some tmp_name) ;;
        download_wav wav_url tmp_name ;;
        logger INFO (lit "  " +++ [0x1F399; 0xFE0F] +++ lit " Transcribing with Whisper...") ;;
        transcript <- transcribe_wav tmp_name ;;
        if negb (truthy transcript) || (len (strip transcript) <? 10) then
          logger WARNING (lit "  " +++ Glyph.cross
                          +++ lit " No usable speech detected (transcript: '"
                          +++ transcript +++ lit "')") ;;
          (if negb (ANALYZE_ONLY cfg) && client && truthy message_ts && truthy channel
           then swallow (reactions_add en channel (lit "x") message_ts)
           else ret tt) ;;
          ret (Some no_speech)
        else
          logger INFO (lit "  " +++ [0x1F4DD] +++ lit " Transcript ("
                       +++ of_N (len transcript) +++ lit " chars):") ;;
          logger INFO (lit "     " +++ excerpt 600 transcript) ;;
          logger INFO (lit "  " +++ [0x1F916] +++ lit " Running QA analysis...") ;;
          analysis <- analyze_transcript transcript ;;
          let grade_emojis := extract_grade_emojis analysis in
          logger INFO (lit "  " +++ [0x1F4CA] +++ lit " GRADE: " +++ grade_str grade_emojis) ;;
          logger INFO (lit "  " +++ [0x1F4CA] +++ lit " ANALYSIS: " +++ analysis) ;;
          (if negb (ANALYZE_ONLY cfg) && client && say
              && truthy message_ts && truthy channel
           then
             react_all channel message_ts grade_emojis ;;
             slack_say en (reply_text wav_url transcript analysis) message_ts
           else ret tt) ;;
          ret (Some analysis))
       (fun e =>
          logger_exception (lit "  " +++ Glyph.cross +++ lit " Error processing "
                            +++ wav_url +++ lit ": " +++ exn_str e) ;;
          ret None))
    (p <- get_tmp_path ;;
     match p with
     | Some tmp => if truthy tmp then swallow (os_unlink en tmp) else ret tt
     | None => ret tt
     end).

Definition rule : pystr := times 0x3D 60.

(** [process_latest_message(channel_id)]: the loop stops at the first
    message of the fetched list that holds a URL. *)
Fixpoint scan_messages (channel_id : pystr) (messages : list message) : M unit :=
  match messages with
  | [] => logger INFO (lit "  No messages with .wav URLs found in recent history")
  | msg :: rest =>
      let text := get (m_text msg) [] in
      match extract_wav_urls text with
      | first :: _ =>
          let user := get (m_user msg) (lit "unknown") in
          let ts := get (m_ts msg) [] in
          logger INFO (lit "  Found message from " +++ user +++ lit " (ts: " +++ ts +++ lit ")") ;;
          process_wav_url first ts channel_id false false ;;
          ret tt
      | [] => scan_messages channel_id rest
      end
  end.

Definition process_latest_message (channel_id : pystr) : M unit :=
  logger INFO (nl +++ rule) ;;
  logger INFO (lit "STARTUP: Analyzing latest .wav from #" +++ channel_id) ;;
  logger INFO rule ;;
  try_except
    (messages <- call (fun h => o_history en h channel_id 20)
                   (ConversationsHistory channel_id 20) ;;
     scan_messages channel_id messages)
    (fun e => logger ERROR (lit "Failed to fetch messages: " +++ exn_str e)).

(** The listener; Bolt always supplies [say] and [client]. *)
Definition handle_message (event : message) : M unit :=
  let channel := get (m_channel event) [] in
  let user := get (m_user event) (lit "unknown") in
  let text := get (m_text event) [] in
  let ts := get (m_ts event) [] in
  if truthy (QA_CHANNEL_ID cfg) && negb (PyStr.eqb channel (QA_CHANNEL_ID cfg)) then
    ret tt
  else
    match extract_wav_urls text with
    | [] =>
        logger INFO ([0x1F4E8] +++ lit " MSG (no wav) | User: " +++ user
                     +++ lit " | " +++ upto 100 text)
    | (first :: _) as wav_urls =>
        logger INFO (nl +++ [0x1F4E8] +++ lit " NEW WAV MESSAGE | User: " +++ user
                     +++ lit " | ts: " +++ ts) ;;
        logger INFO (lit "   Found " +++ of_N (N.of_nat (List.length wav_urls))
                     +++ lit " .wav URL(s)") ;;
        process_wav_url first ts channel true true ;;
        ret tt
    end.

(** The [__main__] block.  [SocketModeHandler_start token] stands for its
    last two statements, [handler = SocketModeHandler(app, SLACK_APP_TOKEN)]
    and [handler.start()]: code of the Slack library, which connects with the
    app token and runs the listener for as long as it serves.  Nothing is
    assumed of it: it may add events, change the state, return or raise. *)
Definition startup (SocketModeHandler_start : pystr -> M unit) : M unit :=
  logger INFO ((if ANALYZE_ONLY cfg
                then [0x1F52C] +++ lit " ANALYZE-ONLY (log only)"
                else [0x1F680] +++ lit " PRODUCTION")
               +++ lit " " +++ [0x2014] +++ lit " QA Bot starting...") ;;
  logger INFO (lit "   Model: " +++ OLLAMA_MODEL cfg) ;;
  logger INFO (lit "   Whisper: " +++ WHISPER_MODEL_SIZE cfg) ;;
  logger INFO (lit "   Channel: "
               +++ (if truthy (QA_CHANNEL_ID cfg) then QA_CHANNEL_ID cfg else lit "ALL")) ;;
  (if ANALYZE_ONLY cfg then
     logger INFO (nl +++ lit "   " +++ [0x26A0; 0xFE0F] +++ lit "  ANALYZE_ONLY=True "
                  +++ [0x2014] +++ lit " no reactions/replies, log only") ;;
     logger INFO (lit "   " +++ [0x26A0; 0xFE0F]
                  +++ lit "  Set ANALYZE_ONLY=False for production" +++ nl)
   else ret tt) ;;
  (if truthy (QA_CHANNEL_ID cfg) then process_latest_message (QA_CHANNEL_ID cfg)
   else ret tt) ;;
  logger INFO (nl +++ [0x1F534] +++ lit " LIVE " +++ [0x2014]
               +++ lit " waiting for new .wav messages (Ctrl+C to stop)" +++ nl) ;;
  SocketModeHandler_start (SLACK_APP_TOKEN cfg).

End Pipeline.

End QaBot.

(** ** [extra.py]: the file-upload bot *)

Module Extra.

(** [PROMPT_HEAD] is the text of [QA_PROMPT_TEMPLATE] before
    [{transcript}], which ends the template. *)
Record config := Config {
  SLACK_BOT_TOKEN : pystr;
  SLACK_APP_TOKEN : pystr;
  OLLAMA_MODEL : pystr;
  QA_CHANNEL_ID : pystr;
  PROMPT_HEAD : pystr
}.

Definition GRADE_EMOJI_MAP : items :=
  [ (Glyph.green_heart, lit "green_heart");
    (Glyph.yellow_heart, lit "yellow_heart");
    (Glyph.orange_heart, lit "orange_heart");
    (Glyph.heart, lit "heart");
    (Glyph.rage, lit "rage");
    (Glyph.arrow_upper_right, lit "arrow_upper_right") ].

Definition extract_grade_emojis (analysis : pystr) : list pystr :=
  grade_loop GRADE_EMOJI_MAP analysis.

(** [a or b] on two [.get] results. *)
Definition py_or (a b : option pystr) : option pystr :=
  match a with
  | Some x => if truthy x then a else b
  | None => b
  end.

Definition hourglass : pystr := lit "hourglass_flowing_sand".

Section Pipeline.
Variable cfg : config.
Variable en : env.

(** The [for i, chunk in enumerate(speech_chunks)] loop; [i] is the
    index of the next chunk and [transcript_parts] the list built so far. *)
Fixpoint recognize_chunks (total : nat) (i : N) (speech_chunks : list audio)
    (transcript_parts : list pystr) : M (list pystr) :=
  match speech_chunks with
  | [] => ret transcript_parts
  | chunk :: rest =>
      parts <- except_UnknownValueError
                 (text <- recognize_google en chunk ;;
                  logger INFO (lit "  Chunk " +++ of_N (i + 1) +++ lit "/"
                               +++ of_N (N.of_nat total) +++ lit ": "
                               +++ upto 60 text +++ lit "...") ;;
                  ret (transcript_parts ++ [text]))
                 (logger DEBUG (lit "  Chunk " +++ of_N (i + 1)
                                +++ lit ": (unintelligible, skipped)") ;;
                  ret transcript_parts) ;;
      recognize_chunks total (i + 1) rest parts
  end.

Definition transcribe_wav (wav_path : pystr) : M pystr :=
  a <- AudioSegment_from_wav en wav_path ;;
  speech_chunks <- split_on_silence en a 500 (PrimFloat.sub (dBFS a) 14%float) 250 ;;
  transcript_parts <- recognize_chunks (List.length speech_chunks) 0 speech_chunks [] ;;
  ret (strip (join (lit " ") transcript_parts)).

Definition analyze_transcript (transcript : pystr) : M pystr :=
  ollama_generate en (OLLAMA_MODEL cfg) (PROMPT_HEAD cfg +++ transcript).

Definition download_slack_file (url dest_path : pystr) : M unit :=
  resp <- requests_get en url (Some (lit "Bearer " +++ SLACK_BOT_TOKEN cfg)) 120 ;;
  raise_for_status url resp ;;
  write_file en dest_path (content resp) ;;
  logger INFO (lit "Downloaded file to " +++ dest_path +++ lit " ("
               +++ of_N (N.of_nat (List.length (content resp))) +++ lit " bytes)").

Definition react_all (channel ts : pystr) (grade_emojis : list pystr) : M unit :=
  for_each grade_emojis (fun emoji_name =>
    try_except
      (reactions_add en channel emoji_name ts ;;
       logger INFO (lit "  " +++ [0x2705] +++ lit " Reacted: :" +++ emoji_name +++ lit ":"))
      (fun e =>
         logger WARNING (lit "  " +++ [0x26A0; 0xFE0F] +++ lit " Reaction failed ("
                         +++ emoji_name +++ lit "): " +++ exn_str e))).

Definition reply_text (filename transcript analysis : pystr) : pystr :=
  lit "*QA Analysis for* `" +++ filename +++ lit "`" +++ nl +++ nl
  +++ lit "*Transcript:*" +++ nl +++ lit ">>> " +++ upto 1500 transcript
  +++ (if 1500 <? len transcript then lit "..." else [])
  +++ nl +++ nl +++ lit "*Assessment:*" +++ nl +++ analysis.

Definition could_not_transcribe (filename : pystr) : pystr :=
  [0x26A0; 0xFE0F] +++ lit " Could not transcribe any speech from `" +++ filename +++ lit "`.".

Definition error_notice (filename : pystr) (e : exn) : pystr :=
  Glyph.cross +++ lit " Error analyzing `" +++ filename +++ lit "`: " +++ exn_str e.

(** The [finally] block of one file. *)
Definition cleanup (channel ts : pystr) : M unit :=
  swallow (p <- get_tmp_path ;;
           match p with
           | Some tmp => os_unlink en tmp
           | None =>
               raise (Exn "UnboundLocalError"
                        (lit "cannot access local variable 'tmp_path' where it is not associated with a value"))
           end) ;;
  swallow (reactions_remove en channel hourglass ts).

(** The body of [for file_info in wav_files]. *)
Definition handle_file (channel ts : pystr) (file_info : file_info) : M unit :=
  let filename := get (f_name file_info) (lit "unknown.wav") in
  match py_or (f_url_private_download file_info) (f_url_private file_info) with
  | None | Some [] =>
      logger WARNING (lit "No download URL for file: " +++ filename)
  | Some download_url =>
      logger INFO ([0x1F4E5] +++ lit " Processing: " +++ filename
                   +++ lit " in channel " +++ channel) ;;
      swallow (reactions_add en channel hourglass ts) ;;
      try_finally
        (try_except
           (tmp_name <- NamedTemporaryFile en (lit ".wav") ;;
            set_tmp_path (Some tmp_name) ;;
            download_slack_file download_url tmp_name ;;
            logger INFO ([0x1F399; 0xFE0F] +++ lit " Transcribing audio...") ;;
            transcript <- transcribe_wav tmp_name ;;
            if negb (truthy transcript) then
              slack_say en (could_not_transcribe filename) ts
            else
              logger INFO ([0x1F4DD] +++ lit " Transcript (" +++ of_N (len transcript)
                           +++ lit " chars): " +++ upto 100 transcript +++ lit "...") ;;
              logger INFO ([0x1F916] +++ lit " Running QA analysis...") ;;
              analysis <- analyze_transcript transcript ;;
              logger INFO ([0x1F4CA] +++ lit " Analysis complete.") ;;
              react_all channel ts (extract_grade_emojis analysis) ;;
              slack_say en (reply_text filename transcript analysis) ts)
           (fun e =>
              logger_exception (lit "Error processing " +++ filename +++ lit ": " +++ exn_str e) ;;
              slack_say en (error_notice filename e) ts))
        (cleanup channel ts)
  end.

Definition is_wav (f : file_info) : bool :=
  lower_endswith (lit ".wav") (get (f_name f) [])
  || PyStr.eqb (get (f_mimetype f) []) (lit "audio/wav").

(** The listener.  [tmp_path] is unbound when the handler starts. *)
Definition handle_message (event : message) : M unit :=
  let channel := get (m_channel event) [] in
  let ts := get (m_ts event) [] in
  let files := get (m_files event) [] in
  set_tmp_path None ;;
  if truthy (QA_CHANNEL_ID cfg) && negb (PyStr.eqb channel (QA_CHANNEL_ID cfg)) then
    ret tt
  else
    let wav_files := filter is_wav files in
    match wav_files with
    | [] => ret tt
    | _ => for_each wav_files (handle_file channel ts)
    end.

End Pipeline.

End Extra.

(** ** [main.py]: the stand-alone script *)

Module Main.

(** [os.path.join(a, b)] on POSIX paths. *)
Definition os_path_join (a b : pystr) : pystr :=
  if startswith (lit "/") b then b
  else if negb (truthy a) || startswith (lit "/") (rev a) then a +++ b
  else a +++ lit "/" +++ b.

(** [except ImportError]: the class and its subclasses of the standard
    library (an exception is known by the name of its class). *)
Definition is_ImportError (e : exn) : bool :=
  String.eqb (exn_class e) "ImportError"
  || String.eqb (exn_class e) "ModuleNotFoundError"
  || String.eqb (exn_class e) "ZipImportError".

Section Script.
Variable en : env.
(** [os.path.expanduser("~/Downloads")] *)
Variable default_path : pystr.
(** The rubric text of the prompt, up to and including ["Dialogue: "]. *)
Variable prompt_head : pystr.

(** The [for chunk in speech_chunks] loop. *)
Fixpoint recognize_chunks (speech_chunks : list audio) (full_transcript : pystr)
    : M pystr :=
  match speech_chunks with
  | [] => ret full_transcript
  | chunk :: rest =>
      full_transcript' <-
        except_UnknownValueError
          (chunk_text <- recognize_google en chunk ;;
           print (lit "Transcribed segment: " +++ upto 50 chunk_text +++ lit "...") ;;
           ret (full_transcript +++ chunk_text +++ lit " "))
          (ret full_transcript) ;;
      recognize_chunks rest full_transcript'
  end.

(** Lines 18 to 44: from the loaded file to the stripped transcript. *)
Definition transcribe (wav_file_path : pystr) : M pystr :=
  print (lit "Detecting and removing silence...") ;;
  a <- AudioSegment_from_wav en wav_file_path ;;
  speech_chunks <- split_on_silence en a 500 (PrimFloat.sub (dBFS a) 14%float) 250 ;;
  print (lit "Audio split into active speech segments. Transcribing...") ;;
  full_transcript <- recognize_chunks speech_chunks [] ;;
  ret (strip full_transcript).

Definition analyze_dialogue (filename model_name : pystr) : M unit :=
  let wav_file_path := os_path_join default_path filename in
  print (lit "Loading and analyzing audio file: " +++ wav_file_path) ;;
  try_except
    (full_transcript <- transcribe wav_file_path ;;
     if negb (truthy full_transcript) then
       print (lit "Error: No speech could be transcribed from the file.")
     else
       print (nl +++ lit "--- Complete Transcript ---") ;;
       print full_transcript ;;
       print (lit "---------------------------" +++ nl) ;;
       print (lit "Analyzing dialogue using Ollama (" +++ model_name +++ lit ")...") ;;
       response <- ollama_generate en model_name (prompt_head +++ full_transcript) ;;
       print (nl +++ lit "--- Dialogue Review ---") ;;
       print response ;;
       print (lit "-----------------------" +++ nl))
    (fun e =>
       if String.eqb (exn_class e) "FileNotFoundError" then
         print (lit "Error: The file '" +++ filename +++ lit "' was not found in "
                +++ default_path +++ lit ".")
       else if is_ImportError e then
         print (lit "Error: The 'pydub' library is required. Please run: pip install pydub")
       else
         print (lit "An unexpected error occurred: " +++ exn_str e)).

(** The call at the end of the module, with the default [model_name]. *)
Definition main : M unit :=
  analyze_dialogue (lit "C-3PO Topserv Recording.wav")
    (lit "hf.co/bartowski/Llama-3.2-1B-Instruct-GGUF:Q8_0").

End Script.

End Main.

(** * Specification vocabulary *)

(** [g] occurs in [text] as a contiguous block. *)
Definition occurs_in (g text : pystr) : Prop :=
  exists pre post, text = pre ++ g ++ post.

(** What the grade extractor must compute for a glyph table: the labels of
    the glyphs that occur in the text, each once. *)
Definition glyph_set_of (table : items) (extract : pystr -> list pystr) : Prop :=
  forall text,
    (forall label,
        In label (extract text) <->
        exists glyph, In (glyph, label) table /\ occurs_in glyph text)
    /\ NoDup (extract text).

(** [w] occurs in [text] up to the case of ASCII letters ([w] in lower case). *)
Definition occurs_ci (w text : pystr) : Prop :=
  exists pre mid post, text = pre ++ mid ++ post /\ map lower_ascii mid = w.

(** The words a pattern can match, whatever the order the engine tries them in. *)
Fixpoint lang (r : Re.regex) (w : pystr) : Prop :=
  match r with
  | Re.Atom a => exists x, w = [x] /\ Re.atom_match a x = true
  | Re.Cat r1 r2 => exists w1 w2, w = w1 ++ w2 /\ lang r1 w1 /\ lang r2 w2
  | Re.Opt r1 => w = [] \/ lang r1 w
  | Re.Plus a => w <> [] /\ Forall (fun x => Re.atom_match a x = true) w
  | Re.Group r1 => lang r1 w
  end.

(** ** Reading a trace *)

Fixpoint pick {A} (f : event -> option A) (l : list event) : list A :=
  match l with
  | [] => []
  | ev :: l' =>
      match f ev with
      | Some a => a :: pick f l'
      | None => pick f l'
      end
  end.

(** The replies posted with [say]: text, thread and whether Slack took it. *)
Definition says : list event -> list (pystr * pystr * result unit) :=
  pick (fun ev => match ev with Say text th r => Some (text, th, r) | _ => None end).

(** The names of the reactions the run tried to add. *)
Definition reactions_added : list event -> list pystr :=
  pick (fun ev => match ev with ReactionsAdd _ name _ _ => Some name | _ => None end).

(** The prompts sent to the text-generation service. *)
Definition generated : list event -> list pystr :=
  pick (fun ev => match ev with OllamaGenerate _ prompt _ => Some prompt | _ => None end).

(** The calls of [os.unlink] and how they ended. *)
Definition unlinks : list event -> list (path * result unit) :=
  pick (fun ev => match ev with Unlink p r => Some (p, r) | _ => None end).

(** The temporary files created. *)
Definition temp_files : list event -> list path :=
  pick (fun ev => match ev with MkTemp _ (Ok p) => Some p | _ => None end).

(** What Whisper answered. *)
Definition whispered : list event -> list (option pystr) :=
  pick (fun ev => match ev with WhisperTranscribe _ _ _ (Ok r) => Some r | _ => None end).

(** The analyses the text-generation service returned. *)
Definition analyses : list event -> list pystr :=
  pick (fun ev => match ev with OllamaGenerate _ _ (Ok a) => Some a | _ => None end).

(** The processing runs started: each run asks for one temporary file. *)
Definition runs_started : list event -> list (result path) :=
  pick (fun ev => match ev with MkTemp _ r => Some r | _ => None end).

(** The calls of [conversations_history]. *)
Definition histories : list event -> list (pystr * N * result (list message)) :=
  pick (fun ev => match ev with
                  | ConversationsHistory ch limit r => Some (ch, limit, r)
                  | _ => None
                  end).

(** The URLs fetched. *)
Definition fetched : list event -> list pystr :=
  pick (fun ev => match ev with HttpGet url _ _ _ => Some url | _ => None end).

(** The messages logged at level ERROR. *)
Definition errors_logged : list event -> list pystr :=
  pick (fun ev => match ev with Log ERROR msg => Some msg | _ => None end).

(** The texts the recognizer returned, in call order. *)
Definition recognized : list event -> list pystr :=
  pick (fun ev => match ev with RecognizeGoogle _ (Ok text) => Some text | _ => None end).

(** The exception a download (temporary file included), transcription or
    analysis call raised, if the event is such a failure. *)
Definition stage_failure (ev : event) : option exn :=
  match ev with
  | HttpGet url _ _ (Err e) => Some e
  | HttpGet url _ _ (Ok resp) =>
      let code := status_code resp in
      if (400 <=? code) && (code <? 500) then
        Some (Exn "HTTPError"
                (of_N code +++ lit " Client Error: " +++ reason resp +++ lit " for url: " +++ url))
      else if (500 <=? code) && (code <? 600) then
        Some (Exn "HTTPError"
                (of_N code +++ lit " Server Error: " +++ reason resp +++ lit " for url: " +++ url))
      else None
  | MkTemp _ (Err e) => Some e
  | WriteFile _ _ (Err e) => Some e
  | WhisperTranscribe _ _ _ (Err e) => Some e
  | FromWav _ (Err e) => Some e
  | RecognizeGoogle _ (Err e) =>
      if String.eqb (exn_class e) "UnknownValueError" then None else Some e
  | OllamaGenerate _ _ (Err e) => Some e
  | _ => None
  end.

(** Events of a reaction loop: reactions and log lines below ERROR. *)
Definition reaction_event (ev : event) : Prop :=
  match ev with
  | ReactionsAdd _ _ _ _ => True
  | Log lvl _ => lvl <> ERROR
  | _ => False
  end.

(** Events of a chunked transcription. *)
Definition recognition_event (ev : event) : Prop :=
  match ev with
  | FromWav _ _ | SplitOnSilence _ _ _ _ _ | RecognizeGoogle _ _ | Stdout _ => True
  | Log lvl _ => lvl <> ERROR
  | _ => False
  end.

(** Events of a download. *)
Definition download_event (ev : event) : Prop :=
  match ev with
  | HttpGet _ _ _ _ | WriteFile _ _ _ => True
  | Log lvl _ => lvl <> ERROR
  | _ => False
  end.

(** The chunks handed to the recognizer, in call order. *)
Definition recognize_calls : list event -> list audio :=
  pick (fun ev => match ev with RecognizeGoogle chunk _ => Some chunk | _ => None end).

(** The clips loaded and the silence splits asked for. *)
Definition splits : list event -> list (audio * N * float * N * list audio) :=
  pick (fun ev => match ev with
                  | SplitOnSilence a m t k chunks => Some (a, m, t, k, chunks)
                  | _ => None
                  end).

Definition failures : list event -> list exn := pick stage_failure.

(** What a chunked transcription that ended with [r] left in the trace. *)
Definition chunk_report (chunks : list audio) (r : result (list pystr))
    (l : list event) : Prop :=
  Forall recognition_event l /\ splits l = [] /\
  match r with
  | Ok texts => texts = recognized l /\ failures l = [] /\ recognize_calls l = chunks
  | Err e => failures l = [e]
  end.

(** What a chunked transcription of the file [p] that ended with [r] left in
    the trace: nothing failed and the result is the stripped, space-joined
    sequence of recognized texts, after one split of the loaded clip with
    the parameters of the source and one recognizer call per chunk, in
    order; or one failure, which is the exception raised. *)
Definition transcription_report (en : env) (p : path) (r : result pystr)
    (l : list event) : Prop :=
  Forall recognition_event l /\
  match r with
  | Ok t =>
      failures l = [] /\
      t = strip (join (lit " ") (recognized l)) /\
      exists a,
        In (FromWav p (Ok a)) l /\
        splits l = [(a, 500, PrimFloat.sub (dBFS a) 14%float, 250,
                     o_split_on_silence en a 500 (PrimFloat.sub (dBFS a) 14%float) 250)] /\
        recognize_calls l =
          o_split_on_silence en a 500 (PrimFloat.sub (dBFS a) 14%float) 250
  | Err e => failures l = [e]
  end.

(** What a download of [url] that ended with [r] left in the trace: one
    fetch of that URL, and the failure it raised if it raised one. *)
Definition download_report (url : pystr) (r : result unit) (l : list event) : Prop :=
  Forall download_event l /\ fetched l = [url] /\
  match r with
  | Ok _ => failures l = []
  | Err e => failures l = [e]
  end.

(** The HTTP requests made: URL, [Authorization] header and timeout. *)
Definition requests : list event -> list (pystr * option pystr * N) :=
  pick (fun ev => match ev with
                  | HttpGet url bearer timeout _ => Some (url, bearer, timeout)
                  | _ => None
                  end).

(** The responses received. *)
Definition responses : list event -> list response :=
  pick (fun ev => match ev with HttpGet _ _ _ (Ok resp) => Some resp | _ => None end).

(** The files the process tried to write: path and data. *)
Definition writes : list event -> list (path * list N) :=
  pick (fun ev => match ev with WriteFile p data _ => Some (p, data) | _ => None end).

(** The calls of Whisper: file, language and [fp16]. *)
Definition whisper_calls : list event -> list (path * pystr * bool) :=
  pick (fun ev => match ev with
                  | WhisperTranscribe p language fp16 _ => Some (p, language, fp16)
                  | _ => None
                  end).

(** The files handed to [AudioSegment.from_wav]. *)
Definition loaded : list event -> list path :=
  pick (fun ev => match ev with FromWav p _ => Some p | _ => None end).

(** The reactions the process tried to add: channel, name and timestamp. *)
Definition reactions_at : list event -> list (pystr * pystr * pystr) :=
  pick (fun ev => match ev with
                  | ReactionsAdd channel name ts _ => Some (channel, name, ts)
                  | _ => None
                  end).

(** The reactions the process tried to remove. *)
Definition reactions_removed : list event -> list (pystr * pystr * pystr) :=
  pick (fun ev => match ev with
                  | ReactionsRemove channel name ts _ => Some (channel, name, ts)
                  | _ => None
                  end).

(** The calls of the text-generation service: model and prompt. *)
Definition prompts_to : list event -> list (pystr * pystr) :=
  pick (fun ev => match ev with
                  | OllamaGenerate model prompt _ => Some (model, prompt)
                  | _ => None
                  end).

(** The lines written to standard output. *)
Definition printed : list event -> list pystr :=
  pick (fun ev => match ev with Stdout msg => Some msg | _ => None end).

(** The messages logged at level WARNING. *)
Definition warnings : list event -> list pystr :=
  pick (fun ev => match ev with Log WARNING msg => Some msg | _ => None end).

(** A status that [raise_for_status] turns into an exception. *)
Definition error_status (code : N) : Prop := 400 <= code < 600.

(** What a download of [url] to [dest] that ended with [r] left in the
    trace: one request, with the given [Authorization] header and a timeout
    of 120 seconds, answered at most once.  When the request fails, or is
    answered with an error status, nothing is written and the download
    raises (an [HTTPError], for an error status); otherwise the body of the response is written to [dest], once, and the
    download raises only if that write does. *)
Definition download_outcome (url : pystr) (bearer : option pystr) (dest : path)
    (r : result unit) (l : list event) : Prop :=
  requests l = [(url, bearer, 120)]
  /\ (responses l = [] \/ exists resp, responses l = [resp])
  /\ (responses l = [] -> writes l = [] /\ exists e, r = Err e)
  /\ (forall resp,
        responses l = [resp] ->
        (error_status (status_code resp) ->
         writes l = []
         /\ exists e, r = Err e /\ exn_class e = "HTTPError"%string)
        /\ (~ error_status (status_code resp) ->
            writes l = [(dest, content resp)]
            /\ (r = Ok tt \/ exists e, r = Err e /\ failures l = [e]))).

(** ** Outcomes of runs *)

(** [wp m h s Q]: the outcome of [m], run in history [h] and state [s],
    satisfies [Q]. *)
Definition wp {A} (m : M A) (h : list event) (s : state) (Q : out A -> Prop) : Prop :=
  Q (m h s).

(** Every run of [process_wav_url], by the path it takes:
    - a transcript shorter than 10 characters once stripped ends the run
      with the no-speech value: no analysis, no reply, no error, at most the
      marker [x], and the temporary file is unlinked;
    - a longer transcript is sent to the analyzer, once;
    - in production mode with a client, [say], a timestamp and a channel,
      an analysis without a known glyph gives no reaction and one reply
      holding the analysis;
    - a failure of the download, transcription or analysis is logged with
      the URL and the run returns [None] without any reply;
    - the run always returns a value; it asks for one temporary file and
      fetches nothing but its URL, at most once; a temporary file it created
      is unlinked exactly once, and is gone unless that call failed;
    - in analyze-only mode nothing is posted and no reaction is added. *)
Definition qa_paths (cfg : QaBot.config) (url ts ch : pystr) (say client : bool)
    (o : out (option pystr)) : Prop :=
  (forall r,
      whispered (evs o) = [r] ->
      (len (strip (get r [])) <? 10) = true ->
      res o = Ok (Some QaBot.no_speech)
      /\ generated (evs o) = []
      /\ says (evs o) = []
      /\ errors_logged (evs o) = []
      /\ reactions_added (evs o)
         = (if negb (QaBot.ANALYZE_ONLY cfg) && client && truthy ts && truthy ch
            then [lit "x"] else [])
      /\ exists p ur, temp_files (evs o) = [p] /\ unlinks (evs o) = [(p, ur)])
  /\
  (forall r,
      whispered (evs o) = [r] ->
      (len (strip (get r [])) <? 10) = false ->
      generated (evs o)
      = [QaBot.PROMPT_HEAD cfg +++ strip (get r []) +++ QaBot.PROMPT_TAIL cfg])
  /\
  (QaBot.ANALYZE_ONLY cfg = false -> client = true -> say = true ->
   truthy ts = true -> truthy ch = true ->
   forall analysis,
     analyses (evs o) = [analysis] ->
     QaBot.extract_grade_emojis analysis = [] ->
     reactions_added (evs o) = []
     /\ exists transcript r,
         says (evs o) = [(QaBot.reply_text url transcript analysis, ts, r)]
         /\ (r = Ok tt -> res o = Ok (Some analysis) /\ errors_logged (evs o) = []))
  /\
  (forall e,
      In e (failures (evs o)) ->
      errors_logged (evs o)
      = [lit "  " +++ Glyph.cross +++ lit " Error processing " +++ url +++ lit ": "
         +++ exn_str e]
      /\ says (evs o) = []
      /\ res o = Ok None)
  /\ (exists v, res o = Ok v)
  /\ (exists r, runs_started (evs o) = [r])
  /\ (fetched (evs o) = [] \/ fetched (evs o) = [url])
  /\ histories (evs o) = []
  /\ (forall p, In p (temp_files (evs o)) ->
                exists r, unlinks (evs o) = [(p, r)]
                          /\ (r = Ok tt -> ~ In p (files (st o))))
  /\ (QaBot.ANALYZE_ONLY cfg = true ->
      says (evs o) = [] /\ reactions_added (evs o) = []).

(** Every run of the loop body of [handle_message] on one file, by the path
    it takes (download and transcription without failure in the first two):
    - an empty transcript: no analysis, no reaction besides the hourglass,
      the temporary file unlinked, and the first reply is the "could not
      transcribe" one; if Slack takes it, it is the only reply, nothing is
      logged as an error and the run ends normally;
    - a transcript that is not empty is sent to the analyzer;
    - an analysis without a known glyph gives no reaction besides the
      hourglass and a reply holding the analysis;
    - a failure of the download, transcription or analysis is logged with
      the file name and answered with one failure notice, whose outcome is
      the outcome of the run;
    - the run raises only what posting the failure notice raised;
    - a temporary file it created is unlinked exactly once and is gone
      unless that call failed. *)
Definition extra_paths (cfg : Extra.config) (ts : pystr) (file : file_info)
    (o : out unit) : Prop :=
  let filename := get (f_name file) (lit "unknown.wav") in
  (forall p,
      temp_files (evs o) = [p] -> failures (evs o) = [] ->
      strip (join (lit " ") (recognized (evs o))) = [] ->
      generated (evs o) = []
      /\ reactions_added (evs o) = [Extra.hourglass]
      /\ (exists ur, unlinks (evs o) = [(p, ur)])
      /\ exists r,
          hd_error (says (evs o)) = Some (Extra.could_not_transcribe filename, ts, r)
          /\ (r = Ok tt ->
              says (evs o) = [(Extra.could_not_transcribe filename, ts, Ok tt)]
              /\ res o = Ok tt /\ errors_logged (evs o) = []))
  /\
  (forall p,
      temp_files (evs o) = [p] -> failures (evs o) = [] ->
      strip (join (lit " ") (recognized (evs o))) <> [] ->
      generated (evs o)
      = [Extra.PROMPT_HEAD cfg +++ strip (join (lit " ") (recognized (evs o)))])
  /\
  (forall analysis,
      analyses (evs o) = [analysis] ->
      Extra.extract_grade_emojis analysis = [] ->
      reactions_added (evs o) = [Extra.hourglass]
      /\ exists transcript r,
          hd_error (says (evs o))
          = Some (Extra.reply_text filename transcript analysis, ts, r)
          /\ (r = Ok tt ->
              says (evs o) = [(Extra.reply_text filename transcript analysis, ts, Ok tt)]
              /\ res o = Ok tt /\ errors_logged (evs o) = []))
  /\
  (forall e,
      In e (failures (evs o)) ->
      errors_logged (evs o)
      = [lit "Error processing " +++ filename +++ lit ": " +++ exn_str e]
      /\ exists r, says (evs o) = [(Extra.error_notice filename e, ts, r)]
                   /\ res o = r)
  /\
  (res o = Ok tt
   \/ exists e0 e, res o = Err e
                   /\ In (Extra.error_notice filename e0, ts, Err e) (says (evs o)))
  /\
  (forall p,
      In p (temp_files (evs o)) ->
      exists r, unlinks (evs o) = [(p, r)] /\ (r = Ok tt -> ~ In p (files (st o)))).

(** What every run of [process_wav_url] keeps to, whatever path it takes:
    - Slack: without a client no reaction, without [say] no reply; every
      reaction goes to the given channel and message, every reply to the
      thread of the message; at most one reply; no reaction is removed;
    - production mode: the grades of the analysis are tried as reactions, in
      the order of the table, and one reply holds the stripped transcript
      and the analysis;
    - data: at most one request, for the URL, without [Authorization]
      header; what is written is the body of a response without error
      status, to the temporary file; Whisper gets that file;
    - stages: nothing is requested without a temporary file, transcribed
      without a write, analysed without a transcript, posted without an
      analysis; the analyzer is called at most once, with the configured
      model;
    - value: a returned text is the no-speech value or the analysis, and
      nothing was logged as an error; [None] comes with one logged error. *)
Definition qa_flow (cfg : QaBot.config) (url ts ch : pystr) (say client : bool)
    (o : out (option pystr)) : Prop :=
  let l := evs o in
  (client = false -> reactions_at l = [])
  /\ (say = false -> says l = [])
  /\ (forall x, In x (reactions_at l) -> exists name, x = (ch, name, ts))
  /\ (forall x, In x (says l) -> snd (fst x) = ts)
  /\ (List.length (says l) <= 1)%nat
  /\ reactions_removed l = []
  /\ (QaBot.ANALYZE_ONLY cfg = false -> client = true -> say = true ->
      truthy ts = true -> truthy ch = true ->
      forall w analysis,
        whispered l = [w] -> analyses l = [analysis] ->
        reactions_at l
        = map (fun name => (ch, name, ts)) (QaBot.extract_grade_emojis analysis)
        /\ exists r,
            says l = [(QaBot.reply_text url (strip (get w [])) analysis, ts, r)])
  /\ (requests l = [] \/ requests l = [(url, None, 120)])
  /\ (forall x, In x (writes l) ->
                exists resp, responses l = [resp] /\ snd x = content resp
                             /\ ~ error_status (status_code resp))
  /\ (forall p, temp_files l = [p] ->
                (forall x, In x (writes l) -> fst x = p)
                /\ (forall c, In c (whisper_calls l) -> c = (p, lit "en", false)))
  /\ (temp_files l = [] -> requests l = [])
  /\ (writes l = [] -> whisper_calls l = [])
  /\ (whispered l = [] -> prompts_to l = [])
  /\ (analyses l = [] -> says l = [])
  /\ (forall x, In x (prompts_to l) -> fst x = QaBot.OLLAMA_MODEL cfg)
  /\ (List.length (prompts_to l) <= 1)%nat
  /\ (forall v, res o = Ok (Some v) ->
                errors_logged l = [] /\ (v = QaBot.no_speech \/ analyses l = [v]))
  /\ (res o = Ok None -> exists msg, errors_logged l = [msg]).

(** What every run of the loop body of [handle_message] on a file with the
    download URL [download_url] keeps to, whatever path it takes:
    - there is at most one analysis; the hourglass is the first reaction
      tried and its removal is tried once; the grades of the analysis follow
      the hourglass, in the order of the table; every reaction and removal
      goes to the channel and message;
    - every reply goes to the thread of the message; when there is an
      analysis the first reply holds the transcript and the analysis;
    - data: at most one request, for the download URL, with the bot token as
      a bearer; what is written is the body of a response without error
      status, to the temporary file, which is the only file loaded;
    - stages: nothing is requested without a temporary file, loaded without
      a write, analysed without a loaded file; the analyzer is called at most
      once, with the configured model and the rubric followed by the
      transcript;
    - at most one error is logged, and a run without a logged error ends
      normally. *)
Definition extra_flow (cfg : Extra.config) (ch ts : pystr) (file : file_info)
    (download_url : pystr) (o : out unit) : Prop :=
  let l := evs o in
  let filename := get (f_name file) (lit "unknown.wav") in
  (analyses l = [] \/ exists analysis, analyses l = [analysis])
  /\ (analyses l = [] -> reactions_at l = [(ch, Extra.hourglass, ts)])
  /\ (forall analysis,
        analyses l = [analysis] ->
        reactions_at l
        = map (fun name => (ch, name, ts))
            (Extra.hourglass :: Extra.extract_grade_emojis analysis)
        /\ exists r,
            hd_error (says l)
            = Some (Extra.reply_text filename
                      (strip (join (lit " ") (recognized l))) analysis, ts, r))
  /\ reactions_removed l = [(ch, Extra.hourglass, ts)]
  /\ (forall x, In x (says l) -> snd (fst x) = ts)
  /\ (List.length (says l) <= 2)%nat
  /\ (requests l = []
      \/ requests l
         = [(download_url, Some (lit "Bearer " +++ Extra.SLACK_BOT_TOKEN cfg), 120)])
  /\ (forall x, In x (writes l) ->
                exists resp, responses l = [resp] /\ snd x = content resp
                             /\ ~ error_status (status_code resp))
  /\ (forall p, temp_files l = [p] ->
                (forall x, In x (writes l) -> fst x = p)
                /\ (forall x, In x (loaded l) -> x = p))
  /\ (temp_files l = [] -> requests l = [])
  /\ (writes l = [] -> loaded l = [])
  /\ (loaded l = [] -> prompts_to l = [])
  /\ (forall x, In x (prompts_to l) ->
                x = (Extra.OLLAMA_MODEL cfg,
                     Extra.PROMPT_HEAD cfg +++ strip (join (lit " ") (recognized l))))
  /\ (List.length (prompts_to l) <= 1)%nat
  /\ (List.length (errors_logged l) <= 1)%nat
  /\ (errors_logged l = [] -> res o = Ok tt).

(** What the listener of [extra.py] keeps to on a message of channel [ch]
    and timestamp [ts] that holds [n] WAV files: reactions, removals and
    replies all go to that message; every hourglass added has its removal
    tried, at most one per file; and the listener raises only what posting
    a reply raised. *)
Definition upload_listener_shape (ch ts : pystr) (n : nat) (o : out unit) : Prop :=
  let l := evs o in
  (forall x, In x (reactions_at l) -> exists name, x = (ch, name, ts))
  /\ (forall x, In x (reactions_removed l) -> x = (ch, Extra.hourglass, ts))
  /\ (forall x, In x (says l) -> snd (fst x) = ts)
  /\ List.length
       (filter (fun x => PyStr.eqb (snd (fst x)) Extra.hourglass) (reactions_at l))
     = List.length (reactions_removed l)
  /\ (List.length (reactions_removed l) <= n)%nat
  /\ (res o = Ok tt
      \/ exists e text, res o = Err e /\ In (text, ts, Err e) (says l)).

(** Events of a recognizer loop. *)
Definition chunk_event (ev : event) : Prop :=
  match ev with
  | RecognizeGoogle _ _ | Stdout _ => True
  | Log lvl _ => lvl <> ERROR
  | _ => False
  end.

(** How a recognizer loop over [chunks] ended: with every chunk sent to the
    recognizer, in order; or with an exception that is not
    [UnknownValueError], raised by the last chunk sent, the chunks after it
    never being sent. *)
Definition chunks_outcome {A} (chunks : list audio) (r : result A)
    (l : list event) : Prop :=
  match r with
  | Ok _ => recognize_calls l = chunks
  | Err e =>
      exn_class e <> "UnknownValueError"%string
      /\ exists done chunk rest,
          chunks = done ++ chunk :: rest
          /\ recognize_calls l = done ++ [chunk]
          /\ exists before, l = before ++ [RecognizeGoogle chunk (Err e)]
  end.

(** What a run of [analyze_dialogue] of [main.py] leaves behind:
    - it never raises and leaves the state as it was; its first line of
      output names the file it loads, [filename] joined to the downloads
      directory; that file is the only one loaded; no file is written,
      created or removed and nothing is sent to Slack;
    - when nothing failed and the transcript is empty, the analyzer is not
      called and the output says that no speech could be transcribed;
    - when nothing failed and the transcript is not empty, the analyzer is
      called once, with the given model and the rubric followed by the
      transcript; transcript and analysis are in the output;
    - when a stage failed, the output holds the message of the handler that
      took the exception. *)
Definition script_report (default_path prompt_head filename model_name : pystr)
    (s : state) (o : out unit) : Prop :=
  let l := evs o in
  let wav_file_path := Main.os_path_join default_path filename in
  let transcript := strip (join (lit " ") (recognized l)) in
  (res o = Ok tt /\ st o = s
   /\ hd_error (printed l)
      = Some (lit "Loading and analyzing audio file: " +++ wav_file_path)
   /\ loaded l = [wav_file_path]
   /\ writes l = [] /\ temp_files l = [] /\ unlinks l = []
   /\ says l = [] /\ reactions_at l = [])
  /\ (failures l = [] -> transcript = [] ->
      prompts_to l = []
      /\ In (lit "Error: No speech could be transcribed from the file.") (printed l))
  /\ (failures l = [] -> transcript <> [] ->
      prompts_to l = [(model_name, prompt_head +++ transcript)]
      /\ In transcript (printed l)
      /\ exists analysis, analyses l = [analysis] /\ In analysis (printed l))
  /\ (forall e, failures l = [e] ->
        (exn_class e = "FileNotFoundError"%string ->
         In (lit "Error: The file '" +++ filename +++ lit "' was not found in "
             +++ default_path +++ lit ".") (printed l))
        /\ (exn_class e <> "FileNotFoundError"%string ->
            Main.is_ImportError e = true ->
            In (lit "Error: The 'pydub' library is required. Please run: pip install pydub")
              (printed l))
        /\ (exn_class e <> "FileNotFoundError"%string ->
            Main.is_ImportError e = false ->
            In (lit "An unexpected error occurred: " +++ exn_str e) (printed l))).

(** A message of the fetched history holds a WAV URL. *)
Definition has_wav_url (msg : message) : bool :=
  match QaBot.extract_wav_urls (get (m_text msg) []) with
  | [] => false
  | _ :: _ => true
  end.

(** No glyph of the table occurs in the text. *)
Definition no_known_glyph (table : items) (text : pystr) : Prop :=
  forall glyph label, In (glyph, label) table -> ~ occurs_in glyph text.

(** What the startup replay leaves in the trace for a fetched list of
    messages: one run, on the first URL of the first message (in the order
    Slack returned them, newest first) that holds a URL; none when no
    message holds one. *)
Definition scan_report (messages : list message) (l : list event) : Prop :=
  match find has_wav_url messages with
  | Some msg =>
      (exists r, runs_started l = [r])
      /\ (fetched l = []
          \/ fetched l = [hd [] (QaBot.extract_wav_urls (get (m_text msg) []))])
  | None => runs_started l = [] /\ fetched l = []
  end.

(** What the listener of [qa_bot.py] does with one message: it never raises;
    a message from another channel than a configured one is ignored; a
    message without URL starts nothing; otherwise one run is started, on the
    first URL. *)
Definition qa_message_shape (cfg : QaBot.config) (event : message)
    (o : out unit) : Prop :=
  res o = Ok tt
  /\ match QaBot.extract_wav_urls (get (m_text event) []) with
     | first :: _ =>
         if truthy (QaBot.QA_CHANNEL_ID cfg)
            && negb (PyStr.eqb (get (m_channel event) []) (QaBot.QA_CHANNEL_ID cfg))
         then evs o = []
         else (exists r, runs_started (evs o) = [r])
              /\ (fetched (evs o) = [] \/ fetched (evs o) = [first])
     | [] => runs_started (evs o) = [] /\ fetched (evs o) = []
     end.

(** What the startup replay does: it never raises; it asks once for the
    history of the channel, with limit 20, and scans the answer. *)
Definition replay_shape (channel_id : pystr) (o : out unit) : Prop :=
  res o = Ok tt
  /\ exists r,
      histories (evs o) = [(channel_id, 20, r)]
      /\ match r with
         | Ok messages => scan_report messages (evs o)
         | Err _ => runs_started (evs o) = [] /\ fetched (evs o) = []
         end.

(** The scheme of a URL, as the patterns take it: [http] in any letter case,
    an optional [s] (or a character that [re.IGNORECASE] takes for one), and
    [://]. *)
Definition url_scheme (sch : pystr) : Prop :=
  exists h s,
    sch = h ++ s ++ lit "://" /\ map lower_ascii h = lit "http"
    /\ (s = [] \/ s = [0x73] \/ s = [0x53] \/ s = [0x17F]).

(** A WAV URL: a scheme, a body that is not empty and holds no [|] and no
    [>], and the extension [.wav] in any letter case. *)
Definition wav_url (u : pystr) : Prop :=
  exists sch body ext,
    u = sch ++ body ++ ext /\ url_scheme sch /\ body <> []
    /\ map lower_ascii ext = lit ".wav"
    /\ Forall (fun c => c <> 0x7C /\ c <> 0x3E) body.

(** A configured channel identifier that is honoured: it starts with the
    character [C] and is longer than 5 characters. *)
Definition honoured (raw : pystr) : Prop :=
  (exists rest, raw = 0x43 :: rest) /\ (5 < List.length raw)%nat.

(** The listener drops the message: a channel is configured and the message
    comes from another one. *)
Definition dropped (cfg : QaBot.config) (event : message) : bool :=
  truthy (QaBot.QA_CHANNEL_ID cfg)
  && negb (PyStr.eqb (get (m_channel event) []) (QaBot.QA_CHANNEL_ID cfg)).

(** The files written: the writes that succeeded. *)
Definition written : list event -> list (path * list N) :=
  pick (fun ev => match ev with WriteFile p data (Ok _) => Some (p, data) | _ => None end).

(** The clips loaded: file and clip of the loads that succeeded. *)
Definition loaded_clips : list event -> list (path * audio) :=
  pick (fun ev => match ev with FromWav p (Ok a) => Some (p, a) | _ => None end).

(** The run is under way: no stage has failed and the cleanup has not
    started. *)
Definition running (before : list event) : Prop :=
  failures before = [] /\ unlinks before = [].

(** What a run of [process_wav_url] must have done, in the events [before],
    for the event [ev] to come next. *)
Definition url_stage_ready (before : list event) (ev : event) : Prop :=
  match ev with
  | Log _ _ => True
  | MkTemp _ _ => running before /\ runs_started before = []
  | HttpGet _ _ _ _ =>
      running before /\ temp_files before <> [] /\ requests before = []
  | WriteFile p data _ =>
      running before /\ In p (temp_files before)
      /\ exists resp, In resp (responses before) /\ data = content resp
  | WhisperTranscribe p _ _ _ =>
      running before /\ exists data, In (p, data) (written before)
  | OllamaGenerate _ _ _ => running before /\ whispered before <> []
  | ReactionsAdd _ _ _ _ => running before /\ whispered before <> []
  | Say _ _ _ => running before /\ analyses before <> []
  | Unlink p _ => In p (temp_files before) /\ unlinks before = []
  | _ => False
  end.

(** The same for the loop body of [extra.py]. *)
Definition upload_stage_ready (before : list event) (ev : event) : Prop :=
  match ev with
  | Log _ _ => True
  | MkTemp _ _ => running before /\ runs_started before = []
  | HttpGet _ _ _ _ =>
      running before /\ temp_files before <> [] /\ requests before = []
  | WriteFile p data _ =>
      running before /\ In p (temp_files before)
      /\ exists resp, In resp (responses before) /\ data = content resp
  | FromWav p _ =>
      running before /\ exists data, In (p, data) (written before)
  | SplitOnSilence a _ _ _ _ =>
      running before /\ exists p, In (p, a) (loaded_clips before)
  | RecognizeGoogle _ _ => running before /\ splits before <> []
  | OllamaGenerate _ _ _ => running before /\ splits before <> []
  | ReactionsAdd _ _ _ _ | Say _ _ _ | Unlink _ _ => unlinks before = []
  | ReactionsRemove _ _ _ _ => True
  | _ => False
  end.

(** Every event of [l] was ready when it came, [before] being what happened
    before [l]. *)
Fixpoint staged (ready : list event -> event -> Prop) (before l : list event) : Prop :=
  match l with
  | [] => True
  | ev :: l' => ready before ev /\ staged ready (before ++ [ev]) l'
  end.

(** The temporary file of a run is still there when the body of the [try]
    ends: no file was created, or one was, its name is held by [tmp_path],
    a non-empty string, and the file exists. *)
Definition temp_file_kept {A} (o : out A) : Prop :=
  temp_files (evs o) = []
  \/ exists p, temp_files (evs o) = [p]
               /\ tmp_path (st o) = Some p /\ In p (files (st o))
               /\ truthy p = true.

(** ** Sample environments *)

Definition ok_response : response := Response 200 (lit "OK") [82; 73; 70; 70].

(** An outside world scripted by the answers of its services; Slack, the file
    system and the audio loader always succeed.  A chunk's answer is looked
    up by its [clip] number. *)
Definition scripted (http : result response) (whisper : result (option pystr))
    (chunks : list (result pystr)) (generate : result pystr)
    (say_answer : pystr -> result unit) : env :=
  Env (fun _ => Ok (lit "/tmp/tmpk3"))
      (fun _ _ _ => http)
      (fun _ _ _ => Ok tt)
      (fun _ _ => Ok tt)
      (fun _ _ => whisper)
      (fun _ _ => Ok (Audio 0 (-20)%float))
      (fun _ _ _ _ =>
         map (fun i => Audio (N.of_nat i) (-20)%float) (seq 0 (List.length chunks)))
      (fun _ chunk =>
         nth (N.to_nat (clip chunk)) chunks (Err (Exn "UnknownValueError" [])))
      (fun _ _ _ => generate)
      (fun _ _ _ _ => Ok tt)
      (fun _ _ _ _ => Ok tt)
      (fun _ text _ => say_answer text)
      (fun _ _ _ => Ok []).

Definition always_ok : pystr -> result unit := fun _ => Ok tt.

Definition empty_state : state := State [] None.

Definition qa_config (analyze_only : bool) : QaBot.config :=
  QaBot.Config (lit "xoxb-1") (lit "xapp-1") (lit "llama") [] (lit "base")
    analyze_only (lit "Rubric. TRANSCRIPT: ") (lit " YOUR GRADE:").

(** The URL bot restricted to [channel]. *)
Definition restricted_config (channel : pystr) : QaBot.config :=
  QaBot.Config (lit "xoxb-1") (lit "xapp-1") (lit "llama") channel (lit "base")
    true (lit "Rubric. TRANSCRIPT: ") (lit " YOUR GRADE:").

Definition extra_config : Extra.config :=
  Extra.Config (lit "xoxb-1") (lit "xapp-1") (lit "llama") [] (lit "Rubric. Dialogue: ").

Definition upload : file_info :=
  FileInfo (Some (lit "call.wav")) (Some (lit "audio/wav"))
    (Some (lit "https://files.example/call.wav")) None.

(** Everything succeeds: the recording says [transcript], the analysis is
    [analysis]. *)
Definition all_fine (transcript analysis : pystr) : env :=
  scripted (Ok ok_response) (Ok (Some transcript)) [Ok transcript] (Ok analysis)
    always_ok.

(** The download answers 404. *)
Definition not_found : env :=
  scripted (Ok (Response 404 (lit "Not Found") [])) (Ok None) [] (Ok []) always_ok.

(** Three chunks: the second one holds no recognizable speech. *)
Definition three_chunks : env :=
  scripted (Ok ok_response) (Ok None)
    [Ok (lit "hello"); Err (Exn "UnknownValueError" []); Ok (lit "world ")]
    (Ok []) always_ok.

Definition sample_url : pystr := lit "https://x.example/a.wav".
Definition sample_ts : pystr := lit "1700000000.000100".
Definition sample_channel : pystr := lit "C08S6HHRH8F".
Definition greeting : pystr := lit "thank you for calling, how can I help".

(** An analysis that holds no glyph of either table. *)
Definition plain_verdict : pystr := lit "The agent was polite. No grade.".

(** A message of [sample_channel] that holds two WAV URLs. *)
Definition two_urls : message :=
  Message (Some sample_channel) (Some (lit "U1"))
    (Some (lit "calls: https://x.example/a.wav and https://x.example/b.wav"))
    (Some sample_ts) None.

(** A message of another channel. *)
Definition elsewhere : message :=
  Message (Some (lit "C0OTHER99")) (Some (lit "U1"))
    (Some (lit "see https://x.example/a.wav")) (Some sample_ts) None.

(** A message without URL. *)
Definition chatter : message :=
  Message (Some sample_channel) (Some (lit "U2")) (Some (lit "good morning"))
    (Some (lit "1700000001.000200")) None.

(** Slack returns [messages] as the history of any channel. *)
Definition with_history (messages : list message) : env :=
  let en := all_fine greeting plain_verdict in
  Env (o_mktemp en) (o_http_get en) (o_write en) (o_unlink en) (o_whisper en)
      (o_from_wav en) (o_split_on_silence en) (o_recognize_google en) (o_generate en)
      (o_reactions_add en) (o_reactions_remove en) (o_say en)
      (fun _ _ _ => Ok messages).

(** The recording cannot be opened. *)
Definition missing_recording : env :=
  let en := all_fine greeting plain_verdict in
  Env (o_mktemp en) (o_http_get en) (o_write en) (o_unlink en) (o_whisper en)
      (fun _ p => Err (FileNotFoundError p))
      (o_split_on_silence en) (o_recognize_google en) (o_generate en)
      (o_reactions_add en) (o_reactions_remove en) (o_say en) (o_history en).

(** The second of three chunks cannot be sent to the recognizer. *)
Definition broken_line : env :=
  scripted (Ok ok_response) (Ok None)
    [Ok (lit "hello"); Err (Exn "RequestError" (lit "recognition connection failed"));
     Ok (lit "world")]
    (Ok []) always_ok.

(** [os.environ] with the two tokens and [QA_CHANNEL_ID] set to [raw]. *)
Definition environ_with (raw : pystr) (key : string) : option pystr :=
  if String.eqb key "SLACK_BOT_TOKEN" then Some (lit "xoxb-1")
  else if String.eqb key "SLACK_APP_TOKEN" then Some (lit "xapp-1")
  else if String.eqb key "QA_CHANNEL_ID" then Some raw
  else None.

(** * Properties *)

(** ** Reasoning about runs *)

Lemma wp_bind {A B} (m : M A) (k : A -> M B) h s Q :
  wp m h s (fun o1 =>
    match res o1 with
    | Ok a => wp (k a) (h ++ evs o1) (st o1)
                (fun o2 => Q (Out (res o2) (evs o1 ++ evs o2) (st o2)))
    | Err e => Q (Out (Err e) (evs o1) (st o1))
    end) ->
  wp (bind m k) h s Q.
Proof. unfold wp, bind, andthen. destruct (res (m h s)); auto. Qed.

Lemma wp_try_except {A} (m : M A) (k : exn -> M A) h s Q :
  wp m h s (fun o1 =>
    match res o1 with
    | Ok a => Q (Out (Ok a) (evs o1) (st o1))
    | Err e => wp (k e) (h ++ evs o1) (st o1)
                (fun o2 => Q (Out (res o2) (evs o1 ++ evs o2) (st o2)))
    end) ->
  wp (try_except m k) h s Q.
Proof.
  unfold wp, try_except, andthen. destruct (m h s) as [r e s']. simpl.
  destruct r; auto.
Qed.

Lemma wp_try_finally {A} (m : M A) (c : M unit) h s Q :
  wp m h s (fun o1 =>
    wp c (h ++ evs o1) (st o1)
      (fun o2 => Q (Out (match res o2 with Ok _ => res o1 | Err e => Err e end)
                        (evs o1 ++ evs o2) (st o2)))) ->
  wp (try_finally m c) h s Q.
Proof. unfold wp, try_finally. auto. Qed.

Lemma wp_except_unknown {A} (m : M A) (k : M A) h s Q :
  wp m h s (fun o1 =>
    match res o1 with
    | Ok a => Q (Out (Ok a) (evs o1) (st o1))
    | Err e =>
        if String.eqb (exn_class e) "UnknownValueError"
        then wp k (h ++ evs o1) (st o1)
               (fun o2 => Q (Out (res o2) (evs o1 ++ evs o2) (st o2)))
        else Q (Out (Err e) (evs o1) (st o1))
    end) ->
  wp (except_UnknownValueError m k) h s Q.
Proof.
  unfold wp, except_UnknownValueError, andthen. destruct (m h s) as [r e s']. simpl.
  destruct r as [a|x]; auto. destruct (String.eqb (exn_class x) "UnknownValueError"); auto.
Qed.

Lemma wp_mono {A} (m : M A) h s (Q Q' : out A -> Prop) :
  wp m h s Q -> (forall o, Q o -> Q' o) -> wp m h s Q'.
Proof. unfold wp. auto. Qed.

Lemma pick_app {A} (f : event -> option A) (l1 l2 : list event) :
  pick f (l1 ++ l2) = pick f l1 ++ pick f l2.
Proof.
  induction l1 as [|ev l1 IH]; simpl; [reflexivity|].
  destruct (f ev); simpl; now rewrite IH.
Qed.

Lemma pick_none {A} (f : event -> option A) (l : list event) :
  Forall (fun ev => f ev = None) l -> pick f l = [].
Proof.
  induction 1 as [|ev l Hev _ IH]; simpl; [reflexivity|]. now rewrite Hev.
Qed.

Lemma wp_ret {A} (a : A) h s (Q : out A -> Prop) :
  Q (Out (Ok a) [] s) -> wp (ret a) h s Q.
Proof. auto. Qed.

Lemma wp_raise {A} (e : exn) h s (Q : out A -> Prop) :
  Q (Out (Err e) [] s) -> wp (raise e) h s Q.
Proof. auto. Qed.

Lemma wp_emit (ev : event) h s (Q : out unit -> Prop) :
  Q (Out (Ok tt) [ev] s) -> wp (emit ev) h s Q.
Proof. auto. Qed.

Lemma wp_call {A} (oracle : list event -> result A) (mk : result A -> event)
    h s (Q : out A -> Prop) :
  (forall r, oracle h = r -> Q (Out r [mk r] s)) -> wp (call oracle mk) h s Q.
Proof. unfold wp, call. auto. Qed.

Lemma wp_set_tmp_path (p : option path) h s (Q : out unit -> Prop) :
  Q (Out (Ok tt) [] (State (files s) p)) -> wp (set_tmp_path p) h s Q.
Proof. auto. Qed.

Lemma wp_get_tmp_path h s (Q : out (option path) -> Prop) :
  Q (Out (Ok (tmp_path s)) [] s) -> wp get_tmp_path h s Q.
Proof. auto. Qed.

Lemma wp_create_file (p : path) h s (Q : out unit -> Prop) :
  Q (Out (Ok tt) [] (State (p :: files s) (tmp_path s))) -> wp (create_file p) h s Q.
Proof. auto. Qed.

Lemma wp_remove_file (p : path) h s (Q : out unit -> Prop) :
  Q (Out (Ok tt) [] (State (remove (list_eq_dec N.eq_dec) p (files s)) (tmp_path s))) ->
  wp (remove_file p) h s Q.
Proof. auto. Qed.

Lemma wp_file_exists (p : path) h s (Q : out bool -> Prop) :
  (forall b, Q (Out (Ok b) [] s)) -> wp (file_exists p) h s Q.
Proof. unfold wp, file_exists. auto. Qed.

(** One step of symbolic execution of a run. *)
Ltac wp_unfold f :=
  lazymatch goal with
  | |- wp ?m ?h ?s ?Q => let m' := eval unfold f in m in change (wp m' h s Q)
  end.

Ltac wp_open :=
  lazymatch goal with
  | |- wp (logger _ _) _ _ _ => wp_unfold logger
  | |- wp (logger_exception _) _ _ _ => wp_unfold logger_exception
  | |- wp (print _) _ _ _ => wp_unfold print
  | |- wp (NamedTemporaryFile _ _) _ _ _ => wp_unfold NamedTemporaryFile
  | |- wp (os_unlink _ _) _ _ _ => wp_unfold os_unlink
  | |- wp (write_file _ _ _) _ _ _ => wp_unfold write_file
  | |- wp (requests_get _ _ _ _) _ _ _ => wp_unfold requests_get
  | |- wp (raise_for_status _ _) _ _ _ => wp_unfold raise_for_status
  | |- wp (ollama_generate _ _ _) _ _ _ => wp_unfold ollama_generate
  | |- wp (reactions_add _ _ _ _) _ _ _ => wp_unfold reactions_add
  | |- wp (reactions_remove _ _ _ _) _ _ _ => wp_unfold reactions_remove
  | |- wp (slack_say _ _ _) _ _ _ => wp_unfold slack_say
  | |- wp (AudioSegment_from_wav _ _) _ _ _ => wp_unfold AudioSegment_from_wav
  | |- wp (split_on_silence _ _ _ _ _) _ _ _ => wp_unfold split_on_silence
  | |- wp (recognize_google _ _) _ _ _ => wp_unfold recognize_google
  | |- wp (swallow _) _ _ _ => wp_unfold swallow
  end.

Ltac wp_red := cbn [res evs st app map_result tmp_path files].

Ltac wp_step :=
  lazymatch goal with
  | |- wp (bind _ _) _ _ _ => apply wp_bind
  | |- wp (try_except _ _) _ _ _ => apply wp_try_except
  | |- wp (try_finally _ _) _ _ _ => apply wp_try_finally
  | |- wp (except_UnknownValueError _ _) _ _ _ => apply wp_except_unknown
  | |- wp (call _ _) _ _ _ =>
      apply wp_call;
      let r := fresh "r" in let E := fresh "E" in
      intros r E; destruct r as [r|r];
      try match goal with u : unit |- _ => destruct u end; wp_red
  | |- wp (ret _) _ _ _ => apply wp_ret; wp_red
  | |- wp (raise _) _ _ _ => apply wp_raise; wp_red
  | |- wp (emit _) _ _ _ => apply wp_emit; wp_red
  | |- wp (set_tmp_path _) _ _ _ => apply wp_set_tmp_path; wp_red
  | |- wp get_tmp_path _ _ _ => apply wp_get_tmp_path; wp_red
  | |- wp (create_file _) _ _ _ => apply wp_create_file; wp_red
  | |- wp (remove_file _) _ _ _ => apply wp_remove_file; wp_red
  | |- wp (file_exists _) _ _ _ =>
      apply wp_file_exists; let b := fresh "present" in intros b; wp_red
  | |- wp (if ?b then _ else _) _ _ _ => let E := fresh "E" in destruct b eqn:E
  | |- wp (match ?x with _ => _ end) _ _ _ => let E := fresh "E" in destruct x eqn:E
  | |- wp (let _ := _ in _) _ _ _ => cbv zeta
  | |- _ => wp_open
  end.

(** Turn a goal about [m h s] into a [wp] goal. *)
Ltac wp_start m h s :=
  pattern (m h s);
  lazymatch goal with |- ?Q _ => change (wp m h s Q) end.

(** ** Loops and blocks *)

Lemma wp_react_loop (body : pystr -> M unit) (en : env) (channel ts : pystr)
    (ok_msg : pystr -> pystr) (ko_msg : pystr -> exn -> pystr) :
  (forall name, body name =
     try_except (reactions_add en channel name ts ;; logger INFO (ok_msg name))
                (fun e => logger WARNING (ko_msg name e))) ->
  forall names h s (Q : out unit -> Prop),
    (forall evs', reactions_added evs' = names -> Forall reaction_event evs' ->
                  Q (Out (Ok tt) evs' s)) ->
    wp (for_each names body) h s Q.
Proof.
  intros Hbody names. induction names as [|name names IH]; intros h s Q HQ; cbn [for_each].
  - wp_step. apply HQ; constructor.
  - wp_step. rewrite Hbody. repeat wp_step;
      (apply IH; intros evs' Hn Hk; cbn [app]; apply HQ;
       [ cbn; now rewrite Hn
       | repeat constructor; [discriminate | assumption] ]).
Qed.

Lemma wp_qa_react_all en channel ts names h s (Q : out unit -> Prop) :
  (forall evs', reactions_added evs' = names -> Forall reaction_event evs' ->
                Q (Out (Ok tt) evs' s)) ->
  wp (QaBot.react_all en channel ts names) h s Q.
Proof.
  unfold QaBot.react_all. eapply wp_react_loop. intros name. reflexivity.
Qed.

Lemma wp_extra_react_all en channel ts names h s (Q : out unit -> Prop) :
  (forall evs', reactions_added evs' = names -> Forall reaction_event evs' ->
                Q (Out (Ok tt) evs' s)) ->
  wp (Extra.react_all en channel ts names) h s Q.
Proof.
  unfold Extra.react_all. eapply wp_react_loop. intros name. reflexivity.
Qed.

Lemma wp_extra_recognize_chunks en (chunks : list audio) :
  forall total i parts h s (Q : out (list pystr) -> Prop),
    (forall l r, chunk_report chunks r l ->
                 Q (Out (map_result (fun texts => parts ++ texts) r) l s)) ->
    wp (Extra.recognize_chunks en total i chunks parts) h s Q.
Proof.
  induction chunks as [|chunk chunks IH]; intros total i parts h s Q HQ;
    cbn [Extra.recognize_chunks].
  - wp_step. specialize (HQ [] (Ok [])). cbn in HQ. rewrite app_nil_r in HQ.
    apply HQ. repeat split; constructor.
  - repeat wp_step.
    + apply IH. intros l r' (Hk & Hs & Hr). cbn [app].
      specialize (HQ (RecognizeGoogle chunk (Ok r) :: Log INFO
         (lit "  Chunk " +++ of_N (i + 1) +++ lit "/" +++ of_N (N.of_nat total) +++ lit ": "
          +++ upto 60 r +++ lit "...") :: l)
         (map_result (fun texts => r :: texts) r')).
      destruct r' as [texts|e]; cbn in HQ |- *.
      * rewrite <- app_assoc. apply HQ.
        destruct Hr as (-> & Hf & Hc).
        repeat split; cbn; try congruence.
        repeat constructor; [discriminate | assumption].
      * apply HQ. repeat split; cbn; try assumption.
        repeat constructor; [discriminate | assumption].
    + destruct (String.eqb (exn_class r) "UnknownValueError") eqn:Ecls.
      * repeat wp_step. apply IH. intros l r' (Hk & Hs & Hr). cbn [app].
        specialize (HQ (RecognizeGoogle chunk (Err r) :: Log DEBUG
           (lit "  Chunk " +++ of_N (i + 1) +++ lit ": (unintelligible, skipped)") :: l) r').
        apply HQ. repeat split; cbn; try assumption.
        -- repeat constructor; [discriminate | assumption].
        -- destruct r'; unfold failures in *; cbn; rewrite Ecls; [|assumption].
           destruct Hr as (-> & Hf & Hc). repeat split; cbn; congruence.
      * specialize (HQ [RecognizeGoogle chunk (Err r)] (Err r)). apply HQ.
        repeat split; cbn; try reflexivity.
        -- repeat constructor.
        -- unfold failures. cbn. now rewrite Ecls.
Qed.

Lemma wp_unlink_swallowed en (p : path) h s (Q : out unit -> Prop) :
  (forall r fs, (r = Ok tt -> ~ In p fs) ->
                Q (Out (Ok tt) [Unlink p r] (State fs (tmp_path s)))) ->
  wp (swallow (os_unlink en p)) h s Q.
Proof.
  destruct s as [fs tp]. intros HQ. repeat wp_step; apply HQ; try discriminate.
  intros _. apply remove_In.
Qed.

Lemma wp_reaction_swallowed en (channel name ts : pystr) h s (Q : out unit -> Prop) :
  (forall r, Q (Out (Ok tt) [ReactionsAdd channel name ts r] s)) ->
  wp (swallow (reactions_add en channel name ts)) h s Q.
Proof. intros HQ. repeat wp_step; apply HQ. Qed.

Ltac kind_tac Hk :=
  eapply Forall_impl; [|exact Hk];
  let ev := fresh "ev" in let Hev := fresh "Hev" in
  intros ev Hev; destruct ev; cbn in Hev |- *;
  try contradiction; try reflexivity;
  repeat match goal with
         | |- context [match ?l with _ => _ end] => destruct l
         end;
  try reflexivity; try contradiction; try congruence.

Ltac kind_list :=
  repeat (apply Forall_cons; [cbn; first [exact I | discriminate]|]);
  rewrite ?app_nil_r; first [assumption | apply Forall_nil].

Ltac unfold_picks :=
  unfold says, reactions_added, generated, unlinks, temp_files, whispered,
    fetched, errors_logged, recognized, failures, splits, recognize_calls,
    analyses, runs_started, histories in *.

Ltac quiet_tac Hk :=
  unfold_picks; repeat split; apply pick_none; kind_tac Hk.

(** What the events of a reaction loop, of a download and of a chunked
    transcription cannot contain. *)
Lemma reaction_events_quiet (l : list event) :
  Forall reaction_event l ->
  says l = [] /\ generated l = [] /\ unlinks l = [] /\ temp_files l = []
  /\ whispered l = [] /\ errors_logged l = [] /\ analyses l = []
  /\ runs_started l = [] /\ fetched l = [] /\ recognized l = []
  /\ failures l = [] /\ splits l = [] /\ recognize_calls l = []
  /\ histories l = [].
Proof. intros Hk. quiet_tac Hk. Qed.

Lemma download_events_quiet (l : list event) :
  Forall download_event l ->
  says l = [] /\ generated l = [] /\ unlinks l = [] /\ temp_files l = []
  /\ whispered l = [] /\ errors_logged l = [] /\ analyses l = []
  /\ runs_started l = [] /\ reactions_added l = [] /\ recognized l = []
  /\ splits l = [] /\ recognize_calls l = [] /\ histories l = [].
Proof. intros Hk. quiet_tac Hk. Qed.

Lemma recognition_events_quiet (l : list event) :
  Forall recognition_event l ->
  says l = [] /\ generated l = [] /\ unlinks l = [] /\ temp_files l = []
  /\ whispered l = [] /\ errors_logged l = [] /\ analyses l = []
  /\ runs_started l = [] /\ reactions_added l = [] /\ fetched l = []
  /\ histories l = [].
Proof. intros Hk. quiet_tac Hk. Qed.

(** Record what a segment of the trace cannot contain. *)
Ltac quiet Hk :=
  let Hq := fresh "Hq" in
  first [ pose proof (reaction_events_quiet Hk) as Hq
        | pose proof (download_events_quiet Hk) as Hq
        | pose proof (recognition_events_quiet Hk) as Hq ];
  unfold says, reactions_added, generated, unlinks, temp_files, whispered,
    fetched, errors_logged, recognized, failures, splits, recognize_calls,
    analyses, runs_started, histories in Hq;
  decompose [and] Hq; clear Hq.

Ltac simpl_picks :=
  unfold_picks;
  repeat first
    [ progress cbn [pick app stage_failure map_result]
    | rewrite pick_app
    | rewrite app_nil_r
    | match goal with
      | H : ?b = _ |- context [if ?b then _ else _] => rewrite H
      | H : pick ?f ?l = _ |- context [pick ?f ?l] => rewrite H
      end ].

(** At the end of a path the goal is [P (Out r E st)] with [P] folded:
    compute every reading of the trace [E] once, then open [P]. *)
Ltac digest_one f Ev Htrace :=
  let H := fresh "Hd" in
  eassert (H : f Ev = _) by (rewrite Htrace; simpl_picks; reflexivity).

Ltac digest :=
  lazymatch goal with
  | |- _ (Out _ ?E _) =>
      let Ev := fresh "trace" in
      let Htrace := fresh "Htrace" in
      remember E as Ev eqn:Htrace;
      digest_one says Ev Htrace; digest_one reactions_added Ev Htrace;
      digest_one generated Ev Htrace; digest_one unlinks Ev Htrace;
      digest_one temp_files Ev Htrace; digest_one whispered Ev Htrace;
      digest_one fetched Ev Htrace; digest_one errors_logged Ev Htrace;
      digest_one recognized Ev Htrace; digest_one failures Ev Htrace;
      digest_one analyses Ev Htrace; digest_one runs_started Ev Htrace;
      digest_one histories Ev Htrace;
      clear Htrace
  end.

Ltac use_digest :=
  cbn [res evs st];
  unfold_picks;
  repeat match goal with
         | H : pick ?f ?l = _ |- context [pick ?f ?l] => rewrite H
         | H : ?b = _ |- context [if ?b then _ else _] => rewrite H
         end.

Ltac wp_known :=
  lazymatch goal with
  | |- wp (swallow (os_unlink _ _)) _ _ _ => apply wp_unlink_swallowed; intros ? ? ?
  | |- wp (swallow (reactions_add _ _ _ _)) _ _ _ =>
      apply wp_reaction_swallowed; intros ?
  | |- wp (QaBot.react_all _ _ _ _) _ _ _ =>
      apply wp_qa_react_all;
      let Hk := fresh "Hk" in intros ? ? Hk; quiet Hk; clear Hk
  | |- wp (Extra.react_all _ _ _ _) _ _ _ =>
      apply wp_extra_react_all;
      let Hk := fresh "Hk" in intros ? ? Hk; quiet Hk; clear Hk
  end; wp_red.

Ltac wp_run := repeat first [ wp_known | wp_step ].

Lemma truthy_temp (stem : pystr) : truthy (stem ++ lit ".wav") = true.
Proof. destruct stem; reflexivity. Qed.


(** ** Strings *)

Lemma startswith_spec (p s : pystr) :
  startswith p s = true <-> exists post, s = p ++ post.
Proof.
  revert s; induction p as [|a p IH]; intros s; simpl.
  - split; [intros _; now exists s | reflexivity].
  - destruct s as [|b s]; simpl.
    + split; [discriminate | intros [post H]; discriminate].
    + rewrite andb_true_iff, N.eqb_eq, IH. split.
      * intros [-> [post ->]]. now exists post.
      * intros [post H]. injection H as -> ->. split; [reflexivity | now exists post].
Qed.

Lemma contains_spec (g text : pystr) :
  contains g text = true <-> occurs_in g text.
Proof.
  unfold occurs_in. induction text as [|c text IH].
  - simpl. rewrite orb_false_r, startswith_spec. split.
    + intros [post H]. now exists [], post.
    + intros [pre [post H]]. destruct pre; simpl in H.
      * now exists post.
      * discriminate.
  - cbn [contains]. rewrite orb_true_iff, startswith_spec, IH. split.
    + intros [[post H] | [pre [post H]]].
      * now exists [], post.
      * exists (c :: pre), post. simpl. now rewrite H.
    + intros [pre [post H]]. destruct pre as [|c' pre]; simpl in H.
      * left. now exists post.
      * right. injection H as _ H. now exists pre, post.
Qed.

Lemma lstrip_app_space (x : pystr) (c : N) :
  isspace c = true ->
  (lstrip (x ++ [c]) = lstrip x ++ [c] /\ lstrip x <> [])
  \/ (lstrip (x ++ [c]) = [] /\ lstrip x = []).
Proof.
  intros Hc. induction x as [|a x IH]; simpl.
  - right. now rewrite Hc.
  - destruct (isspace a); [assumption|]. left. split; [reflexivity | discriminate].
Qed.

Lemma rstrip_app_space (y : pystr) (c : N) :
  isspace c = true -> rstrip (y ++ [c]) = rstrip y.
Proof.
  intros Hc. unfold rstrip. rewrite rev_app_distr. simpl. now rewrite Hc.
Qed.

Lemma strip_app_space (x : pystr) (c : N) :
  isspace c = true -> strip (x ++ [c]) = strip x.
Proof.
  intros Hc. unfold strip.
  destruct (@lstrip_app_space x c Hc) as [[-> _] | [-> ->]].
  - now apply rstrip_app_space.
  - reflexivity.
Qed.

Lemma lstrip_idem (x : pystr) : lstrip (lstrip x) = lstrip x.
Proof.
  induction x as [|a x IH]; simpl; [reflexivity|].
  destruct (isspace a) eqn:Ha; [assumption|]. simpl. now rewrite Ha.
Qed.

Lemma lstrip_keeps (w : pystr) (c : N) :
  isspace c = false -> exists z, lstrip (w ++ [c]) = z ++ [c].
Proof.
  intros Hc. induction w as [|a w IH]; simpl.
  - rewrite Hc. now exists [].
  - destruct (isspace a); [assumption|]. now exists (a :: w).
Qed.

Lemma lstrip_fixed (y : pystr) :
  match y with [] => True | c :: _ => isspace c = false end -> lstrip y = y.
Proof. destruct y as [|c y]; simpl; [reflexivity|]. now intros ->. Qed.

Lemma lstrip_rstrip_lstrip (x : pystr) :
  lstrip (rstrip (lstrip x)) = rstrip (lstrip x).
Proof.
  apply lstrip_fixed. unfold rstrip.
  destruct (lstrip x) as [|c y] eqn:E; [exact I|].
  assert (isspace c = false) as Hc.
  { clear - E. induction x as [|a x IH]; simpl in E; [discriminate|].
    destruct (isspace a) eqn:Ha; [auto|]. now injection E as <- _. }
  simpl. destruct (@lstrip_keeps (rev y) c Hc) as [z ->].
  rewrite rev_app_distr. simpl. assumption.
Qed.

(** Stripping a stripped string changes nothing. *)
Lemma strip_idem (x : pystr) : strip (strip x) = strip x.
Proof.
  unfold strip at 1 2. rewrite lstrip_rstrip_lstrip.
  unfold rstrip. now rewrite rev_involutive, lstrip_idem.
Qed.

(** Appending [text + sep] chunk by chunk gives the joined texts and one
    more separator. *)
Lemma concat_with_sep (sep : pystr) (texts : list pystr) :
  List.concat (map (fun t => t ++ sep) texts)
  = match texts with [] => [] | _ => join sep texts ++ sep end.
Proof.
  induction texts as [|t texts IH]; [reflexivity|].
  cbn [map List.concat]. rewrite IH. destruct texts as [|t' texts]; cbn [join].
  - now rewrite app_nil_r.
  - now rewrite <- !app_assoc.
Qed.

Lemma strip_concat_spaces (texts : list pystr) :
  strip (List.concat (map (fun t => t ++ lit " ") texts)) = strip (join (lit " ") texts).
Proof.
  rewrite concat_with_sep. destruct texts as [|t texts]; [reflexivity|].
  apply (@strip_app_space (join (lit " ") (t :: texts)) 32). reflexivity.
Qed.

(** ** The grade extractor *)

Lemma grade_loop_acc (table : items) (analysis : pystr) (found : list pystr) :
  fold_left
    (fun found kv => if contains (fst kv) analysis then found ++ [snd kv] else found)
    table found
  = found ++ map snd (filter (fun kv => contains (fst kv) analysis) table).
Proof.
  revert found; induction table as [|kv table IH]; intros found; simpl.
  - now rewrite app_nil_r.
  - rewrite IH. destruct (contains (fst kv) analysis); simpl.
    + now rewrite <- app_assoc.
    + reflexivity.
Qed.

Lemma grade_loop_filter (table : items) (analysis : pystr) :
  grade_loop table analysis
  = map snd (filter (fun kv => contains (fst kv) analysis) table).
Proof. unfold grade_loop. now rewrite grade_loop_acc. Qed.

Lemma NoDup_map_snd_filter {A B} (f : A * B -> bool) (l : list (A * B)) :
  NoDup (map snd l) -> NoDup (map snd (filter f l)).
Proof.
  induction l as [|x l IH]; simpl; intros H.
  - constructor.
  - inversion H as [|? ? Hx Hl]; subst. destruct (f x); simpl.
    + constructor; [|now apply IH].
      intros Hin. apply Hx. apply in_map_iff in Hin as [y [Hy Hin]].
      apply filter_In in Hin as [Hin _]. apply in_map_iff. now exists y.
    + now apply IH.
Qed.

Lemma grade_loop_glyph_set (table : items) :
  NoDup (map snd table) -> glyph_set_of table (grade_loop table).
Proof.
  intros Hnd text. rewrite grade_loop_filter. split.
  - intros label. rewrite in_map_iff. split.
    + intros [[g l] [Hl Hin]]. simpl in Hl; subst l.
      apply filter_In in Hin as [Hin Hc]. exists g. split; [assumption|].
      now apply contains_spec.
    + intros [g [Hin Hocc]]. exists (g, label). split; [reflexivity|].
      apply filter_In. split; [assumption|]. now apply contains_spec.
  - now apply NoDup_map_snd_filter.
Qed.

Lemma NoDup_by_eqb (l : list pystr) :
  (fix distinct (l : list pystr) : bool :=
     match l with
     | [] => true
     | x :: r => negb (existsb (PyStr.eqb x) r) && distinct r
     end) l = true ->
  NoDup l.
Proof.
  induction l as [|x l IH]; intros H.
  - constructor.
  - apply andb_true_iff in H as [Hx Hl]. constructor; [|now apply IH].
    intros Hin. apply negb_true_iff in Hx.
    assert (existsb (PyStr.eqb x) l = true) as Hex.
    { apply existsb_exists. exists x. split; [assumption|].
      unfold PyStr.eqb. destruct (list_eq_dec N.eq_dec x x); congruence. }
    congruence.
Qed.

(** C1: on both tables the grade extractor returns exactly the labels
    of the glyphs that occur in the analysis text as substrings, each label
    once however often its glyph occurs; glyphs that do not occur contribute
    nothing.  (Being a function, it gives equal output on equal input.) *)
Theorem extract_grade_emojis_glyph_set :
  glyph_set_of QaBot.GRADE_EMOJI_MAP QaBot.extract_grade_emojis
  /\ glyph_set_of Extra.GRADE_EMOJI_MAP Extra.extract_grade_emojis.
Proof.
  split; apply grade_loop_glyph_set; apply NoDup_by_eqb; vm_compute; reflexivity.
Qed.

(** ** Regular expressions *)

Lemma plus_loop_sound {R} (a : Re.atom) (s : pystr) (k : pystr -> option R) (x : R) :
  Re.plus_loop a s k = Some x ->
  exists w s', s = w ++ s' /\ k s' = Some x
               /\ w <> [] /\ Forall (fun c => Re.atom_match a c = true) w.
Proof.
  induction s as [|c s IH]; simpl; [discriminate|].
  destruct (Re.atom_match a c) eqn:Hc; [|discriminate].
  destruct (Re.plus_loop a s k) as [y|] eqn:Hl.
  - intros Hx; injection Hx as ->.
    destruct (IH eq_refl) as (w & s' & -> & Hk & _ & Hall).
    exists (c :: w), s'. repeat split; try assumption; [discriminate | now constructor].
  - intros Hk. exists [c], s. repeat split; try assumption; [discriminate|].
    constructor; [assumption | constructor].
Qed.

Lemma rmatch_sound {R} (r : Re.regex) :
  forall (s : pystr) (g : option pystr) (k : pystr -> option pystr -> option R) (x : R),
    Re.rmatch r s g k = Some x ->
    exists w s' g', s = w ++ s' /\ k s' g' = Some x /\ lang r w.
Proof.
  induction r as [a | r1 IH1 r2 IH2 | r1 IH1 | a | r1 IH1]; intros s g k x; simpl.
  - destruct s as [|c s]; [discriminate|].
    destruct (Re.atom_match a c) eqn:Hc; [|discriminate].
    intros Hk. exists [c], s, g. repeat split; try assumption. now exists c.
  - intros H. apply IH1 in H as (w1 & s1 & g1 & -> & H & Hw1).
    apply IH2 in H as (w2 & s2 & g2 & -> & H & Hw2).
    exists (w1 ++ w2), s2, g2. rewrite <- app_assoc. repeat split; try assumption.
    now exists w1, w2.
  - destruct (Re.rmatch r1 s g k) as [y|] eqn:Hm.
    + intros Hx; injection Hx as ->.
      apply IH1 in Hm as (w & s' & g' & -> & H & Hw).
      exists w, s', g'. repeat split; try assumption. now right.
    + intros Hk. exists [], s, g. repeat split; try assumption. now left.
  - intros H. apply plus_loop_sound in H as (w & s' & -> & Hk & Hne & Hall).
    exists w, s', g. repeat split; assumption.
  - intros H. apply IH1 in H as (w & s' & g' & -> & H & Hw).
    eexists w, s', _. repeat split; eassumption.
Qed.

Lemma match_at_sound (r : Re.regex) (s rest : pystr) (g : option pystr) :
  Re.match_at r s = Some (rest, g) -> exists w, s = w ++ rest /\ lang r w.
Proof.
  unfold Re.match_at. intros H.
  apply rmatch_sound in H as (w & s' & g' & -> & H & Hw).
  injection H as -> _. now exists w.
Qed.

(** A non-empty [findall] means the pattern matched at some position. *)
Lemma findall_from_nonempty (r : Re.regex) (s : pystr) (skip : nat) :
  Re.findall_from r s skip <> [] ->
  exists pre w post, s = pre ++ w ++ post /\ lang r w.
Proof.
  revert skip; induction s as [|c s IH]; intros skip; simpl.
  - destruct skip; [|congruence].
    destruct (Re.match_at r []) as [[rest g]|] eqn:Hm; [|congruence].
    intros _. apply match_at_sound in Hm as (w & Hs & Hw).
    exists [], w, rest. now split.
  - destruct skip as [|n].
    + destruct (Re.match_at r (c :: s)) as [[rest g]|] eqn:Hm.
      * intros _. apply match_at_sound in Hm as (w & Hs & Hw).
        exists [], w, rest. now split.
      * intros H. apply IH in H as (pre & w & post & -> & Hw).
        exists (c :: pre), w, post. now split.
    + intros H. apply IH in H as (pre & w & post & -> & Hw).
      exists (c :: pre), w, post. now split.
Qed.

Lemma lit_match_plain (c x : N) :
  Re.lit_match c x = true ->
  lower_ascii c <> 0x73 -> lower_ascii c <> 0x6B -> lower_ascii c <> 0x69 ->
  lower_ascii x = lower_ascii c.
Proof.
  unfold Re.lit_match. intros H Hs Hk Hi.
  apply N.eqb_neq in Hs, Hk, Hi. rewrite Hs, Hk, Hi in H. simpl in H.
  rewrite !orb_false_r in H. now apply N.eqb_eq.
Qed.

Lemma lang_dot_wav (w : pystr) :
  lang (Re.word (lit ".wav")) w -> map lower_ascii w = lit ".wav".
Proof.
  cbn. intros (w1 & w2 & -> & (d & -> & Hd) & (w3 & w4 & -> & (x & -> & Hx)
                 & (w5 & w6 & -> & (y & -> & Hy) & (z & -> & Hz)))).
  cbn. apply lit_match_plain in Hd, Hx, Hy, Hz; try (vm_compute; discriminate).
  rewrite Hd, Hx, Hy, Hz. reflexivity.
Qed.

Lemma lang_wav_url_occurs (w : pystr) :
  lang QaBot.WAV_URL_PATTERN w -> occurs_ci (lit ".wav") w.
Proof.
  unfold QaBot.WAV_URL_PATTERN. cbn [lang].
  intros (w1 & w2 & -> & _ & (w3 & w4 & -> & _ & H)).
  apply lang_dot_wav in H. exists (w1 ++ w3), w4, [].
  rewrite app_nil_r, <- app_assoc. now split.
Qed.

Lemma lang_slack_link_occurs (w : pystr) :
  lang QaBot.SLACK_LINK_PATTERN w -> occurs_ci (lit ".wav") w.
Proof.
  unfold QaBot.SLACK_LINK_PATTERN. cbn [lang].
  intros (w0 & w' & -> & _ & (wg & wc & -> & (w1 & w2 & -> & _ & (w3 & w4 & -> & _ & H)) & _)).
  apply lang_dot_wav in H. exists (w0 ++ w1 ++ w3), w4, wc.
  rewrite <- !app_assoc. now split.
Qed.

Lemma occurs_ci_inside (w pre mid post : pystr) :
  occurs_ci w mid -> occurs_ci w (pre ++ mid ++ post).
Proof.
  intros (a & m & b & -> & Hm). exists (pre ++ a), m, (b ++ post).
  rewrite <- !app_assoc. now split.
Qed.

Lemma findall_without_wav (text : pystr) :
  ~ occurs_ci (lit ".wav") text ->
  Re.findall QaBot.SLACK_LINK_PATTERN text = []
  /\ Re.findall QaBot.WAV_URL_PATTERN text = [].
Proof.
  intros Hno. unfold Re.findall. split.
  - destruct (Re.findall_from QaBot.SLACK_LINK_PATTERN text 0) eqn:E; [reflexivity|].
    exfalso. apply Hno.
    destruct (@findall_from_nonempty QaBot.SLACK_LINK_PATTERN text 0) as (pre & w & post & -> & Hw).
    { rewrite E. discriminate. }
    apply occurs_ci_inside. now apply lang_slack_link_occurs.
  - destruct (Re.findall_from QaBot.WAV_URL_PATTERN text 0) eqn:E; [reflexivity|].
    exfalso. apply Hno.
    destruct (@findall_from_nonempty QaBot.WAV_URL_PATTERN text 0) as (pre & w & post & -> & Hw).
    { rewrite E. discriminate. }
    apply occurs_ci_inside. now apply lang_wav_url_occurs.
Qed.

(** C5 as stated fails on its last part: a text with the extension in capitals
    holds no [.wav] substring, yet its URL is extracted (the patterns are
    compiled with [re.IGNORECASE]). *)
Lemma extract_wav_urls_capital_extension :
  ~ (forall text : pystr,
        ~ occurs_in (lit ".wav") text -> QaBot.extract_wav_urls text = []).
Proof.
  intros H. specialize (H (lit "http://a.WAV")).
  assert (QaBot.extract_wav_urls (lit "http://a.WAV") = [lit "http://a.WAV"]) as E
    by (vm_compute; reflexivity).
  rewrite E in H. discriminate H.
  intros Hocc. apply contains_spec in Hocc. vm_compute in Hocc. discriminate.
Qed.

(** C5, amended: the two example texts give exactly the expected URL; when
    the markup-wrapped form is found, its URLs are the result and bare URLs
    are not looked for; and a text in which [.wav] does not occur in any
    letter case gives the empty list. *)
Theorem extract_wav_urls_spec :
  QaBot.extract_wav_urls
    (lit "Check this call <https://x.example/call123.wav|recording.wav>")
  = [lit "https://x.example/call123.wav"]
  /\ QaBot.extract_wav_urls (lit "audio at https://x.example/a.wav now")
     = [lit "https://x.example/a.wav"]
  /\ QaBot.extract_wav_urls (lit "<https://a.example/b.wav|b.wav> https://c.example/d.wav")
     = [lit "https://a.example/b.wav"]
  /\ (forall text,
        Re.findall QaBot.SLACK_LINK_PATTERN text <> [] ->
        QaBot.extract_wav_urls text = Re.findall QaBot.SLACK_LINK_PATTERN text)
  /\ (forall text,
        ~ occurs_ci (lit ".wav") text -> QaBot.extract_wav_urls text = []).
Proof.
  split; [vm_compute; reflexivity|].
  split; [vm_compute; reflexivity|].
  split; [vm_compute; reflexivity|].
  split.
  - intros text H. unfold QaBot.extract_wav_urls.
    destruct (Re.findall QaBot.SLACK_LINK_PATTERN text); [congruence | reflexivity].
  - intros text H. apply findall_without_wav in H as [H1 H2].
    unfold QaBot.extract_wav_urls. now rewrite H1, H2.
Qed.

Lemma extract_wav_urls_spec_witness :
  QaBot.extract_wav_urls (lit "no audio here") = [].
Proof.
  apply (proj2 (proj2 (proj2 (proj2 extract_wav_urls_spec)))).
  intros (pre & mid & post & Heq & Hmid).
  assert (contains (lit ".wav") (map lower_ascii (lit "no audio here")) = true) as Hc.
  { apply contains_spec. exists (map lower_ascii pre), (map lower_ascii post).
    rewrite Heq, !map_app, Hmid. reflexivity. }
  vm_compute in Hc. discriminate.
Defined.

(** ** Chunked transcription *)

Lemma wp_main_recognize_chunks en (chunks : list audio) :
  forall full h s (Q : out pystr -> Prop),
    (forall l r, chunk_report chunks r l ->
                 Q (Out (map_result
                           (fun texts =>
                              full ++ List.concat (map (fun t => t ++ lit " ") texts)) r)
                        l s)) ->
    wp (Main.recognize_chunks en chunks full) h s Q.
Proof.
  induction chunks as [|chunk chunks IH]; intros full h s Q HQ;
    cbn [Main.recognize_chunks].
  - wp_step. specialize (HQ [] (Ok [])). cbn in HQ. rewrite app_nil_r in HQ.
    apply HQ. repeat split; constructor.
  - repeat wp_step.
    + apply IH. intros l r' (Hk & Hs & Hr). cbn [app].
      specialize (HQ (RecognizeGoogle chunk (Ok r)
                        :: Stdout (lit "Transcribed segment: " +++ upto 50 r +++ lit "...")
                        :: l)
                     (map_result (fun texts => r :: texts) r')).
      destruct r' as [texts|e]; cbn [map_result map List.concat] in HQ |- *.
      * rewrite <- (app_assoc full). apply HQ.
        destruct Hr as (-> & Hf & Hc).
        repeat split; cbn; try congruence.
        repeat constructor; assumption.
      * apply HQ. repeat split; cbn; try assumption.
        repeat constructor; assumption.
    + destruct (String.eqb (exn_class r) "UnknownValueError") eqn:Ecls.
      * repeat wp_step. apply IH. intros l r' (Hk & Hs & Hr). cbn [app].
        specialize (HQ (RecognizeGoogle chunk (Err r) :: l) r').
        apply HQ. repeat split; cbn; try assumption.
        -- repeat constructor; assumption.
        -- destruct r'; unfold failures in *; cbn; rewrite Ecls; [|assumption].
           destruct Hr as (-> & Hf & Hc). repeat split; cbn; congruence.
      * specialize (HQ [RecognizeGoogle chunk (Err r)] (Err r)). apply HQ.
        repeat split; cbn; try reflexivity.
        -- repeat constructor.
        -- unfold failures. cbn. now rewrite Ecls.
Qed.

Lemma wp_extra_transcribe_wav en (p : path) h s (Q : out pystr -> Prop) :
  (forall l r, transcription_report en p r l -> Q (Out r l s)) ->
  wp (Extra.transcribe_wav en p) h s Q.
Proof.
  intros HQ. unfold Extra.transcribe_wav. repeat wp_step.
  - apply wp_extra_recognize_chunks. intros l r' (Hk & Hs & Hr). wp_red.
    destruct r' as [texts|e]; wp_red; repeat wp_step; rewrite ?app_nil_r; apply HQ.
    + destruct Hr as (-> & Hf & Hc). split; [kind_list|].
      unfold failures, splits, recognize_calls, recognized in *.
      cbn [pick stage_failure]. repeat split; try assumption.
      * exists r. repeat split; [now left | now rewrite Hs | assumption].
    + split; [kind_list | exact Hr].
  - apply HQ. split; [kind_list | reflexivity].
Qed.

Lemma wp_main_transcribe en (p : path) h s (Q : out pystr -> Prop) :
  (forall l r, transcription_report en p r l -> Q (Out r l s)) ->
  wp (Main.transcribe en p) h s Q.
Proof.
  intros HQ. unfold Main.transcribe. repeat wp_step.
  - apply wp_main_recognize_chunks. intros l r' (Hk & Hs & Hr). wp_red.
    destruct r' as [texts|e]; wp_red; repeat wp_step; rewrite ?app_nil_r; apply HQ.
    + destruct Hr as (-> & Hf & Hc). split; [kind_list|].
      unfold failures, splits, recognize_calls, recognized in *.
      cbn [pick stage_failure]. repeat split; try assumption.
        * apply strip_concat_spaces.
      * exists r. repeat split; [right; now left | now rewrite Hs | assumption].
    + split; [kind_list | exact Hr].
  - apply HQ. split; [kind_list | reflexivity].
Qed.

Lemma transcription_report_clean en p r l :
  transcription_report en p r l -> failures l = [] ->
  exists a,
    In (FromWav p (Ok a)) l
    /\ splits l = [(a, 500, PrimFloat.sub (dBFS a) 14%float, 250,
                    o_split_on_silence en a 500 (PrimFloat.sub (dBFS a) 14%float) 250)]
    /\ recognize_calls l
       = o_split_on_silence en a 500 (PrimFloat.sub (dBFS a) 14%float) 250
    /\ r = Ok (strip (join (lit " ") (recognized l))).
Proof.
  intros (_ & Hr) Hf. destruct r as [t|e].
  - destruct Hr as (_ & -> & a & Hin & Hs & Hc). exists a. repeat split; assumption.
  - rewrite Hr in Hf. discriminate.
Qed.

(** C6: in [extra.py] and in [main.py], a chunked transcription in which
    nothing fails (a chunk the recognizer cannot understand is not a failure)
    loads the clip [a], splits it on silence once with minimum silence 500,
    threshold [a.dBFS - 14] and padding 250, hands each chunk to the
    recognizer once, in order, skips the chunks that raise
    [UnknownValueError], and returns the recognized texts joined by single
    spaces, stripped. *)
Theorem chunked_transcription_spec (en : env) (p : path) (h : list event) (s : state) :
  (let o := Extra.transcribe_wav en p h s in
   failures (evs o) = [] ->
   exists a,
     In (FromWav p (Ok a)) (evs o)
     /\ splits (evs o)
        = [(a, 500, PrimFloat.sub (dBFS a) 14%float, 250,
            o_split_on_silence en a 500 (PrimFloat.sub (dBFS a) 14%float) 250)]
     /\ recognize_calls (evs o)
        = o_split_on_silence en a 500 (PrimFloat.sub (dBFS a) 14%float) 250
     /\ res o = Ok (strip (join (lit " ") (recognized (evs o)))))
  /\
  (let o := Main.transcribe en p h s in
   failures (evs o) = [] ->
   exists a,
     In (FromWav p (Ok a)) (evs o)
     /\ splits (evs o)
        = [(a, 500, PrimFloat.sub (dBFS a) 14%float, 250,
            o_split_on_silence en a 500 (PrimFloat.sub (dBFS a) 14%float) 250)]
     /\ recognize_calls (evs o)
        = o_split_on_silence en a 500 (PrimFloat.sub (dBFS a) 14%float) 250
     /\ res o = Ok (strip (join (lit " ") (recognized (evs o))))).
Proof.
  split; cbv zeta.
  - wp_start (Extra.transcribe_wav en p) h s. apply wp_extra_transcribe_wav.
    intros l r Hrep. cbn [res evs]. now apply transcription_report_clean.
  - wp_start (Main.transcribe en p) h s. apply wp_main_transcribe.
    intros l r Hrep. cbn [res evs]. now apply transcription_report_clean.
Qed.

Lemma chunked_transcription_spec_witness :
  res (Extra.transcribe_wav three_chunks (lit "/tmp/a.wav") [] empty_state)
  = Ok (lit "hello world")
  /\ res (Main.transcribe three_chunks (lit "/tmp/a.wav") [] empty_state)
     = Ok (lit "hello world").
Proof.
  destruct (chunked_transcription_spec three_chunks (lit "/tmp/a.wav") [] empty_state)
    as [HE HM].
  destruct (HE eq_refl) as (a & _ & _ & _ & E).
  destruct (HM eq_refl) as (a' & _ & _ & _ & E').
  split; [rewrite E | rewrite E']; vm_compute; reflexivity.
Defined.

(** ** Cleanup *)

Lemma wp_extra_cleanup en (channel ts : pystr) h s (Q : out unit -> Prop) :
  (forall l fs,
      match tmp_path s with
      | Some p =>
          exists r rr,
            l = [Unlink p r; ReactionsRemove channel Extra.hourglass ts rr]
            /\ (r = Ok tt -> ~ In p fs)
      | None => exists rr, l = [ReactionsRemove channel Extra.hourglass ts rr]
      end ->
      Q (Out (Ok tt) l (State fs (tmp_path s)))) ->
  wp (Extra.cleanup en channel ts) h s Q.
Proof.
  destruct s as [fs tp]. intros HQ. unfold Extra.cleanup.
  wp_run; cbn [tmp_path] in *; subst; apply HQ;
    try (eexists; reflexivity);
    eexists; eexists;
    (split; [reflexivity | first [intros _; apply remove_In | discriminate]]).
Qed.

Lemma wp_qa_download en (url dest : pystr) h s (Q : out unit -> Prop) :
  (forall l r fs, download_report url r l -> Q (Out r l (State fs (tmp_path s)))) ->
  wp (QaBot.download_wav en url dest) h s Q.
Proof.
  destruct s as [fs tp]. intros HQ. unfold QaBot.download_wav.
  wp_run; apply HQ; unfold download_report, fetched, failures;
    cbn [pick stage_failure];
    repeat match goal with H : ?b = _ |- context [if ?b then _ else _] => rewrite H end;
    (split; [kind_list | split; reflexivity]).
Qed.

Lemma wp_extra_download cfg en (url dest : pystr) h s (Q : out unit -> Prop) :
  (forall l r fs, download_report url r l -> Q (Out r l (State fs (tmp_path s)))) ->
  wp (Extra.download_slack_file cfg en url dest) h s Q.
Proof.
  destruct s as [fs tp]. intros HQ. unfold Extra.download_slack_file.
  wp_run; apply HQ; unfold download_report, fetched, failures;
    cbn [pick stage_failure];
    repeat match goal with H : ?b = _ |- context [if ?b then _ else _] => rewrite H end;
    (split; [kind_list | split; reflexivity]).
Qed.

Ltac wp_blocks :=
  lazymatch goal with
  | |- wp (Extra.cleanup _ _ _) _ _ _ =>
      apply wp_extra_cleanup;
      let l := fresh "l" in let fs := fresh "fs" in let H := fresh "Hclean" in
      intros l fs H; cbn [tmp_path] in H;
      try match type of H with
          | match ?tp with _ => _ end => destruct tp
          end;
      [> first [ destruct H as (? & ? & -> & H) | destruct H as (? & ->) ] .. ]
  | |- wp (QaBot.download_wav _ _ _) _ _ _ =>
      apply wp_qa_download;
      let l := fresh "l" in let r := fresh "r" in let fs := fresh "fs" in
      let Hk := fresh "Hk" in let Hu := fresh "Hu" in let Hf := fresh "Hf" in
      intros l r fs (Hk & Hu & Hf); unfold fetched, failures in Hu, Hf;
      quiet Hk; clear Hk; destruct r as [[]|r]
  | |- wp (Extra.download_slack_file _ _ _ _) _ _ _ =>
      apply wp_extra_download;
      let l := fresh "l" in let r := fresh "r" in let fs := fresh "fs" in
      let Hk := fresh "Hk" in let Hu := fresh "Hu" in let Hf := fresh "Hf" in
      intros l r fs (Hk & Hu & Hf); unfold fetched, failures in Hu, Hf;
      quiet Hk; clear Hk; destruct r as [[]|r]
  | |- wp (Extra.transcribe_wav _ _) _ _ _ =>
      apply wp_extra_transcribe_wav;
      let l := fresh "l" in let r := fresh "r" in
      let Hk := fresh "Hk" in let Hr := fresh "Hr" in
      intros l r [Hk Hr]; quiet Hk; clear Hk; destruct r as [r|r];
      [ let Hf := fresh "Hf" in let Ht := fresh "Ht" in
        destruct Hr as (Hf & Ht & _); unfold failures in Hf;
        unfold recognized in Ht; subst r
      | unfold failures in Hr ]
  end; wp_red.

Ltac wp_all := repeat first [ wp_known | wp_blocks | wp_step ].

(** ** The URL pipeline, path by path *)

Lemma short_is_unusable (t : pystr) :
  (len (strip t) <? 10) = true ->
  negb (truthy (strip t)) || (len (strip (strip t)) <? 10) = true.
Proof. intros H. rewrite strip_idem, H. apply orb_true_r. Qed.

Lemma long_is_usable (t : pystr) :
  (len (strip t) <? 10) = false ->
  negb (truthy (strip t)) || (len (strip (strip t)) <? 10) = false.
Proof.
  intros H. rewrite strip_idem, H. destruct (strip t); [discriminate H | reflexivity].
Qed.

Lemma qa_run_paths cfg en url ts ch say client h s :
  qa_paths cfg url ts ch say client
    (QaBot.process_wav_url cfg en url ts ch say client h s).
Proof.
  wp_start (QaBot.process_wav_url cfg en url ts ch say client) h s.
  unfold QaBot.process_wav_url, QaBot.transcribe_wav, QaBot.analyze_transcript.
  wp_all.
  all: try (rewrite truthy_temp in *; discriminate).
  all: digest; unfold qa_paths; use_digest.
  all: split; [|split; [|split; [|split; [|split; [|split; [|split; [|split; [|split]]]]]]]].
  (* no speech *)
  all: try (let r := fresh "r" in let Hw := fresh "Hw" in
            let Hshort := fresh "Hshort" in
            intros r Hw Hshort;
            first
              [ discriminate Hw
              | injection Hw as <-;
                first
                  [ apply short_is_unusable in Hshort; congruence
                  | repeat split; try reflexivity;
                    eexists; eexists; split; reflexivity ] ]).
  (* usable transcript *)
  all: try (let r := fresh "r" in let Hw := fresh "Hw" in
            let Hlong := fresh "Hlong" in
            intros r Hw Hlong;
            first
              [ discriminate Hw
              | injection Hw as <-;
                first [ apply long_is_usable in Hlong; congruence | reflexivity ] ]).
  (* indeterminate grade in production mode *)
  all: try (let Hao := fresh "Hao" in let Hcl := fresh "Hcl" in
            let Hsay := fresh "Hsay" in let Hts := fresh "Hts" in
            let Hch := fresh "Hch" in let a := fresh "analysis" in
            let Han := fresh "Han" in let Hg := fresh "Hg" in
            intros Hao Hcl Hsay Hts Hch a Han Hg;
            first
              [ discriminate Han
              | injection Han as <-;
                first
                  [ exfalso; subst;
                    match goal with
                    | E : _ && _ = false |- _ =>
                        rewrite Hao, Hts, Hch in E; discriminate E
                    end
                  | split; [rewrite ?Hg; reflexivity|]; eexists; eexists;
                    split; [reflexivity|];
                    let Hr := fresh "Hr" in
                    intros Hr; first [discriminate Hr | split; reflexivity] ] ]).
  (* stage failure *)
  all: try (let e := fresh "e" in let Hin := fresh "Hin" in
            intros e Hin; simpl in Hin;
            first [ contradiction
                  | destruct Hin as [<-|[]]; repeat split; reflexivity ]).
  (* the run returns, after one request for a temporary file *)
  all: try (eexists; reflexivity).
  all: try (first [left; reflexivity | right; reflexivity]).
  all: try reflexivity.
  (* temporary file *)
  all: try (let p := fresh "p" in let Hin := fresh "Hin" in
            intros p Hin; simpl in Hin;
            first [ contradiction
                  | destruct Hin as [<-|[]]; eexists;
                    split; [reflexivity | cbn [files]; assumption] ]).
  (* analyze-only mode *)
  all: let Hao := fresh "Hao" in
       intros Hao;
       first [ split; reflexivity
             | exfalso;
               match goal with
               | E : _ && _ = true |- _ => rewrite Hao in E; discriminate E
               end ].
Qed.

(** ** The file-upload pipeline, path by path *)

Ltac close_reply :=
  eexists; split; [reflexivity|];
  let Hr := fresh "Hr" in
  intros Hr; first [discriminate Hr | repeat split; reflexivity].

Lemma extra_run_paths cfg en ch ts file h s :
  extra_paths cfg ts file (Extra.handle_file cfg en ch ts file h s).
Proof.
  wp_start (Extra.handle_file cfg en ch ts file) h s.
  unfold Extra.handle_file, Extra.analyze_transcript.
  wp_all.
  all: digest; unfold extra_paths; use_digest.
  all: split; [|split; [|split; [|split; [|split]]]].
  (* empty transcript *)
  all: try (let p := fresh "p" in let Hp := fresh "Hp" in
            let Hf := fresh "Hf" in let Ht := fresh "Ht" in
            intros p Hp Hf Ht;
            first
              [ discriminate
              | match goal with
                | E : negb (truthy _) = false |- _ =>
                    rewrite Ht in E; cbn in E; discriminate E
                end
              | injection Hp as <-;
                split; [reflexivity|]; split; [reflexivity|];
                split; [eexists; reflexivity|]; close_reply ]).
  (* transcript that is not empty *)
  all: try (let p := fresh "p" in let Hp := fresh "Hp" in
            let Hf := fresh "Hf" in let Ht := fresh "Ht" in
            intros p Hp Hf Ht;
            first [ discriminate
                  | reflexivity
                  | match goal with
                    | E : negb (truthy ?T) = true |- _ =>
                        destruct T; [congruence | discriminate E]
                    end ]).
  (* indeterminate grade *)
  all: try (let a := fresh "analysis" in let Han := fresh "Han" in
            let Hg := fresh "Hg" in
            intros a Han Hg;
            first [ discriminate Han
                  | injection Han as <-; split; [rewrite ?Hg; reflexivity|];
                    eexists; close_reply ]).
  (* stage failure *)
  all: try (let e := fresh "e" in let Hin := fresh "Hin" in
            intros e Hin; simpl in Hin;
            first [ contradiction
                  | destruct Hin as [<-|[]]; split; [reflexivity|];
                    eexists; split; reflexivity ]).
  (* what the run raises *)
  all: try (first [ left; reflexivity
                  | right; eexists; eexists; split; [reflexivity | simpl; auto] ]).
  (* temporary file *)
  all: try (let p := fresh "p" in let Hin := fresh "Hin" in
            intros p Hin; simpl in Hin;
            first [ contradiction
                  | destruct Hin as [<-|[]]; eexists;
                    split; [reflexivity | cbn [files]; assumption] ]).
Qed.

(** ** Temporary files *)

(** The temporary file exists when the [finally] block runs, so the call of
    [os.unlink] reaches the file system. *)
Lemma wp_unlink_present en (p : path) h s (Q : out unit -> Prop) :
  In p (files s) ->
  (forall fs, (o_unlink en h p = Ok tt -> ~ In p fs) ->
              Q (Out (Ok tt) [Unlink p (o_unlink en h p)] (State fs (tmp_path s)))) ->
  wp (swallow (os_unlink en p)) h s Q.
Proof.
  destruct s as [fs tp]. cbn [files tmp_path]. intros Hin HQ.
  unfold wp, swallow, try_except, os_unlink, bind, andthen, file_exists, call,
    remove_file, ret.
  cbn [res evs st files tmp_path].
  destruct (in_dec (list_eq_dec N.eq_dec) p fs) as [_|Hout]; [|contradiction].
  cbn [res evs st files tmp_path app]. rewrite app_nil_r.
  destruct (o_unlink en h p) as [[]|e] eqn:E; cbn [res evs st files tmp_path app].
  - apply HQ. intros _. apply remove_In.
  - apply HQ. discriminate.
Qed.

Lemma wp_qa_download_keeps en (url dest : pystr) h s (Q : out unit -> Prop) :
  (forall l r fs, download_report url r l ->
                  (forall q, In q (files s) -> In q fs) ->
                  Q (Out r l (State fs (tmp_path s)))) ->
  wp (QaBot.download_wav en url dest) h s Q.
Proof.
  destruct s as [fs tp]. intros HQ. unfold QaBot.download_wav.
  wp_run; (apply HQ; [|cbn; auto]); unfold download_report, fetched, failures;
    cbn [pick stage_failure];
    repeat match goal with H : ?b = _ |- context [if ?b then _ else _] => rewrite H end;
    (split; [kind_list | split; reflexivity]).
Qed.

Lemma wp_extra_download_keeps cfg en (url dest : pystr) h s (Q : out unit -> Prop) :
  (forall l r fs, download_report url r l ->
                  (forall q, In q (files s) -> In q fs) ->
                  Q (Out r l (State fs (tmp_path s)))) ->
  wp (Extra.download_slack_file cfg en url dest) h s Q.
Proof.
  destruct s as [fs tp]. intros HQ. unfold Extra.download_slack_file.
  wp_run; (apply HQ; [|cbn; auto]); unfold download_report, fetched, failures;
    cbn [pick stage_failure];
    repeat match goal with H : ?b = _ |- context [if ?b then _ else _] => rewrite H end;
    (split; [kind_list | split; reflexivity]).
Qed.

Ltac wp_keeps :=
  repeat first
    [ lazymatch goal with
      | |- wp (QaBot.download_wav _ _ _) _ _ _ =>
          apply wp_qa_download_keeps;
          let l := fresh "l" in let r := fresh "r" in let fs := fresh "fs" in
          let Hk := fresh "Hk" in let Hkeep := fresh "Hkeep" in
          intros l r fs (Hk & _ & _) Hkeep; quiet Hk; clear Hk; destruct r as [[]|r];
          wp_red
      | |- wp (Extra.download_slack_file _ _ _ _) _ _ _ =>
          apply wp_extra_download_keeps;
          let l := fresh "l" in let r := fresh "r" in let fs := fresh "fs" in
          let Hk := fresh "Hk" in let Hkeep := fresh "Hkeep" in
          intros l r fs (Hk & _ & _) Hkeep; quiet Hk; clear Hk; destruct r as [[]|r];
          wp_red
      end
    | wp_known | wp_blocks | wp_step ].

(** Run up to the [finally] block. *)
Ltac wp_to_finally :=
  repeat lazymatch goal with
         | |- wp (try_finally _ _) _ _ _ => fail
         | |- _ => first [ wp_known | wp_step ]
         end.

Ltac kept_leaf :=
  unfold temp_file_kept; cbn [evs st tmp_path files];
  first
    [ left; simpl_picks; reflexivity
    | right; eexists; split; [simpl_picks; reflexivity|];
      split; [reflexivity|];
      split; [|apply truthy_temp];
      first [ left; reflexivity
            | match goal with H : forall q, In q _ -> In q _ |- _ => apply H end;
              left; reflexivity ] ].

Lemma qa_unlink_is_answered cfg en url ts ch say client h s p :
  let o := QaBot.process_wav_url cfg en url ts ch say client h s in
  In p (temp_files (evs o)) ->
  exists before,
    evs o = before ++ [Unlink p (o_unlink en (h ++ before) p)]
    /\ (o_unlink en (h ++ before) p = Ok tt -> ~ In p (files (st o))).
Proof.
  cbv zeta. revert p.
  wp_start (QaBot.process_wav_url cfg en url ts ch say client) h s.
  unfold QaBot.process_wav_url, QaBot.transcribe_wav, QaBot.analyze_transcript.
  wp_to_finally. apply wp_try_finally.
  apply wp_mono with (Q := @temp_file_kept (option pystr)).
  - wp_keeps. all: kept_leaf.
  - intros [r1 l1 [fs1 tp1]] [Hnone|(p1 & Hone & Htp & Hin & Htr)];
      cbn [evs st res tmp_path files] in *.
    + wp_run; intros x Hx; exfalso; revert Hx; simpl_picks;
        unfold temp_files in Hnone; rewrite ?Hnone; cbn; tauto.
    + subst tp1. wp_step. wp_step.
      rewrite Htr.
      apply wp_unlink_present; [exact Hin|]. intros fs Hgone. wp_red.
        intros x Hx.
        assert (x = p1) as ->.
        { revert Hx. simpl_picks. cbn. intros [->|[]]. reflexivity. }
        exists (Log INFO (lit "  " +++ [0x1F3B5] +++ lit " Processing WAV: " +++ url) :: l1).
        cbn [app] in *. rewrite <- !app_assoc in *. cbn [app] in *.
        rewrite ?app_nil_r in *. split; [reflexivity | exact Hgone].
Qed.

Lemma wp_extra_unlink_present en (p : path) h fs (Q : out unit -> Prop) :
  In p fs ->
  (forall fs', (o_unlink en h p = Ok tt -> ~ In p fs') ->
               Q (Out (Ok tt) [Unlink p (o_unlink en h p)] (State fs' (Some p)))) ->
  wp (swallow (q <- get_tmp_path ;;
               match q with
               | Some tmp => os_unlink en tmp
               | None =>
                   raise (Exn "UnboundLocalError"
                            (lit "cannot access local variable 'tmp_path' where it is not associated with a value"))
               end)) h (State fs (Some p)) Q.
Proof.
  intros Hin HQ.
  pose proof (@wp_unlink_present en p h (State fs (Some p)) Q Hin HQ) as H.
  unfold wp, swallow, try_except, bind, andthen, get_tmp_path in *.
  cbn [res evs st tmp_path app] in *. rewrite app_nil_r.
  destruct (os_unlink en p h (State fs (Some p))) as [[[]|e] l s']; exact H.
Qed.

Lemma extra_unlink_is_answered cfg en ch ts file h s p :
  let o := Extra.handle_file cfg en ch ts file h s in
  In p (temp_files (evs o)) ->
  exists before rr,
    evs o = before ++ [Unlink p (o_unlink en (h ++ before) p);
                       ReactionsRemove ch Extra.hourglass ts rr]
    /\ (o_unlink en (h ++ before) p = Ok tt -> ~ In p (files (st o))).
Proof.
  cbv zeta. revert p.
  wp_start (Extra.handle_file cfg en ch ts file) h s.
  unfold Extra.handle_file, Extra.analyze_transcript. cbv zeta.
  wp_to_finally.
  all: try (intros x Hx; exfalso; revert Hx; simpl_picks; cbn; tauto).
  apply wp_try_finally; apply wp_mono with (Q := @temp_file_kept unit).
  - wp_keeps. all: kept_leaf.
  - intros [r1 l1 [fs1 tp1]] [Hnone|(p1 & Hone & Htp & Hin & Htr)];
      cbn [evs st res tmp_path files] in *.
    + unfold Extra.cleanup.
      wp_run; intros x Hx; exfalso; revert Hx; simpl_picks;
        unfold temp_files in Hnone; rewrite ?Hnone; cbn; tauto.
    + subst tp1. unfold Extra.cleanup. wp_step.
      apply wp_extra_unlink_present; [exact Hin|]. intros fs Hgone. wp_red.
      wp_run.
      all: intros x Hx;
        (assert (x = p1) as -> by
            (revert Hx; simpl_picks; cbn; intros [->|[]]; reflexivity)).
      all: eexists (_ :: _ :: l1); eexists.
      all: cbn [app] in *; rewrite <- ?app_assoc in *; cbn [app] in *;
        rewrite ?app_nil_r in *; (split; [reflexivity | exact Hgone]).
Qed.

Lemma unlinks_at (l tail : list event) (p q : path) (r r' : result unit) :
  unlinks (l ++ Unlink p r :: tail) = [(q, r')] -> unlinks tail = [] -> r = r'.
Proof.
  unfold unlinks. rewrite pick_app. cbn. intros H Ht. rewrite Ht in H.
  apply app_eq_unit in H as [[_ H2]|[_ H2]]; [|discriminate H2].
  now injection H2 as _ ->.
Qed.

(** C4: in both pipelines, on every path of a run that created a temporary
    file (success, no speech, an exception at any stage), the run ends with
    one call of [os.unlink] on that file, the only one of the run (followed,
    in [extra.py], by the removal of the hourglass reaction only).  The file
    exists when the call is made, so that the answer recorded is the answer
    of the file system to that call; whenever the file system answers with
    success the file no longer exists after the run.  An error of the
    deletion is swallowed: [process_wav_url] always returns a value, and the
    loop body of [handle_message] raises only what posting its failure
    notice raised. *)
Theorem temp_file_removed_on_every_path :
  (forall cfg en url ts ch say client h s p,
      let o := QaBot.process_wav_url cfg en url ts ch say client h s in
      In p (temp_files (evs o)) ->
      exists before,
        let r := o_unlink en (h ++ before) p in
        evs o = before ++ [Unlink p r]
        /\ unlinks (evs o) = [(p, r)]
        /\ (r = Ok tt -> ~ In p (files (st o)))
        /\ exists v, res o = Ok v)
  /\
  (forall cfg en ch ts file h s p,
      let o := Extra.handle_file cfg en ch ts file h s in
      In p (temp_files (evs o)) ->
      exists before rr,
        let r := o_unlink en (h ++ before) p in
        evs o = before ++ [Unlink p r; ReactionsRemove ch Extra.hourglass ts rr]
        /\ unlinks (evs o) = [(p, r)]
        /\ (r = Ok tt -> ~ In p (files (st o)))
        /\ (res o = Ok tt
            \/ exists e0 e,
                res o = Err e
                /\ In (Extra.error_notice
                         (get (f_name file) (lit "unknown.wav")) e0,
                       ts, Err e) (says (evs o)))).
Proof.
  split.
  - intros cfg en url ts ch say client h s p o Hp.
    destruct (qa_run_paths cfg en url ts ch say client h s)
      as (_ & _ & _ & _ & Hv & _ & _ & _ & Hrm & _).
    destruct (Hrm p Hp) as (r & Hu & _).
    destruct (@qa_unlink_is_answered cfg en url ts ch say client h s p Hp)
      as (before & Hev & Hgone).
    exists before. cbv zeta. fold o in Hev, Hgone, Hu, Hv |- *.
    assert (o_unlink en (h ++ before) p = r) as Hr
        by (rewrite Hev in Hu; eapply unlinks_at; [exact Hu | reflexivity]).
    rewrite Hr in *. repeat split; assumption.
  - intros cfg en ch ts file h s p o Hp.
    destruct (extra_run_paths cfg en ch ts file h s)
      as (_ & _ & _ & _ & Hraise & Hrm).
    destruct (Hrm p Hp) as (r & Hu & _).
    destruct (@extra_unlink_is_answered cfg en ch ts file h s p Hp)
      as (before & rr & Hev & Hgone).
    exists before, rr. cbv zeta. fold o in Hev, Hgone, Hu, Hraise |- *.
    assert (o_unlink en (h ++ before) p = r) as Hr
        by (rewrite Hev in Hu; eapply unlinks_at; [exact Hu | reflexivity]).
    rewrite Hr in *. repeat split; assumption.
Qed.

Lemma temp_file_removed_witness :
  let o := QaBot.process_wav_url (qa_config false) not_found sample_url sample_ts
             sample_channel true true [] empty_state in
  unlinks (evs o) = [(lit "/tmp/tmpk3.wav", Ok tt)]
  /\ ~ In (lit "/tmp/tmpk3.wav") (files (st o))
  /\ exists v, res o = Ok v.
Proof.
  intros o.
  destruct (proj1 temp_file_removed_on_every_path (qa_config false) not_found
              sample_url sample_ts sample_channel true true [] empty_state
              (lit "/tmp/tmpk3.wav"))
    as (before & _ & Hun & Hgone & Hv).
  { vm_compute. left. reflexivity. }
  split; [exact Hun | split; [exact (Hgone eq_refl) | exact Hv]].
Defined.

(** ** Unusable transcripts *)

(** C2 as stated fails in the URL pipeline: with an empty transcript, in
    production mode and with [say] at hand, the run ends on the no-speech
    value without posting any reply. *)
Lemma qa_no_speech_posts_no_reply :
  let o := QaBot.process_wav_url (qa_config false) (all_fine [] []) sample_url
             sample_ts sample_channel true true [] empty_state in
  whispered (evs o) = [Some []]
  /\ res o = Ok (Some QaBot.no_speech)
  /\ reactions_added (evs o) = [lit "x"]
  /\ says (evs o) = [].
Proof. vm_compute. repeat split; reflexivity. Qed.

(** C2, amended: a run whose transcript is unusable (URL pipeline: shorter
    than 10 characters once stripped; file-upload pipeline: empty) ends
    without an error: the analyzer is not called, no grade reaction is
    attempted and the temporary file is unlinked.  The URL pipeline returns
    the no-speech value, posts no reply and adds at most the marker [x] (in
    production mode, with a client, a timestamp and a channel).  The
    file-upload pipeline adds no marker and posts the "could not transcribe"
    reply to the thread of the message; when Slack takes it, it is the only
    reply, nothing is logged as an error and the run ends normally. *)
Theorem no_speech_is_not_a_failure :
  (forall cfg en url ts ch say client h s r,
      let o := QaBot.process_wav_url cfg en url ts ch say client h s in
      whispered (evs o) = [r] ->
      (len (strip (get r [])) <? 10) = true ->
      res o = Ok (Some QaBot.no_speech)
      /\ errors_logged (evs o) = []
      /\ generated (evs o) = []
      /\ says (evs o) = []
      /\ reactions_added (evs o)
         = (if negb (QaBot.ANALYZE_ONLY cfg) && client && truthy ts && truthy ch
            then [lit "x"] else [])
      /\ exists p ur, temp_files (evs o) = [p] /\ unlinks (evs o) = [(p, ur)])
  /\
  (forall cfg en ch ts file h s p,
      let o := Extra.handle_file cfg en ch ts file h s in
      let filename := get (f_name file) (lit "unknown.wav") in
      temp_files (evs o) = [p] ->
      failures (evs o) = [] ->
      strip (join (lit " ") (recognized (evs o))) = [] ->
      generated (evs o) = []
      /\ reactions_added (evs o) = [Extra.hourglass]
      /\ (exists ur, unlinks (evs o) = [(p, ur)])
      /\ exists r,
          hd_error (says (evs o)) = Some (Extra.could_not_transcribe filename, ts, r)
          /\ (r = Ok tt ->
              says (evs o) = [(Extra.could_not_transcribe filename, ts, Ok tt)]
              /\ res o = Ok tt /\ errors_logged (evs o) = [])).
Proof.
  split.
  - intros cfg en url ts ch say client h s r o Hw Hshort.
    destruct (qa_run_paths cfg en url ts ch say client h s) as (Hno & _).
    destruct (Hno r Hw Hshort) as (Hres & Hgen & Hsay & Herr & Hreact & Htmp).
    repeat split; assumption.
  - intros cfg en ch ts file h s p o filename Hp Hf Ht.
    destruct (extra_run_paths cfg en ch ts file h s) as (Hno & _).
    exact (Hno p Hp Hf Ht).
Qed.

Lemma no_speech_is_not_a_failure_witness :
  let o := Extra.handle_file extra_config
             (scripted (Ok ok_response) (Ok None)
                [Err (Exn "UnknownValueError" [])] (Ok []) always_ok)
             sample_channel sample_ts upload [] empty_state in
  says (evs o) = [(Extra.could_not_transcribe (lit "call.wav"), sample_ts, Ok tt)]
  /\ res o = Ok tt
  /\ generated (evs o) = []
  /\ unlinks (evs o) = [(lit "/tmp/tmpk3.wav", Ok tt)].
Proof.
  cbv zeta.
  destruct (proj2 no_speech_is_not_a_failure extra_config
              (scripted (Ok ok_response) (Ok None)
                 [Err (Exn "UnknownValueError" [])] (Ok []) always_ok)
              sample_channel sample_ts upload [] empty_state (lit "/tmp/tmpk3.wav"))
    as (Hgen & _ & _ & r & Hhd & Hok);
    try (vm_compute; reflexivity).
  assert (r = Ok tt) as Hr by (vm_compute in Hhd; congruence).
  destruct (Hok Hr) as (Hsays & Hres & _).
  repeat split; try assumption.
Defined.

(** C7 as stated fails in the file-upload pipeline: a transcript of two
    characters is sent to the analyzer. *)
Lemma extra_short_transcript_is_analysed :
  let o := Extra.handle_file extra_config (all_fine (lit "hi") (lit "fine"))
             sample_channel sample_ts upload [] empty_state in
  strip (join (lit " ") (recognized (evs o))) = lit "hi"
  /\ (len (strip (lit "hi")) <? 10) = true
  /\ generated (evs o) = [lit "Rubric. Dialogue: hi"].
Proof. vm_compute. repeat split; reflexivity. Qed.

(** C7, amended: in both pipelines "no speech" is a success: no exception,
    nothing logged as an error, the analyzer not called.  The URL pipeline
    applies the threshold: a transcript shorter than 10 characters once
    stripped takes the no-speech path, a longer one is sent to the analyzer
    (once).  The file-upload pipeline has no length threshold: only an empty
    transcript takes the no-speech path, and every transcript that is not
    empty, however short, is sent to the analyzer. *)
Theorem usability_threshold :
  (forall cfg en url ts ch say client h s r,
      let o := QaBot.process_wav_url cfg en url ts ch say client h s in
      whispered (evs o) = [r] ->
      ((len (strip (get r [])) <? 10) = true ->
       res o = Ok (Some QaBot.no_speech)
       /\ errors_logged (evs o) = [] /\ generated (evs o) = [])
      /\
      ((len (strip (get r [])) <? 10) = false ->
       generated (evs o)
       = [QaBot.PROMPT_HEAD cfg +++ strip (get r []) +++ QaBot.PROMPT_TAIL cfg]))
  /\
  (forall cfg en ch ts file h s p,
      let o := Extra.handle_file cfg en ch ts file h s in
      let transcript := strip (join (lit " ") (recognized (evs o))) in
      temp_files (evs o) = [p] ->
      failures (evs o) = [] ->
      (transcript = [] ->
       generated (evs o) = []
       /\ exists r,
           hd_error (says (evs o))
           = Some (Extra.could_not_transcribe (get (f_name file) (lit "unknown.wav")),
                   ts, r)
           /\ (r = Ok tt -> res o = Ok tt /\ errors_logged (evs o) = []))
      /\
      (transcript <> [] ->
       generated (evs o) = [Extra.PROMPT_HEAD cfg +++ transcript])).
Proof.
  split.
  - intros cfg en url ts ch say client h s r o Hw.
    destruct (qa_run_paths cfg en url ts ch say client h s) as (Hno & Hyes & _).
    split.
    + intros Hshort.
      destruct (Hno r Hw Hshort) as (Hres & Hgen & _ & Herr & _).
      repeat split; assumption.
    + intros Hlong. exact (Hyes r Hw Hlong).
  - intros cfg en ch ts file h s p o transcript Hp Hf.
    destruct (extra_run_paths cfg en ch ts file h s) as (Hno & Hyes & _).
    split.
    + intros Ht. destruct (Hno p Hp Hf Ht) as (Hgen & _ & _ & r & Hhd & Hok).
      split; [assumption|]. exists r. split; [assumption|].
      intros Hr. destruct (Hok Hr) as (_ & Hres & Herr). now split.
    + intros Ht. exact (Hyes p Hp Hf Ht).
Qed.

Lemma usability_threshold_witness :
  let o := QaBot.process_wav_url (qa_config true) (all_fine (lit " hello. ") [])
             sample_url sample_ts sample_channel true true [] empty_state in
  res o = Ok (Some QaBot.no_speech)
  /\ errors_logged (evs o) = [] /\ generated (evs o) = [].
Proof.
  apply (proj1 usability_threshold (qa_config true) (all_fine (lit " hello. ") [])
           sample_url sample_ts sample_channel true true [] empty_state
           (Some (lit " hello. ")));
    vm_compute; reflexivity.
Defined.

(** ** The listener and the startup replay of the URL pipeline *)

Lemma wp_qa_process cfg en url ts ch say client h s (Q : out (option pystr) -> Prop) :
  (forall v l st r,
      runs_started l = [r] -> (fetched l = [] \/ fetched l = [url]) ->
      histories l = [] ->
      Q (Out (Ok v) l st)) ->
  wp (QaBot.process_wav_url cfg en url ts ch say client) h s Q.
Proof.
  intros HQ. unfold wp.
  destruct (qa_run_paths cfg en url ts ch say client h s)
    as (_ & _ & _ & _ & (v & Hv) & (r & Hr) & Hf & Hh & _).
  destruct (QaBot.process_wav_url cfg en url ts ch say client h s) as [r0 l st0].
  cbn [res evs] in *. subst r0. now apply (HQ v l st0 r).
Qed.

Ltac wp_runs :=
  lazymatch goal with
  | |- wp (QaBot.process_wav_url _ _ _ _ _ _ _) _ _ _ =>
      apply wp_qa_process;
      let Hr := fresh "Hruns" in let Hf := fresh "Hfetch" in
      let Hh := fresh "Hhist" in
      intros ? ? ? ? Hr Hf Hh; unfold runs_started, fetched, histories in Hr, Hf, Hh
  end; wp_red.

Lemma qa_handle_message_shape cfg en event h s :
  qa_message_shape cfg event (QaBot.handle_message cfg en event h s).
Proof.
  wp_start (QaBot.handle_message cfg en event) h s.
  unfold QaBot.handle_message. cbv zeta.
  repeat first [ wp_runs | wp_step ].
  all: unfold qa_message_shape; cbn [res evs st]; split; [reflexivity|].
  all: repeat match goal with
              | H : ?x = _ |- context [match ?x with _ => _ end] => rewrite H
              end.
  all: simpl_picks.
  all: first [ destruct (QaBot.extract_wav_urls _); [split; reflexivity | reflexivity]
             | split; reflexivity
             | split; [eexists; reflexivity | assumption] ].
Qed.

Lemma wp_scan_messages cfg en ch (messages : list message) :
  forall h s (Q : out unit -> Prop),
    (forall l st, scan_report messages l -> histories l = [] ->
                  Q (Out (Ok tt) l st)) ->
    wp (QaBot.scan_messages cfg en ch messages) h s Q.
Proof.
  induction messages as [|msg messages IH]; intros h s Q HQ;
    cbn [QaBot.scan_messages]; cbv zeta.
  - wp_step. wp_step. apply HQ; [split|]; reflexivity.
  - destruct (QaBot.extract_wav_urls (get (m_text msg) [])) as [|first rest] eqn:Hurls.
    + apply IH. intros l st Hrep Hh. apply HQ; [|assumption].
      unfold scan_report in *. cbn [find]. unfold has_wav_url at 1. now rewrite Hurls.
    + repeat first [ wp_runs | wp_step ]. apply HQ.
      * unfold scan_report. cbn [find]. unfold has_wav_url at 1. rewrite Hurls.
        simpl_picks. rewrite ?Hurls. cbn [hd].
        split; [eexists; reflexivity | assumption].
      * simpl_picks. reflexivity.
Qed.

Lemma qa_replay_shape cfg en channel_id h s :
  replay_shape channel_id (QaBot.process_latest_message cfg en channel_id h s).
Proof.
  wp_start (QaBot.process_latest_message cfg en channel_id) h s.
  unfold QaBot.process_latest_message.
  repeat first
    [ lazymatch goal with
      | |- wp (QaBot.scan_messages _ _ _ _) _ _ _ =>
          apply wp_scan_messages; intros ? ? ? ?; wp_red
      end
    | wp_step ].
  all: unfold replay_shape; cbn [res evs st]; split; [reflexivity|].
  all: eexists; split; [simpl_picks; reflexivity|]; cbv iota beta.
  - unfold scan_report in *. destruct (find has_wav_url r);
      simpl_picks; assumption.
  - simpl_picks. split; reflexivity.
Qed.

(** ** Failures *)

Lemma occurs_in_refl (g : pystr) : occurs_in g g.
Proof. exists [], []. now rewrite app_nil_r. Qed.

Lemma occurs_in_here (g post : pystr) : occurs_in g (g ++ post).
Proof. now exists [], post. Qed.

Lemma occurs_in_skip (g pre text : pystr) : occurs_in g text -> occurs_in g (pre ++ text).
Proof.
  intros [a [b ->]]. exists (pre ++ a), b. now rewrite <- app_assoc.
Qed.

Ltac occurs :=
  repeat first [ apply occurs_in_refl | apply occurs_in_here | apply occurs_in_skip ].

(** C3 as stated fails in the URL pipeline: the download answers 404 in
    production mode, with [say] and a client at hand; the failure is logged
    with the URL, no notice is posted and the run returns [None]. *)
Lemma qa_failure_posts_no_notice :
  let o := QaBot.process_wav_url (qa_config false) not_found sample_url sample_ts
             sample_channel true true [] empty_state in
  failures (evs o)
  = [Exn "HTTPError"
       (lit "404 Client Error: Not Found for url: https://x.example/a.wav")]
  /\ errors_logged (evs o)
     = [lit "  " +++ Glyph.cross +++ lit " Error processing https://x.example/a.wav: "
        +++ lit "404 Client Error: Not Found for url: https://x.example/a.wav"]
  /\ says (evs o) = []
  /\ res o = Ok None.
Proof. vm_compute. repeat split; reflexivity. Qed.

(** C3, amended: an exception of the download, transcription or analysis
    stage is caught by the run and logged once, at level ERROR, in a message
    that holds the offending reference (the URL, or the file name) and the
    text of the exception.  The URL pipeline posts no notice, with or
    without [say]: the run returns [None], and neither the listener nor the
    startup replay ever raises.  The file-upload pipeline posts one notice
    to the thread of the message, naming the file and the text of the
    exception; the run of that file ends as the posting of the notice
    ended, so it raises only what posting the notice raised. *)
Theorem stage_failure_is_contained :
  (forall cfg en url ts ch say client h s e,
      let o := QaBot.process_wav_url cfg en url ts ch say client h s in
      In e (failures (evs o)) ->
      (exists msg, errors_logged (evs o) = [msg]
                   /\ occurs_in url msg /\ occurs_in (exn_str e) msg)
      /\ says (evs o) = []
      /\ res o = Ok None)
  /\
  (forall cfg en event h s, res (QaBot.handle_message cfg en event h s) = Ok tt)
  /\
  (forall cfg en channel_id h s,
      res (QaBot.process_latest_message cfg en channel_id h s) = Ok tt)
  /\
  (forall cfg en ch ts file h s e,
      let o := Extra.handle_file cfg en ch ts file h s in
      let filename := get (f_name file) (lit "unknown.wav") in
      In e (failures (evs o)) ->
      (exists msg, errors_logged (evs o) = [msg]
                   /\ occurs_in filename msg /\ occurs_in (exn_str e) msg)
      /\ occurs_in filename (Extra.error_notice filename e)
      /\ occurs_in (exn_str e) (Extra.error_notice filename e)
      /\ exists r, says (evs o) = [(Extra.error_notice filename e, ts, r)]
                   /\ res o = r).
Proof.
  split; [|split; [|split]].
  - intros cfg en url ts ch say client h s e o Hin.
    destruct (qa_run_paths cfg en url ts ch say client h s)
      as (_ & _ & _ & Hfail & _).
    destruct (Hfail e Hin) as (Hlog & Hsay & Hres).
    split; [|now split].
    eexists. split; [exact Hlog|]. split; occurs.
  - intros cfg en event h s.
    exact (proj1 (qa_handle_message_shape cfg en event h s)).
  - intros cfg en channel_id h s.
    exact (proj1 (qa_replay_shape cfg en channel_id h s)).
  - intros cfg en ch ts file h s e o filename Hin.
    destruct (extra_run_paths cfg en ch ts file h s)
      as (_ & _ & _ & Hfail & _).
    destruct (Hfail e Hin) as (Hlog & r & Hsay & Hres).
    split; [eexists; split; [exact Hlog|]; split; occurs|].
    split; [unfold Extra.error_notice; occurs|].
    split; [unfold Extra.error_notice; occurs|].
    now exists r.
Qed.

Lemma stage_failure_is_contained_witness :
  let o := Extra.handle_file extra_config not_found sample_channel sample_ts upload
             [] empty_state in
  let e := Exn "HTTPError"
             (lit "404 Client Error: Not Found for url: https://files.example/call.wav") in
  says (evs o) = [(Extra.error_notice (lit "call.wav") e, sample_ts, Ok tt)]
  /\ res o = Ok tt.
Proof.
  cbv zeta.
  destruct (proj2 (proj2 (proj2 stage_failure_is_contained)) extra_config not_found
              sample_channel sample_ts upload [] empty_state
              (Exn "HTTPError"
                 (lit "404 Client Error: Not Found for url: https://files.example/call.wav")))
    as (_ & _ & _ & r & Hsay & Hres);
    [vm_compute; left; reflexivity|].
  assert (r = Ok tt) as Hr by (vm_compute in Hsay; congruence).
  split; [rewrite Hsay, Hr | rewrite Hres, Hr]; reflexivity.
Defined.

(** ** Indeterminate grades *)

Lemma grade_loop_no_glyph (table : items) (text : pystr) :
  no_known_glyph table text -> grade_loop table text = [].
Proof.
  rewrite grade_loop_filter.
  induction table as [|[g l] table IH]; intros H; [reflexivity|].
  simpl. destruct (contains g text) eqn:E.
  - exfalso. apply (H g l (or_introl eq_refl)). now apply contains_spec.
  - apply IH. intros g' l' Hin. apply (H g' l'). now right.
Qed.

Lemma no_known_glyph_by_contains (table : items) (text : pystr) :
  forallb (fun kv => negb (contains (fst kv) text)) table = true ->
  no_known_glyph table text.
Proof.
  intros H g l Hin Hocc. rewrite forallb_forall in H.
  specialize (H (g, l) Hin). apply contains_spec in Hocc.
  simpl in H. rewrite Hocc in H. discriminate H.
Qed.

(** C8 as stated fails in the URL pipeline as it is configured
    ([ANALYZE_ONLY = True]): the analysis holds no known glyph, the run
    returns it, and no reply is posted although [say] is at hand. *)
Lemma qa_analyze_only_posts_no_reply :
  let o := QaBot.process_wav_url (qa_config true) (all_fine greeting plain_verdict)
             sample_url sample_ts sample_channel true true [] empty_state in
  analyses (evs o) = [plain_verdict]
  /\ forallb (fun kv => negb (contains (fst kv) plain_verdict)) QaBot.GRADE_EMOJI_MAP
     = true
  /\ QaBot.extract_grade_emojis plain_verdict = []
  /\ res o = Ok (Some plain_verdict)
  /\ says (evs o) = [].
Proof. vm_compute. repeat split; reflexivity. Qed.

(** C8, amended: an analysis that holds no known glyph gives the empty grade
    set on both tables, and no grade reaction is attempted.  The file-upload
    pipeline still posts the threaded reply, which ends with the whole
    analysis; when Slack takes it, it is the only reply, nothing is logged as
    an error and the run ends normally.  The URL pipeline does the same only
    in production mode (with a client, [say], a timestamp and a channel); in
    analyze-only mode, which is the mode every loaded configuration has, it
    posts no reply and adds no reaction, and still returns a value. *)
Theorem indeterminate_grade_is_not_an_error :
  (forall analysis,
      no_known_glyph QaBot.GRADE_EMOJI_MAP analysis ->
      QaBot.extract_grade_emojis analysis = [])
  /\
  (forall analysis,
      no_known_glyph Extra.GRADE_EMOJI_MAP analysis ->
      Extra.extract_grade_emojis analysis = [])
  /\
  (forall cfg en ch ts file h s analysis,
      let o := Extra.handle_file cfg en ch ts file h s in
      let filename := get (f_name file) (lit "unknown.wav") in
      analyses (evs o) = [analysis] ->
      no_known_glyph Extra.GRADE_EMOJI_MAP analysis ->
      reactions_added (evs o) = [Extra.hourglass]
      /\ exists transcript r,
          hd_error (says (evs o))
          = Some (Extra.reply_text filename transcript analysis, ts, r)
          /\ occurs_in analysis (Extra.reply_text filename transcript analysis)
          /\ (r = Ok tt ->
              says (evs o) = [(Extra.reply_text filename transcript analysis, ts, Ok tt)]
              /\ res o = Ok tt /\ errors_logged (evs o) = []))
  /\
  (forall cfg en url ts ch say client h s analysis,
      let o := QaBot.process_wav_url cfg en url ts ch say client h s in
      analyses (evs o) = [analysis] ->
      no_known_glyph QaBot.GRADE_EMOJI_MAP analysis ->
      (exists v, res o = Ok v)
      /\ (QaBot.ANALYZE_ONLY cfg = true ->
          says (evs o) = [] /\ reactions_added (evs o) = [])
      /\ (QaBot.ANALYZE_ONLY cfg = false -> client = true -> say = true ->
          truthy ts = true -> truthy ch = true ->
          reactions_added (evs o) = []
          /\ exists transcript r,
              says (evs o) = [(QaBot.reply_text url transcript analysis, ts, r)]
              /\ occurs_in analysis (QaBot.reply_text url transcript analysis)
              /\ (r = Ok tt ->
                  res o = Ok (Some analysis) /\ errors_logged (evs o) = [])))
  /\
  (forall environ prompt_head prompt_tail cfg,
      QaBot.load_config environ prompt_head prompt_tail = Ok cfg ->
      QaBot.ANALYZE_ONLY cfg = true).
Proof.
  split; [|split; [|split; [|split]]].
  - intros analysis H. now apply grade_loop_no_glyph.
  - intros analysis H. now apply grade_loop_no_glyph.
  - intros cfg en ch ts file h s analysis o filename Han Hno.
    destruct (extra_run_paths cfg en ch ts file h s) as (_ & _ & Hind & _).
    destruct (Hind analysis Han (grade_loop_no_glyph Hno))
      as (Hreact & transcript & r & Hhd & Hok).
    split; [assumption|]. exists transcript, r.
    split; [assumption|]. split; [unfold Extra.reply_text; occurs | assumption].
  - intros cfg en url ts ch say client h s analysis o Han Hno.
    destruct (qa_run_paths cfg en url ts ch say client h s)
      as (_ & _ & Hind & _ & Hv & _ & _ & _ & _ & Hquiet).
    split; [assumption|]. split; [assumption|].
    intros Hao Hcl Hsay Hts Hch.
    destruct (Hind Hao Hcl Hsay Hts Hch analysis Han (grade_loop_no_glyph Hno))
      as (Hreact & transcript & r & Hsays & Hok).
    split; [assumption|]. exists transcript, r.
    split; [assumption|]. split; [unfold QaBot.reply_text; occurs | assumption].
  - intros environ prompt_head prompt_tail cfg. unfold QaBot.load_config.
    destruct (environ "SLACK_BOT_TOKEN"%string); [|discriminate].
    destruct (environ "SLACK_APP_TOKEN"%string); [|discriminate].
    intros [= <-]. reflexivity.
Qed.

Lemma indeterminate_grade_is_not_an_error_witness :
  let o := Extra.handle_file extra_config (all_fine greeting plain_verdict)
             sample_channel sample_ts upload [] empty_state in
  reactions_added (evs o) = [Extra.hourglass]
  /\ exists transcript r,
      hd_error (says (evs o))
      = Some (Extra.reply_text (lit "call.wav") transcript plain_verdict, sample_ts, r)
      /\ occurs_in plain_verdict
           (Extra.reply_text (lit "call.wav") transcript plain_verdict)
      /\ (r = Ok tt ->
          says (evs o)
          = [(Extra.reply_text (lit "call.wav") transcript plain_verdict,
              sample_ts, Ok tt)]
          /\ res o = Ok tt /\ errors_logged (evs o) = []).
Proof.
  apply (proj1 (proj2 (proj2 indeterminate_grade_is_not_an_error)) extra_config
           (all_fine greeting plain_verdict) sample_channel sample_ts upload []
           empty_state plain_verdict).
  - vm_compute. reflexivity.
  - apply no_known_glyph_by_contains. vm_compute. reflexivity.
Defined.

(** ** One run per message *)

Lemma length_singleton {A} (l : list A) : (exists x, l = [x]) -> (List.length l <= 1)%nat.
Proof. intros [x ->]. apply le_n. Qed.

(** C9: in the URL pipeline the listener starts at most one run per message,
    whatever the number of URLs of the message: a message that is not
    dropped and holds URLs starts exactly one run, which fetches nothing but
    the first extracted URL; a message without URL starts none.  The startup
    replay asks Slack once for the history of the channel, with limit 20,
    and starts at most one run: on the first URL of the first message, in
    the order Slack returned them (newest first), that holds a URL; when no
    message holds one, or the history cannot be fetched, it starts none. *)
Theorem one_run_per_message :
  (forall cfg en event h s first rest,
      let o := QaBot.handle_message cfg en event h s in
      QaBot.extract_wav_urls (get (m_text event) []) = first :: rest ->
      (List.length (runs_started (evs o)) <= 1)%nat
      /\ (fetched (evs o) = [] \/ fetched (evs o) = [first])
      /\ (dropped cfg event = false -> exists r, runs_started (evs o) = [r]))
  /\
  (forall cfg en event h s,
      let o := QaBot.handle_message cfg en event h s in
      QaBot.extract_wav_urls (get (m_text event) []) = [] ->
      runs_started (evs o) = [] /\ fetched (evs o) = [])
  /\
  (forall cfg en channel_id h s,
      let o := QaBot.process_latest_message cfg en channel_id h s in
      (List.length (runs_started (evs o)) <= 1)%nat
      /\ exists r,
          histories (evs o) = [(channel_id, 20, r)]
          /\ match r with
             | Ok messages =>
                 match find has_wav_url messages with
                 | Some msg =>
                     (exists run, runs_started (evs o) = [run])
                     /\ (fetched (evs o) = []
                         \/ fetched (evs o)
                            = [hd [] (QaBot.extract_wav_urls (get (m_text msg) []))])
                 | None => runs_started (evs o) = [] /\ fetched (evs o) = []
                 end
             | Err _ => runs_started (evs o) = [] /\ fetched (evs o) = []
             end).
Proof.
  split; [|split].
  - intros cfg en event h s first rest o Hurls.
    destruct (qa_handle_message_shape cfg en event h s) as (_ & Hshape).
    fold o in Hshape. rewrite Hurls in Hshape. fold (dropped cfg event) in Hshape.
    destruct (dropped cfg event).
    + rewrite Hshape. split; [apply le_0_n|]. split; [now left | discriminate].
    + destruct Hshape as (Hrun & Hfetch).
      split; [now apply length_singleton|]. split; [assumption|]. intros _. assumption.
  - intros cfg en event h s o Hurls.
    destruct (qa_handle_message_shape cfg en event h s) as (_ & Hshape).
    fold o in Hshape. now rewrite Hurls in Hshape.
  - intros cfg en channel_id h s o.
    destruct (qa_replay_shape cfg en channel_id h s) as (_ & r & Hhist & Hscan).
    fold o in Hhist, Hscan.
    split.
    + destruct r as [messages|e].
      * unfold scan_report in Hscan. destruct (find has_wav_url messages).
        -- now apply length_singleton.
        -- destruct Hscan as [-> _]. apply le_0_n.
      * destruct Hscan as [-> _]. apply le_0_n.
    + exists r. split; [assumption|]. destruct r; exact Hscan.
Qed.

Lemma one_run_per_message_witness :
  let o := QaBot.handle_message (qa_config true) (with_history []) two_urls []
             empty_state in
  (List.length (runs_started (evs o)) <= 1)%nat
  /\ (fetched (evs o) = [] \/ fetched (evs o) = [lit "https://x.example/a.wav"])
  /\ (dropped (qa_config true) two_urls = false ->
      exists r, runs_started (evs o) = [r]).
Proof.
  apply (proj1 one_run_per_message (qa_config true) (with_history []) two_urls []
           empty_state (lit "https://x.example/a.wav") [lit "https://x.example/b.wav"]).
  vm_compute. reflexivity.
Defined.

(** ** The channel restriction *)

Lemma eqb_neq (a b : pystr) : a <> b -> PyStr.eqb a b = false.
Proof. intros H. unfold PyStr.eqb. now destruct (list_eq_dec N.eq_dec a b). Qed.

Lemma eqb_refl (a : pystr) : PyStr.eqb a a = true.
Proof. unfold PyStr.eqb. now destruct (list_eq_dec N.eq_dec a a). Qed.

Lemma honoured_test (raw : pystr) :
  startswith (lit "C") raw && (5 <? len raw) = true <-> honoured raw.
Proof.
  unfold honoured, len. rewrite andb_true_iff, N.ltb_lt, startswith_spec.
  split; intros [H1 H2]; (split; [exact H1 | lia]).
Qed.

(** C10: the channel restriction of the URL bot is sanitized when the
    configuration is loaded: [QA_CHANNEL_ID] is the configured value when it
    starts with [C] and is longer than 5 characters, and the empty string for
    every other value.  With the empty restriction the listener processes a
    message of any channel (one run when it holds a URL); with a restriction
    in force it drops, without any effect, the messages of other channels and
    processes those of the configured one. *)
Theorem channel_restriction_is_sanitized :
  (forall raw, honoured raw -> QaBot.sanitize_channel raw = raw)
  /\
  (forall raw, ~ honoured raw -> QaBot.sanitize_channel raw = [])
  /\
  (forall environ prompt_head prompt_tail cfg,
      QaBot.load_config environ prompt_head prompt_tail = Ok cfg ->
      QaBot.QA_CHANNEL_ID cfg
      = QaBot.sanitize_channel (get (environ "QA_CHANNEL_ID"%string) []))
  /\
  (forall cfg en event h s first rest,
      let o := QaBot.handle_message cfg en event h s in
      QaBot.QA_CHANNEL_ID cfg = [] ->
      QaBot.extract_wav_urls (get (m_text event) []) = first :: rest ->
      exists r, runs_started (evs o) = [r])
  /\
  (forall cfg en event h s,
      let o := QaBot.handle_message cfg en event h s in
      QaBot.QA_CHANNEL_ID cfg <> [] ->
      get (m_channel event) [] <> QaBot.QA_CHANNEL_ID cfg ->
      res o = Ok tt /\ evs o = [])
  /\
  (forall cfg en event h s first rest,
      let o := QaBot.handle_message cfg en event h s in
      get (m_channel event) [] = QaBot.QA_CHANNEL_ID cfg ->
      QaBot.extract_wav_urls (get (m_text event) []) = first :: rest ->
      exists r, runs_started (evs o) = [r]).
Proof.
  split; [|split; [|split; [|split; [|split]]]].
  - intros raw H. apply honoured_test in H. unfold QaBot.sanitize_channel.
    now rewrite H.
  - intros raw H. unfold QaBot.sanitize_channel.
    destruct (startswith (lit "C") raw && (5 <? len raw)) eqn:E; [|reflexivity].
    exfalso. apply H. now apply honoured_test.
  - intros environ prompt_head prompt_tail cfg. unfold QaBot.load_config.
    destruct (environ "SLACK_BOT_TOKEN"%string); [|discriminate].
    destruct (environ "SLACK_APP_TOKEN"%string); [|discriminate].
    intros [= <-]. reflexivity.
  - intros cfg en event h s first rest o Hid Hurls.
    destruct (qa_handle_message_shape cfg en event h s) as (_ & Hshape).
    fold o in Hshape. rewrite Hurls, Hid in Hshape. exact (proj1 Hshape).
  - intros cfg en event h s o Hid Hch. subst o. unfold QaBot.handle_message.
    cbv zeta. rewrite (eqb_neq Hch).
    destruct (QaBot.QA_CHANNEL_ID cfg); [contradiction|]. split; reflexivity.
  - intros cfg en event h s first rest o Hch Hurls.
    destruct (qa_handle_message_shape cfg en event h s) as (_ & Hshape).
    fold o in Hshape. rewrite Hurls, Hch, eqb_refl, andb_false_r in Hshape.
    exact (proj1 Hshape).
Qed.

Lemma channel_restriction_is_sanitized_witness :
  QaBot.sanitize_channel (lit "general") = []
  /\ QaBot.sanitize_channel sample_channel = sample_channel
  /\ (let o := QaBot.handle_message (restricted_config sample_channel)
                 (with_history []) elsewhere [] empty_state in
      res o = Ok tt /\ evs o = []).
Proof.
  split; [|split].
  - apply (proj1 (proj2 channel_restriction_is_sanitized) (lit "general")).
    intros [[rest H] _]. vm_compute in H. discriminate H.
  - apply (proj1 channel_restriction_is_sanitized sample_channel).
    split; [eexists; vm_compute; reflexivity | vm_compute; lia].
  - apply (proj1 (proj2 (proj2 (proj2 (proj2 channel_restriction_is_sanitized))))
             (restricted_config sample_channel) (with_history []) elsewhere []
             empty_state);
      vm_compute; intros H; discriminate H.
Defined.

(** * Further properties of the code *)

(** ** Configuration *)

Lemma eqb_true_iff (a b : pystr) : PyStr.eqb a b = true <-> a = b.
Proof.
  unfold PyStr.eqb. destruct (list_eq_dec N.eq_dec a b); split; congruence.
Qed.

(** ** Text helpers *)

Lemma lower_endswith_spec (suffix s : pystr) :
  lower_endswith suffix s = true
  <-> exists stem ext, s = stem ++ ext /\ map lower_ascii ext = suffix.
Proof.
  unfold lower_endswith. rewrite startswith_spec. split.
  - intros [post H].
    assert (map lower_ascii s = rev post ++ suffix) as Hs.
    { rewrite <- (rev_involutive (map lower_ascii s)), <- map_rev, H, rev_app_distr.
      now rewrite rev_involutive. }
    apply map_eq_app in Hs as (stem & ext & -> & _ & Hext). now exists stem, ext.
  - intros (stem & ext & -> & <-). exists (rev (map lower_ascii stem)).
    now rewrite rev_app_distr, map_app, !map_rev.
Qed.

(** X2: the upload filter of [extra.py] keeps a file exactly when its name
    ends with [.wav] in any letter case or its MIME type is [audio/wav]
    (in that very spelling); a missing key counts as the empty string. *)
Theorem is_wav_spec (f : file_info) :
  Extra.is_wav f = true
  <-> (exists stem ext,
          get (f_name f) [] = stem ++ ext /\ map lower_ascii ext = lit ".wav")
      \/ get (f_mimetype f) [] = lit "audio/wav".
Proof.
  unfold Extra.is_wav. rewrite orb_true_iff, lower_endswith_spec, eqb_true_iff.
  reflexivity.
Qed.

(** X3: the transcript shown in a log line or a reply is cut at [n]
    characters: a transcript of at most [n] characters is shown whole, a
    longer one as its first [n] characters followed by three dots, so never
    more than [n + 3] characters. *)
Theorem excerpt_bounds (n : N) (s : pystr) :
  (len s <= n -> QaBot.excerpt n s = s)
  /\ (n < len s ->
      QaBot.excerpt n s = upto n s +++ lit "..."
      /\ len (QaBot.excerpt n s) = n + 3
      /\ exists rest, s = upto n s ++ rest)
  /\ len (QaBot.excerpt n s) <= n + 3.
Proof.
  unfold QaBot.excerpt, upto, len.
  assert (forall m, (List.length s <= m)%nat -> firstn m s = s) as Hall
    by (intros m; apply firstn_all2).
  split; [|split].
  - intros H. apply N.ltb_ge in H as E. rewrite E, app_nil_r. apply Hall. lia.
  - intros H. apply N.ltb_lt in H as E. rewrite E. split; [reflexivity|].
    split.
    + rewrite length_app, firstn_length_le by lia. cbn [lit List.length]. simpl. lia.
    + exists (skipn (N.to_nat n) s). now rewrite firstn_skipn.
  - destruct (n <? N.of_nat (List.length s)) eqn:E.
    + apply N.ltb_lt in E. rewrite length_app, firstn_length_le by lia. simpl. lia.
    + apply N.ltb_ge in E. rewrite app_nil_r, Hall by lia. lia.
Qed.

Lemma excerpt_bounds_witness :
  QaBot.excerpt 5 (lit "good morning") = lit "good ..."
  /\ len (QaBot.excerpt 5 (lit "good morning")) = 8.
Proof.
  destruct (proj1 (proj2 (excerpt_bounds 5 (lit "good morning")))) as (H1 & H2 & _).
  - vm_compute. reflexivity.
  - split; [rewrite H1; reflexivity | exact H2].
Defined.

(** ** Extracted URLs *)

Lemma findall_from_sound (r : Re.regex) (u : pystr) :
  forall (s : pystr) (skip : nat),
    In u (Re.findall_from r s skip) ->
    exists pre s' rest g,
      s = pre ++ s' /\ Re.match_at r s' = Some (rest, g)
      /\ u = Re.reported r s' rest g.
Proof.
  induction s as [|c s IH]; intros skip; simpl.
  - destruct skip; [|contradiction].
    destruct (Re.match_at r []) as [[rest g]|] eqn:Hm; [|contradiction].
    intros [<-|[]]. exists [], [], rest, g. repeat split. assumption.
  - destruct skip as [|n].
    + destruct (Re.match_at r (c :: s)) as [[rest g]|] eqn:Hm.
      * intros [<-|Hin].
        -- exists [], (c :: s), rest, g. repeat split. assumption.
        -- apply IH in Hin as (pre & s' & rest' & g' & -> & Hm' & ->).
           exists (c :: pre), s', rest', g'. repeat split. assumption.
      * intros Hin. apply IH in Hin as (pre & s' & rest' & g' & -> & Hm' & ->).
        exists (c :: pre), s', rest', g'. repeat split. assumption.
    + intros Hin. apply IH in Hin as (pre & s' & rest' & g' & -> & Hm' & ->).
      exists (c :: pre), s', rest', g'. repeat split. assumption.
Qed.

Lemma firstn_matched (w rest : pystr) :
  firstn (List.length (w ++ rest) - List.length rest) (w ++ rest) = w.
Proof.
  rewrite length_app, Nat.add_sub, firstn_app, Nat.sub_diag, firstn_all.
  cbn [firstn]. apply app_nil_r.
Qed.

(** A pattern [a(G)b]: group 1 is the text between the two characters. *)
Lemma match_at_wrapped (a b : Re.atom) (G : Re.regex) (s rest : pystr)
    (g : option pystr) :
  Re.match_at (Re.Cat (Re.Atom a) (Re.Cat (Re.Group G) (Re.Atom b))) s
  = Some (rest, g) ->
  exists x w y, s = x :: w ++ y :: rest /\ g = Some w /\ lang G w.
Proof.
  unfold Re.match_at. cbn [Re.rmatch].
  destruct s as [|x s1]; [discriminate|].
  destruct (Re.atom_match a x); [|discriminate].
  intros H. apply rmatch_sound in H as (w & s' & g' & -> & Hk & Hw).
  cbv beta in Hk. destruct s' as [|y s'']; [discriminate|].
  destruct (Re.atom_match b y); [|discriminate].
  injection Hk as <- <-. exists x, w, y. rewrite firstn_matched. now repeat split.
Qed.

Lemma lower_ascii_fixed (x c : N) :
  lower_ascii x = c -> (c < 0x61 \/ 0x7A < c) -> x = c.
Proof.
  unfold lower_ascii.
  destruct ((0x41 <=? x) && (x <=? 0x5A)) eqn:E; [|easy].
  apply andb_true_iff in E as [E1 E2]. apply N.leb_le in E1, E2.
  intros H Hc. lia.
Qed.

Lemma lower_ascii_letter (x c : N) :
  lower_ascii x = c -> 0x61 <= c <= 0x7A -> x = c \/ x = c - 32.
Proof.
  unfold lower_ascii.
  destruct ((0x41 <=? x) && (x <=? 0x5A)); intros H Hc; [right; lia | now left].
Qed.

Lemma lang_scheme (w : pystr) : lang QaBot.scheme w -> url_scheme w.
Proof.
  unfold QaBot.scheme. cbn.
  intros (w1 & w2 & -> & (wh & r1 & -> & (h & -> & Hh)
            & (wt & r2 & -> & (t1 & -> & Ht1)
            & (wt' & wp & -> & (t2 & -> & Ht2) & (p & -> & Hp))))
          & (ws & w3 & -> & Hs
            & (wc & r3 & -> & (c & -> & Hc)
            & (wl & wl' & -> & (l1 & -> & Hl1) & (l2 & -> & Hl2))))).
  apply lit_match_plain in Hh, Ht1, Ht2, Hp, Hc, Hl1, Hl2;
    try (vm_compute; discriminate).
  apply lower_ascii_fixed in Hc, Hl1, Hl2; try (vm_compute; left; reflexivity).
  subst c l1 l2.
  exists [h; t1; t2; p], ws. cbn. rewrite Hh, Ht1, Ht2, Hp.
  split; [reflexivity|]. split; [reflexivity|].
  destruct Hs as [->|(x & -> & Hx)]; [now left | right].
  unfold Re.lit_match in Hx. cbn in Hx. rewrite !orb_false_r in Hx.
  apply orb_true_iff in Hx as [Hx|Hx].
  - apply N.eqb_eq in Hx.
    apply lower_ascii_letter in Hx as [->| ->]; [| |vm_compute; split; discriminate].
    + now left.
    + right. now left.
  - apply N.eqb_eq in Hx. subst x. right. now right.
Qed.

Lemma notin_bar_gt (items : list Re.item) (body : pystr) :
  In (Re.IChr 0x7C) items -> In (Re.IChr 0x3E) items ->
  Forall (fun x => Re.atom_match (Re.NotIn items) x = true) body ->
  Forall (fun c => c <> 0x7C /\ c <> 0x3E) body.
Proof.
  intros Hbar Hgt. apply Forall_impl. intros c Hc. cbn in Hc.
  apply negb_true_iff in Hc.
  split; intros ->.
  - assert (existsb (fun i => Re.item_match i 0x7C) items = true) as Hex
      by (apply existsb_exists; exists (Re.IChr 0x7C); now split).
    congruence.
  - assert (existsb (fun i => Re.item_match i 0x3E) items = true) as Hex
      by (apply existsb_exists; exists (Re.IChr 0x3E); now split).
    congruence.
Qed.

Lemma lang_url_parts (items : list Re.item) (w : pystr) :
  In (Re.IChr 0x7C) items -> In (Re.IChr 0x3E) items ->
  lang (Re.Cat QaBot.scheme
          (Re.Cat (Re.Plus (Re.NotIn items)) (Re.word (lit ".wav")))) w ->
  wav_url w.
Proof.
  intros Hbar Hgt. cbn [lang].
  intros (sch & w2 & -> & Hsch & (body & ext & -> & (Hne & Hall) & Hext)).
  exists sch, body, ext. split; [reflexivity|].
  split; [now apply lang_scheme|]. split; [assumption|].
  split; [now apply lang_dot_wav|]. now apply (@notin_bar_gt items body Hbar Hgt).
Qed.

(** X4: every URL that [extract_wav_urls] returns stands in the text; it
    is made of [http://] or [https://] (in any letter case), a body that is
    not empty and holds no [|] and no [>] (so never the label of a wrapped
    link), and the extension [.wav] in any letter case. *)
Theorem extract_wav_urls_sound (text u : pystr) :
  In u (QaBot.extract_wav_urls text) -> occurs_in u text /\ wav_url u.
Proof.
  unfold QaBot.extract_wav_urls, Re.findall.
  destruct (Re.findall_from QaBot.SLACK_LINK_PATTERN text 0) as [|l0 ls] eqn:E.
  - intros Hin. apply findall_from_sound in Hin as (pre & s' & rest & g & -> & Hm & ->).
    apply match_at_sound in Hm as Hw. destruct Hw as (w & -> & Hw).
    unfold Re.reported. cbn [Re.has_group QaBot.WAV_URL_PATTERN]. 
    change (Re.has_group QaBot.WAV_URL_PATTERN) with false. cbv iota.
    rewrite firstn_matched. split; [now exists pre, rest|].
    apply (@lang_url_parts [Re.ISpace; Re.IChr 0x3C; Re.IChr 0x3E; Re.IChr 0x7C]);
      [cbn; auto | cbn; auto | exact Hw].
  - rewrite <- E. intros Hin.
    apply findall_from_sound in Hin as (pre & s' & rest & g & -> & Hm & ->).
    apply match_at_wrapped in Hm as (x & w & y & -> & -> & Hw).
    unfold Re.reported. change (Re.has_group QaBot.SLACK_LINK_PATTERN) with true.
    cbn [get]. split.
    + exists (pre ++ [x]), (y :: rest). now rewrite <- app_assoc.
    + apply (@lang_url_parts [Re.IChr 0x7C; Re.IChr 0x3E]);
        [cbn; auto | cbn; auto | exact Hw].
Qed.

Lemma extract_wav_urls_sound_witness :
  occurs_in (lit "https://x.example/call123.wav")
    (lit "Check this call <https://x.example/call123.wav|recording.wav>")
  /\ wav_url (lit "https://x.example/call123.wav").
Proof.
  apply extract_wav_urls_sound. vm_compute. left. reflexivity.
Defined.

(** ** The two glyph tables *)

(** X5: whatever the analysis, every grade [extra.py] finds [qa_bot.py] finds
    too, under the same name; [extra.py] never reports [fire],
    [ear_with_hearing_aid] or [x], whose glyphs its table lacks. *)
Theorem extra_grades_within_qa_grades (text label : pystr) :
  In label (Extra.extract_grade_emojis text) ->
  In label (QaBot.extract_grade_emojis text)
  /\ label <> lit "fire" /\ label <> lit "ear_with_hearing_aid"
  /\ label <> lit "x".
Proof.
  intros Hin.
  assert (glyph_set_of Extra.GRADE_EMOJI_MAP Extra.extract_grade_emojis) as HE
    by (apply grade_loop_glyph_set; apply NoDup_by_eqb; vm_compute; reflexivity).
  assert (glyph_set_of QaBot.GRADE_EMOJI_MAP QaBot.extract_grade_emojis) as HQ
    by (apply grade_loop_glyph_set; apply NoDup_by_eqb; vm_compute; reflexivity).
  apply (proj1 (HE text)) in Hin as (glyph & Hg & Hocc).
  unfold Extra.GRADE_EMOJI_MAP in Hg. cbn [In] in Hg.
  repeat (destruct Hg as [Hg|Hg]; [injection Hg as <- <-|]); try contradiction;
    (split; [apply (proj1 (HQ text)); eexists; split; [|exact Hocc]; cbn; auto 12
            | repeat split; discriminate]).
Qed.

Lemma extra_grades_within_qa_grades_witness :
  In (lit "heart") (QaBot.extract_grade_emojis (Glyph.heart +++ lit " irritated"))
  /\ lit "heart" <> lit "fire" /\ lit "heart" <> lit "ear_with_hearing_aid"
  /\ lit "heart" <> lit "x".
Proof.
  apply (@extra_grades_within_qa_grades (Glyph.heart +++ lit " irritated") (lit "heart")).
  vm_compute. left. reflexivity.
Defined.

(** ** Whisper transcription *)

(** X6: [transcribe_wav] of [qa_bot.py] calls Whisper once, on the given
    file, with language [en] and [fp16=False], and changes nothing else.
    It raises what Whisper raises; otherwise it returns the text of the
    result without leading or trailing whitespace (stripping it again
    changes nothing), the empty string when the result has no text. *)
Theorem qa_transcribe_wav_spec (en : env) (wav_path : pystr) (h : list event)
    (s : state) :
  let o := QaBot.transcribe_wav en wav_path h s in
  whisper_calls (evs o) = [(wav_path, lit "en", false)]
  /\ List.length (evs o) = 1%nat
  /\ st o = s
  /\ (forall e, failures (evs o) = [e] -> res o = Err e)
  /\ (forall r, whispered (evs o) = [r] ->
                res o = Ok (strip (get r []))
                /\ strip (strip (get r [])) = strip (get r []))
  /\ (whispered (evs o) = [None] -> res o = Ok []).
Proof.
  wp_start (QaBot.transcribe_wav en wav_path) h s.
  unfold QaBot.transcribe_wav. repeat wp_step.
  - cbn. split; [reflexivity|]. split; [reflexivity|]. split; [reflexivity|].
    split; [discriminate|]. split.
    + intros r0 [= <-]. split; [reflexivity | apply strip_idem].
    + intros [= ->]. reflexivity.
  - cbn. split; [reflexivity|]. split; [reflexivity|]. split; [reflexivity|].
    split; [now intros e [= <-]|]. split; [discriminate | discriminate].
Qed.

Lemma qa_transcribe_wav_spec_witness :
  res (QaBot.transcribe_wav (all_fine (lit "  hello there ") []) (lit "/tmp/a.wav")
         [] empty_state)
  = Ok (lit "hello there").
Proof.
  destruct (qa_transcribe_wav_spec (all_fine (lit "  hello there ") [])
              (lit "/tmp/a.wav") [] empty_state) as (_ & _ & _ & _ & H & _).
  destruct (H (Some (lit "  hello there ")) eq_refl) as [-> _]. reflexivity.
Defined.

(** ** Downloads *)

Lemma error_status_client (code : N) :
  (400 <=? code) && (code <? 500) = true -> error_status code.
Proof.
  intros E. apply andb_true_iff in E as [E1 E2].
  apply N.leb_le in E1. apply N.ltb_lt in E2. unfold error_status. lia.
Qed.

Lemma error_status_server (code : N) :
  (500 <=? code) && (code <? 600) = true -> error_status code.
Proof.
  intros E. apply andb_true_iff in E as [E1 E2].
  apply N.leb_le in E1. apply N.ltb_lt in E2. unfold error_status. lia.
Qed.

Lemma error_status_neither (code : N) :
  (400 <=? code) && (code <? 500) = false ->
  (500 <=? code) && (code <? 600) = false -> ~ error_status code.
Proof.
  intros E1 E2 [H1 H2].
  destruct (code <? 500) eqn:E.
  - rewrite andb_true_r in E1. apply N.leb_gt in E1. lia.
  - apply N.ltb_ge in E. rewrite andb_false_iff in E2.
    destruct E2 as [E2|E2]; [apply N.leb_gt in E2 | apply N.ltb_ge in E2]; lia.
Qed.

Ltac download_leaf :=
  unfold download_outcome, requests, responses, writes, failures;
  cbn [pick stage_failure];
  repeat match goal with
         | H : ?b = _ |- context [if ?b then _ else _] => rewrite H
         end;
  split; [reflexivity|];
  split; [first [left; reflexivity | right; eexists; reflexivity]|];
  split;
  [ first [ discriminate | intros _; split; [reflexivity | eexists; reflexivity] ]
  | let resp := fresh "resp" in let Hresp := fresh "Hresp" in
    intros resp Hresp;
    first
      [ discriminate Hresp
      | injection Hresp as <-;
        split;
        [ let Hbad := fresh "Hbad" in
          intros Hbad;
          first
            [ exfalso; eapply error_status_neither; eassumption
            | split; [reflexivity|]; eexists; split; reflexivity ]
        | let Hgood := fresh "Hgood" in
          intros Hgood;
          first
            [ exfalso; apply Hgood;
              first [ eapply error_status_client; eassumption
                    | eapply error_status_server; eassumption ]
            | split; [reflexivity|];
              first [ left; reflexivity
                    | right; eexists; split; reflexivity ] ] ] ] ].

Lemma wp_qa_download_outcome en (url dest : pystr) h s (Q : out unit -> Prop) :
  (forall l r fs,
      download_report url r l -> download_outcome url None dest r l ->
      (r = Ok tt -> In dest fs) ->
      Q (Out r l (State fs (tmp_path s)))) ->
  wp (QaBot.download_wav en url dest) h s Q.
Proof.
  destruct s as [fs tp]. intros HQ. unfold QaBot.download_wav.
  wp_run;
    (apply HQ;
     [ unfold download_report, fetched, failures; cbn [pick stage_failure];
       repeat match goal with
              | H : ?b = _ |- context [if ?b then _ else _] => rewrite H
              end;
       (split; [kind_list | split; reflexivity])
     | download_leaf
     | first [discriminate | intros _; now left] ]).
Qed.

Lemma wp_extra_download_outcome cfg en (url dest : pystr) h s (Q : out unit -> Prop) :
  (forall l r fs,
      download_report url r l ->
      download_outcome url (Some (lit "Bearer " +++ Extra.SLACK_BOT_TOKEN cfg)) dest r l ->
      (r = Ok tt -> In dest fs) ->
      Q (Out r l (State fs (tmp_path s)))) ->
  wp (Extra.download_slack_file cfg en url dest) h s Q.
Proof.
  destruct s as [fs tp]. intros HQ. unfold Extra.download_slack_file.
  wp_run;
    (apply HQ;
     [ unfold download_report, fetched, failures; cbn [pick stage_failure];
       repeat match goal with
              | H : ?b = _ |- context [if ?b then _ else _] => rewrite H
              end;
       (split; [kind_list | split; reflexivity])
     | download_leaf
     | first [discriminate | intros _; now left] ]).
Qed.

(** X7: a download asks for the URL once, with a timeout of 120 seconds;
    [qa_bot.py] sends no [Authorization] header with it, [extra.py] sends the
    bot token as a bearer.  When the request fails or the answer has an error
    status (400 to 599) nothing is written to the destination and the
    download raises, for an error status an [HTTPError]; otherwise the body of the response, and nothing else, is written to the
    destination, which exists when the download returns. *)
Theorem download_spec :
  (forall en url dest h s,
      let o := QaBot.download_wav en url dest h s in
      download_outcome url None dest (res o) (evs o)
      /\ (res o = Ok tt -> In dest (files (st o))))
  /\
  (forall cfg en url dest h s,
      let o := Extra.download_slack_file cfg en url dest h s in
      download_outcome url (Some (lit "Bearer " +++ Extra.SLACK_BOT_TOKEN cfg)) dest
        (res o) (evs o)
      /\ (res o = Ok tt -> In dest (files (st o)))).
Proof.
  split.
  - intros en url dest h s.
    wp_start (QaBot.download_wav en url dest) h s.
    apply wp_qa_download_outcome. intros l r fs _ Hout Hfs. now split.
  - intros cfg en url dest h s.
    wp_start (Extra.download_slack_file cfg en url dest) h s.
    apply wp_extra_download_outcome. intros l r fs _ Hout Hfs. now split.
Qed.

Lemma download_spec_witness :
  let o := QaBot.download_wav not_found sample_url (lit "/tmp/a.wav") [] empty_state in
  requests (evs o) = [(sample_url, None, 120)]
  /\ writes (evs o) = []
  /\ exists e, res o = Err e /\ exn_class e = "HTTPError"%string.
Proof.
  cbv zeta.
  destruct (proj1 download_spec not_found sample_url (lit "/tmp/a.wav") [] empty_state)
    as ((Hreq & _ & _ & Hresp) & _).
  destruct (Hresp (Response 404 (lit "Not Found") []) eq_refl) as [Hbad _].
  destruct Hbad as (Hw & He); [unfold error_status; cbn; lia|].
  repeat split; assumption.
Defined.

(** ** Reactions *)

Lemma wp_react_loop_at (body : pystr -> M unit) (en : env) (channel ts : pystr)
    (ok_msg : pystr -> pystr) (ko_msg : pystr -> exn -> pystr) :
  (forall name, body name =
     try_except (reactions_add en channel name ts ;; logger INFO (ok_msg name))
                (fun e => logger WARNING (ko_msg name e))) ->
  forall names h s (Q : out unit -> Prop),
    (forall evs',
        reactions_at evs' = map (fun name => (channel, name, ts)) names ->
        reactions_added evs' = names -> Forall reaction_event evs' ->
        Q (Out (Ok tt) evs' s)) ->
    wp (for_each names body) h s Q.
Proof.
  intros Hbody names. induction names as [|name names IH]; intros h s Q HQ; cbn [for_each].
  - wp_step. apply HQ; constructor.
  - wp_step. rewrite Hbody. repeat wp_step;
      (apply IH; intros evs' Ha Hn Hk; cbn [app]; apply HQ;
       [ cbn; now rewrite Ha
       | cbn; now rewrite Hn
       | repeat constructor; [discriminate | assumption] ]).
Qed.

Lemma wp_qa_react_all_at en channel ts names h s (Q : out unit -> Prop) :
  (forall evs',
      reactions_at evs' = map (fun name => (channel, name, ts)) names ->
      reactions_added evs' = names -> Forall reaction_event evs' ->
      Q (Out (Ok tt) evs' s)) ->
  wp (QaBot.react_all en channel ts names) h s Q.
Proof.
  unfold QaBot.react_all. eapply wp_react_loop_at. intros name. reflexivity.
Qed.

Lemma wp_extra_react_all_at en channel ts names h s (Q : out unit -> Prop) :
  (forall evs',
      reactions_at evs' = map (fun name => (channel, name, ts)) names ->
      reactions_added evs' = names -> Forall reaction_event evs' ->
      Q (Out (Ok tt) evs' s)) ->
  wp (Extra.react_all en channel ts names) h s Q.
Proof.
  unfold Extra.react_all. eapply wp_react_loop_at. intros name. reflexivity.
Qed.

(** X8: the reaction loop of both bots tries every grade, in the order of
    the list, on the given channel and message, whether or not an earlier
    reaction failed: a failure is logged below the ERROR level and the loop
    never raises, posts nothing and leaves the state as it was. *)
Theorem react_all_tries_every_grade :
  (forall en channel ts names h s,
      let o := QaBot.react_all en channel ts names h s in
      res o = Ok tt /\ st o = s
      /\ reactions_at (evs o) = map (fun name => (channel, name, ts)) names
      /\ says (evs o) = [] /\ errors_logged (evs o) = [])
  /\
  (forall en channel ts names h s,
      let o := Extra.react_all en channel ts names h s in
      res o = Ok tt /\ st o = s
      /\ reactions_at (evs o) = map (fun name => (channel, name, ts)) names
      /\ says (evs o) = [] /\ errors_logged (evs o) = []).
Proof.
  split; intros en channel ts names h s.
  - wp_start (QaBot.react_all en channel ts names) h s.
    apply wp_qa_react_all_at. intros evs' Ha _ Hk. cbn [res evs st].
    destruct (reaction_events_quiet Hk) as (Hs & _ & _ & _ & _ & He & _).
    repeat split; assumption.
  - wp_start (Extra.react_all en channel ts names) h s.
    apply wp_extra_react_all_at. intros evs' Ha _ Hk. cbn [res evs st].
    destruct (reaction_events_quiet Hk) as (Hs & _ & _ & _ & _ & He & _).
    repeat split; assumption.
Qed.

(** ** Reading more of a trace *)

Ltac unfold_picks ::=
  unfold says, reactions_added, generated, unlinks, temp_files, whispered,
    fetched, errors_logged, recognized, failures, splits, recognize_calls,
    analyses, runs_started, histories, requests, responses, writes,
    whisper_calls, loaded, reactions_at, reactions_removed, prompts_to,
    printed, warnings in *.

Lemma reaction_events_silent (l : list event) :
  Forall reaction_event l ->
  requests l = [] /\ responses l = [] /\ writes l = [] /\ whisper_calls l = []
  /\ loaded l = [] /\ reactions_removed l = [] /\ prompts_to l = []
  /\ printed l = [].
Proof. intros Hk. quiet_tac Hk. Qed.

Lemma download_events_silent (l : list event) :
  Forall download_event l ->
  whisper_calls l = [] /\ loaded l = [] /\ reactions_at l = []
  /\ reactions_removed l = [] /\ prompts_to l = [] /\ printed l = [].
Proof. intros Hk. quiet_tac Hk. Qed.

Lemma recognition_events_silent (l : list event) :
  Forall recognition_event l ->
  requests l = [] /\ responses l = [] /\ writes l = [] /\ whisper_calls l = []
  /\ reactions_at l = [] /\ reactions_removed l = [] /\ prompts_to l = [].
Proof. intros Hk. quiet_tac Hk. Qed.

Ltac quiet Hk ::=
  let Hq := fresh "Hq" in
  let Hq' := fresh "Hq" in
  first [ pose proof (reaction_events_quiet Hk) as Hq;
          pose proof (reaction_events_silent Hk) as Hq'
        | pose proof (download_events_quiet Hk) as Hq;
          pose proof (download_events_silent Hk) as Hq'
        | pose proof (recognition_events_quiet Hk) as Hq;
          pose proof (recognition_events_silent Hk) as Hq' ];
  unfold says, reactions_added, generated, unlinks, temp_files, whispered,
    fetched, errors_logged, recognized, failures, splits, recognize_calls,
    analyses, runs_started, histories, requests, responses, writes,
    whisper_calls, loaded, reactions_at, reactions_removed, prompts_to,
    printed, warnings in Hq, Hq';
  decompose [and] Hq; decompose [and] Hq'; clear Hq Hq'.

Ltac simpl_picks_goal :=
  repeat first
    [ progress cbn [pick app stage_failure map_result]
    | rewrite pick_app
    | rewrite app_nil_r
    | match goal with
      | H : ?b = _ |- context [if ?b then _ else _] => rewrite H
      | H : pick ?f ?l = _ |- context [pick ?f ?l] => rewrite H
      end ].

Ltac digest_one f Ev Htrace ::=
  let H := fresh "Hd" in
  eassert (H : f Ev = _) by (rewrite Htrace; unfold f; simpl_picks_goal; reflexivity).

Ltac digest ::=
  lazymatch goal with
  | |- _ (Out _ ?E _) =>
      let Ev := fresh "trace" in
      let Htrace := fresh "Htrace" in
      remember E as Ev eqn:Htrace;
      digest_one says Ev Htrace; digest_one reactions_added Ev Htrace;
      digest_one generated Ev Htrace; digest_one unlinks Ev Htrace;
      digest_one temp_files Ev Htrace; digest_one whispered Ev Htrace;
      digest_one fetched Ev Htrace; digest_one errors_logged Ev Htrace;
      digest_one recognized Ev Htrace; digest_one failures Ev Htrace;
      digest_one analyses Ev Htrace; digest_one runs_started Ev Htrace;
      digest_one histories Ev Htrace;
      digest_one requests Ev Htrace; digest_one responses Ev Htrace;
      digest_one writes Ev Htrace; digest_one whisper_calls Ev Htrace;
      digest_one loaded Ev Htrace; digest_one reactions_at Ev Htrace;
      digest_one reactions_removed Ev Htrace; digest_one prompts_to Ev Htrace;
      digest_one printed Ev Htrace;
      clear Htrace
  end.

Lemma error_status_dec (code : N) : error_status code \/ ~ error_status code.
Proof. unfold error_status. lia. Qed.

(** The ways a download ends. *)
Lemma download_outcome_cases url bearer dest r l :
  download_outcome url bearer dest r l ->
  requests l = [(url, bearer, 120)]
  /\ ((responses l = [] /\ writes l = [] /\ exists e, r = Err e)
      \/ (exists resp, responses l = [resp] /\ error_status (status_code resp)
                       /\ writes l = [] /\ exists e, r = Err e)
      \/ (exists resp, responses l = [resp] /\ ~ error_status (status_code resp)
                       /\ writes l = [(dest, content resp)])).
Proof.
  intros (Hreq & Hcases & Hnone & Hone). split; [assumption|].
  destruct Hcases as [Hr|(resp & Hr)].
  - left. destruct (Hnone Hr) as [Hw He]. now repeat split.
  - right. destruct (Hone resp Hr) as [Hbad Hgood].
    destruct (error_status_dec (status_code resp)) as [Hs|Hs].
    + left. exists resp. destruct (Hbad Hs) as (Hw & e & He & _).
      split; [assumption|]. split; [assumption|]. split; [assumption|]. now exists e.
    + right. exists resp. destruct (Hgood Hs) as (Hw & _).
      split; [assumption|]. split; assumption.
Qed.

Ltac download_block lem :=
  apply lem;
  let l := fresh "l" in let r := fresh "r" in let fs := fresh "fs" in
  let Hk := fresh "Hk" in let Hu := fresh "Hu" in let Hf := fresh "Hf" in
  let Hout := fresh "Hout" in let Hreq := fresh "Hreq" in
  let Hfs := fresh "Hfs" in
  intros l r fs (Hk & Hu & Hf) Hout Hfs; unfold fetched, failures in Hu, Hf;
  apply download_outcome_cases in Hout as [Hreq Hout];
  unfold requests in Hreq;
  quiet Hk; clear Hk;
  destruct Hout as [(? & ? & ? & ->)|[(? & ? & ? & ? & ? & ->)|(? & ? & ? & ?)]];
  [ | | destruct r as [[]|r] ];
  unfold_picks.

Ltac wp_known ::=
  lazymatch goal with
  | |- wp (swallow (os_unlink _ _)) _ _ _ => apply wp_unlink_swallowed; intros ? ? ?
  | |- wp (swallow (reactions_add _ _ _ _)) _ _ _ =>
      apply wp_reaction_swallowed; intros ?
  | |- wp (QaBot.react_all _ _ _ _) _ _ _ =>
      apply wp_qa_react_all_at;
      let Hk := fresh "Hk" in let Ha := fresh "Hat" in let Hn := fresh "Hnames" in
      intros ? Ha Hn Hk; unfold reactions_at in Ha; unfold reactions_added in Hn;
      quiet Hk; clear Hk
  | |- wp (Extra.react_all _ _ _ _) _ _ _ =>
      apply wp_extra_react_all_at;
      let Hk := fresh "Hk" in let Ha := fresh "Hat" in let Hn := fresh "Hnames" in
      intros ? Ha Hn Hk; unfold reactions_at in Ha; unfold reactions_added in Hn;
      quiet Hk; clear Hk
  end; wp_red.

Ltac wp_blocks ::=
  lazymatch goal with
  | |- wp (Extra.cleanup _ _ _) _ _ _ =>
      apply wp_extra_cleanup;
      let l := fresh "l" in let fs := fresh "fs" in let H := fresh "Hclean" in
      intros l fs H; cbn [tmp_path] in H;
      try match type of H with
          | match ?tp with _ => _ end => destruct tp
          end;
      [> first [ destruct H as (? & ? & -> & H) | destruct H as (? & ->) ] .. ]
  | |- wp (QaBot.download_wav _ _ _) _ _ _ => download_block wp_qa_download_outcome
  | |- wp (Extra.download_slack_file _ _ _ _) _ _ _ =>
      download_block wp_extra_download_outcome
  | |- wp (Extra.transcribe_wav _ _) _ _ _ =>
      apply wp_extra_transcribe_wav;
      let l := fresh "l" in let r := fresh "r" in
      let Hk := fresh "Hk" in let Hr := fresh "Hr" in
      intros l r [Hk Hr]; quiet Hk; clear Hk; destruct r as [r|r];
      [ let Hf := fresh "Hf" in let Ht := fresh "Ht" in
        destruct Hr as (Hf & Ht & _); unfold failures in Hf;
        unfold recognized in Ht; subst r
      | unfold failures in Hr ]
  end; wp_red.

(** Closing the statements about a path: every reading of the trace is a
    list that is known. *)
Ltac flags_clash :=
  exfalso;
  repeat match goal with
         | H : ?x = true |- _ => is_var x; subst x
         | H : ?x = false |- _ => is_var x; subst x
         end;
  match goal with
  | E : (_ && _)%bool = _ |- _ =>
      repeat match type of E with
             | context [QaBot.ANALYZE_ONLY ?c] => destruct (QaBot.ANALYZE_ONLY c)
             | context [truthy ?t] => is_var t; destruct (truthy t)
             | context [(?v && _)%bool] => is_var v; destruct v
             | context [(_ && ?v)%bool] => is_var v; destruct v
             end;
      first [ discriminate E
            | match goal with
              | H : true = false |- _ => discriminate H
              | H : false = true |- _ => discriminate H
              end ]
  end.

Ltac settle :=
  lazymatch goal with
  | |- _ /\ _ => split; settle
  | |- ?A -> ?B =>
      let H := fresh "H" in intro H; cbn [In] in H; settle_with H
  | |- forall x, _ => let y := fresh x in intro y; settle
  | |- exists _, _ => eexists; settle
  | |- _ \/ _ => first [left; solve [settle] | right; solve [settle]]
  | |- (_ <= _)%nat => cbn [List.length]; lia
  | |- _ => first [reflexivity | assumption | solve [flags_clash]]
  end
with settle_with H :=
  lazymatch type of H with
  | False => contradiction
  | _ \/ _ => destruct H as [H|H]; settle_with H
  | In _ (map _ _) =>
      let H' := fresh "H" in
      apply in_map_iff in H as (? & H' & _); settle_with H'
  | ?a = ?b =>
      first [ discriminate H
            | (is_var b; subst b; cbn [fst snd]; settle)
            | (is_var a; subst a; cbn [fst snd]; settle)
            | (inversion H; clear H; subst; cbn [fst snd]; settle)
            | settle ]
  | _ => settle
  end.

(** ** The URL pipeline: what every run keeps to *)

Lemma qa_run_flow cfg en url ts ch say client h s :
  qa_flow cfg url ts ch say client
    (QaBot.process_wav_url cfg en url ts ch say client h s).
Proof.
  wp_start (QaBot.process_wav_url cfg en url ts ch say client) h s.
  unfold QaBot.process_wav_url, QaBot.transcribe_wav, QaBot.analyze_transcript.
  wp_all.
  all: try (rewrite truthy_temp in *; discriminate).
  all: digest; unfold qa_flow; cbv zeta; use_digest.
  all: repeat match goal with |- _ /\ _ => split end.
  all: solve [settle].
  Unshelve.
  all: first [exact [] | exact (Ok tt) | exact (Response 0 [] [])].
Qed.

(** ** The file-upload pipeline: what every run keeps to *)

Lemma chunk_events_loaded (l : list event) :
  Forall chunk_event l -> loaded l = [].
Proof.
  intros Hk. unfold loaded. apply pick_none. kind_tac Hk.
Qed.

Lemma extra_chunks_kind en (chunks : list audio) :
  forall total i parts h s,
    Forall chunk_event (evs (Extra.recognize_chunks en total i chunks parts h s)).
Proof.
  induction chunks as [|chunk chunks IH]; intros total i parts h s.
  - constructor.
  - wp_start (Extra.recognize_chunks en total i (chunk :: chunks) parts) h s.
    cbn [Extra.recognize_chunks]. repeat wp_step.
    + unfold wp. cbn [evs app]. repeat (constructor; [cbn; first [exact I | discriminate]|]).
      apply IH.
    + destruct (String.eqb (exn_class r) "UnknownValueError").
      * repeat wp_step. unfold wp. cbn [evs app].
        repeat (constructor; [cbn; first [exact I | discriminate]|]). apply IH.
      * cbn [evs]. repeat constructor.
Qed.

Lemma extra_transcribe_loaded en (p : path) h s :
  loaded (evs (Extra.transcribe_wav en p h s)) = [p].
Proof.
  wp_start (Extra.transcribe_wav en p) h s.
  unfold Extra.transcribe_wav. repeat wp_step; [|reflexivity].
  unfold wp.
  match goal with
  | |- context [Extra.recognize_chunks ?e ?t ?i ?c ?ps ?h' ?s'] =>
      pose proof (@extra_chunks_kind e c t i ps h' s') as Hk;
      destruct (Extra.recognize_chunks e t i c ps h' s') as [rr ll ss]
  end.
  cbn [res evs st] in *. apply chunk_events_loaded in Hk.
  destruct rr; cbn [res evs st]; repeat wp_step; cbn [evs];
    unfold loaded in *; cbn [pick app]; rewrite ?pick_app, Hk; reflexivity.
Qed.

Lemma wp_extra_transcribe_wav_loaded en (p : path) h s (Q : out pystr -> Prop) :
  (forall l r, transcription_report en p r l -> loaded l = [p] -> Q (Out r l s)) ->
  wp (Extra.transcribe_wav en p) h s Q.
Proof.
  intros HQ.
  assert (wp (Extra.transcribe_wav en p) h s
            (fun o => transcription_report en p (res o) (evs o) /\ st o = s)) as Hrep
    by (apply wp_extra_transcribe_wav; intros l r Hr; now split).
  pose proof (extra_transcribe_loaded en p h s) as Hl.
  unfold wp in *. destruct (Extra.transcribe_wav en p h s) as [r l s'].
  cbn [res evs st] in *. destruct Hrep as [Hrep ->]. now apply HQ.
Qed.

Ltac wp_blocks ::=
  lazymatch goal with
  | |- wp (Extra.cleanup _ _ _) _ _ _ =>
      apply wp_extra_cleanup;
      let l := fresh "l" in let fs := fresh "fs" in let H := fresh "Hclean" in
      intros l fs H; cbn [tmp_path] in H;
      try match type of H with
          | match ?tp with _ => _ end => destruct tp
          end;
      [> first [ destruct H as (? & ? & -> & H) | destruct H as (? & ->) ] .. ]
  | |- wp (QaBot.download_wav _ _ _) _ _ _ => download_block wp_qa_download_outcome
  | |- wp (Extra.download_slack_file _ _ _ _) _ _ _ =>
      download_block wp_extra_download_outcome
  | |- wp (Extra.transcribe_wav _ _) _ _ _ =>
      apply wp_extra_transcribe_wav_loaded;
      let l := fresh "l" in let r := fresh "r" in
      let Hk := fresh "Hk" in let Hr := fresh "Hr" in
      let Hl := fresh "Hloaded" in
      intros l r [Hk Hr] Hl; unfold loaded in Hl; quiet Hk; clear Hk;
      destruct r as [r|r];
      [ let Hf := fresh "Hf" in let Ht := fresh "Ht" in
        destruct Hr as (Hf & Ht & _); unfold failures in Hf;
        unfold recognized in Ht; subst r
      | unfold failures in Hr ]
  end; wp_red.

Lemma extra_run_flow cfg en ch ts file download_url h s :
  Extra.py_or (f_url_private_download file) (f_url_private file) = Some download_url ->
  download_url <> [] ->
  extra_flow cfg ch ts file download_url (Extra.handle_file cfg en ch ts file h s).
Proof.
  intros Hurl Hne.
  wp_start (Extra.handle_file cfg en ch ts file) h s.
  unfold Extra.handle_file, Extra.analyze_transcript. cbv zeta. rewrite Hurl.
  destruct download_url as [|c0 u0]; [contradiction|].
  wp_all.
  all: try (rewrite truthy_temp in *; discriminate).
  all: digest; unfold extra_flow; cbv zeta; use_digest.
  all: repeat match goal with |- _ /\ _ => split end.
  all: solve [settle].
  Unshelve.
  all: first [exact [] | exact (Ok tt) | exact (Response 0 [] [])].
Qed.

(** ** Properties of every run *)

(** X9: in a run of either pipeline the audio travels through the temporary
    file: at most one request is made, for the URL of the run ([qa_bot.py]
    sends no [Authorization] header, [extra.py] the bot token); the only
    data written is the body of a response without error status, to the
    temporary file of the run; that file is the one given to Whisper (with
    language [en], [fp16=False]) or loaded for chunking; and it is the one
    unlinked. *)
Theorem audio_goes_through_the_temp_file :
  (forall cfg en url ts ch say client h s,
      let l := evs (QaBot.process_wav_url cfg en url ts ch say client h s) in
      (requests l = [] \/ requests l = [(url, None, 120)])
      /\ (forall x, In x (writes l) ->
                    exists resp, responses l = [resp] /\ snd x = content resp
                                 /\ ~ error_status (status_code resp))
      /\ (forall p, temp_files l = [p] ->
                    (forall x, In x (writes l) -> fst x = p)
                    /\ (forall c, In c (whisper_calls l) -> c = (p, lit "en", false))
                    /\ exists r, unlinks l = [(p, r)]))
  /\
  (forall cfg en ch ts file download_url h s,
      let l := evs (Extra.handle_file cfg en ch ts file h s) in
      Extra.py_or (f_url_private_download file) (f_url_private file)
      = Some download_url ->
      download_url <> [] ->
      (requests l = []
       \/ requests l
          = [(download_url, Some (lit "Bearer " +++ Extra.SLACK_BOT_TOKEN cfg), 120)])
      /\ (forall x, In x (writes l) ->
                    exists resp, responses l = [resp] /\ snd x = content resp
                                 /\ ~ error_status (status_code resp))
      /\ (forall p, temp_files l = [p] ->
                    (forall x, In x (writes l) -> fst x = p)
                    /\ (forall x, In x (loaded l) -> x = p)
                    /\ exists r, unlinks l = [(p, r)])).
Proof.
  split.
  - intros cfg en url ts ch say client h s l.
    destruct (qa_run_flow cfg en url ts ch say client h s)
      as (_ & _ & _ & _ & _ & _ & _ & Hreq & Hw & Htmp & _).
    destruct (qa_run_paths cfg en url ts ch say client h s)
      as (_ & _ & _ & _ & _ & _ & _ & _ & Hrm & _).
    split; [exact Hreq|]. split; [exact Hw|].
    intros p Hp. destruct (Htmp p Hp) as [H1 H2].
    split; [exact H1|]. split; [exact H2|].
    destruct (Hrm p) as (r & Hr & _); [fold l; rewrite Hp; now left|]. now exists r.
  - intros cfg en ch ts file download_url h s l Hurl Hne.
    destruct (extra_run_flow cfg en ch ts file h s Hurl Hne)
      as (_ & _ & _ & _ & _ & _ & Hreq & Hw & Htmp & _).
    destruct (extra_run_paths cfg en ch ts file h s)
      as (_ & _ & _ & _ & _ & Hrm).
    split; [exact Hreq|]. split; [exact Hw|].
    intros p Hp. destruct (Htmp p Hp) as [H1 H2].
    split; [exact H1|]. split; [exact H2|].
    destruct (Hrm p) as (r & Hr & _); [fold l; rewrite Hp; now left|]. now exists r.
Qed.

Lemma audio_goes_through_the_temp_file_witness :
  let l := evs (Extra.handle_file extra_config (all_fine greeting plain_verdict)
                  sample_channel sample_ts upload [] empty_state) in
  (forall x, In x (writes l) -> fst x = lit "/tmp/tmpk3.wav")
  /\ (forall x, In x (loaded l) -> x = lit "/tmp/tmpk3.wav")
  /\ exists r, unlinks l = [(lit "/tmp/tmpk3.wav", r)].
Proof.
  cbv zeta.
  destruct (proj2 audio_goes_through_the_temp_file extra_config
              (all_fine greeting plain_verdict) sample_channel sample_ts upload
              (lit "https://files.example/call.wav") [] empty_state)
    as (_ & _ & Htmp).
  - reflexivity.
  - discriminate.
  - apply (Htmp (lit "/tmp/tmpk3.wav")). vm_compute. reflexivity.
Defined.

(** X11: the grades found in the analysis become reactions, in the order of
    the table, on the message that was processed, whether or not some of
    them fail, and the reply that follows holds the transcript and the
    analysis.  In [qa_bot.py] this is the production mode (with a client,
    [say], a timestamp and a channel); the transcript of the reply is the
    stripped Whisper text.  In [extra.py] the grades come after the
    hourglass and the transcript is the joined recognized text. *)
Theorem grades_become_reactions :
  (forall cfg en url ts ch h s w analysis,
      let l := evs (QaBot.process_wav_url cfg en url ts ch true true h s) in
      QaBot.ANALYZE_ONLY cfg = false -> truthy ts = true -> truthy ch = true ->
      whispered l = [w] -> analyses l = [analysis] ->
      reactions_at l
      = map (fun name => (ch, name, ts)) (QaBot.extract_grade_emojis analysis)
      /\ exists r,
          says l = [(QaBot.reply_text url (strip (get w [])) analysis, ts, r)])
  /\
  (forall cfg en ch ts file download_url h s analysis,
      let l := evs (Extra.handle_file cfg en ch ts file h s) in
      Extra.py_or (f_url_private_download file) (f_url_private file)
      = Some download_url ->
      download_url <> [] ->
      analyses l = [analysis] ->
      reactions_at l
      = map (fun name => (ch, name, ts))
          (Extra.hourglass :: Extra.extract_grade_emojis analysis)
      /\ exists r,
          hd_error (says l)
          = Some (Extra.reply_text (get (f_name file) (lit "unknown.wav"))
                    (strip (join (lit " ") (recognized l))) analysis, ts, r)).
Proof.
  split.
  - intros cfg en url ts ch h s w analysis l Hao Hts Hch Hw Han.
    destruct (qa_run_flow cfg en url ts ch true true h s)
      as (_ & _ & _ & _ & _ & _ & Hprod & _).
    exact (Hprod Hao eq_refl eq_refl Hts Hch w analysis Hw Han).
  - intros cfg en ch ts file download_url h s analysis l Hurl Hne Han.
    destruct (extra_run_flow cfg en ch ts file h s Hurl Hne) as (_ & _ & Hgr & _).
    exact (Hgr analysis Han).
Qed.

Lemma grades_become_reactions_witness :
  let l := evs (QaBot.process_wav_url (qa_config false)
                  (all_fine greeting (Glyph.fire +++ Glyph.green_heart +++ lit " flawless"))
                  sample_url sample_ts sample_channel true true [] empty_state) in
  reactions_at l
  = [(sample_channel, lit "green_heart", sample_ts);
     (sample_channel, lit "fire", sample_ts)].
Proof.
  cbv zeta.
  destruct (proj1 grades_become_reactions (qa_config false)
              (all_fine greeting (Glyph.fire +++ Glyph.green_heart +++ lit " flawless"))
              sample_url sample_ts sample_channel [] empty_state
              (Some greeting) (Glyph.fire +++ Glyph.green_heart +++ lit " flawless"))
    as (Hat & _); [vm_compute; reflexivity .. |].
  rewrite Hat. vm_compute. reflexivity.
Defined.

(** X12: what [process_wav_url] may do in Slack: without a client it adds no
    reaction and without [say] it posts nothing; in analyze-only mode it
    does neither; every reaction goes to the given channel and message and
    every reply to the thread of that message; it posts at most one reply
    and never removes a reaction. *)
Theorem qa_slack_discipline cfg en url ts ch say client h s :
  let l := evs (QaBot.process_wav_url cfg en url ts ch say client h s) in
  (client = false -> reactions_at l = [])
  /\ (say = false -> says l = [])
  /\ (QaBot.ANALYZE_ONLY cfg = true -> says l = [] /\ reactions_added l = [])
  /\ (forall x, In x (reactions_at l) -> exists name, x = (ch, name, ts))
  /\ (forall x, In x (says l) -> snd (fst x) = ts)
  /\ (List.length (says l) <= 1)%nat
  /\ reactions_removed l = [].
Proof.
  intros l.
  destruct (qa_run_flow cfg en url ts ch say client h s)
    as (H1 & H2 & H3 & H4 & H5 & H6 & _).
  destruct (qa_run_paths cfg en url ts ch say client h s)
    as (_ & _ & _ & _ & _ & _ & _ & _ & _ & Hao).
  split; [exact H1|]. split; [exact H2|]. split; [exact Hao|].
  split; [exact H3|]. split; [exact H4|]. split; [exact H5 | exact H6].
Qed.

Lemma qa_slack_discipline_witness :
  let l := evs (QaBot.process_wav_url (qa_config false) (all_fine [] []) sample_url
                  sample_ts sample_channel true false [] empty_state) in
  reactions_at l = [] /\ (List.length (says l) <= 1)%nat.
Proof.
  destruct (qa_slack_discipline (qa_config false) (all_fine [] []) sample_url
              sample_ts sample_channel true false [] empty_state)
    as (Hclient & _ & _ & _ & _ & Hlen & _).
  split; [exact (Hclient eq_refl) | exact Hlen].
Defined.

(** X13: the value of [process_wav_url] tells how the run ended: a text is
    the no-speech value or the analysis as the service returned it, and
    then nothing was logged as an error; [None] comes with exactly one
    logged error. *)
Theorem qa_returned_value cfg en url ts ch say client h s :
  let o := QaBot.process_wav_url cfg en url ts ch say client h s in
  (forall v, res o = Ok (Some v) ->
             errors_logged (evs o) = []
             /\ (v = QaBot.no_speech \/ analyses (evs o) = [v]))
  /\ (res o = Ok None -> exists msg, errors_logged (evs o) = [msg])
  /\ (exists v, res o = Ok v).
Proof.
  intros o.
  destruct (qa_run_flow cfg en url ts ch say client h s)
    as (_ & _ & _ & _ & _ & _ & _ & _ & _ & _ & _ & _ & _ & _ & _ & _ & Hv & Hn).
  destruct (qa_run_paths cfg en url ts ch say client h s)
    as (_ & _ & _ & _ & Hres & _).
  split; [exact Hv|]. split; [exact Hn | exact Hres].
Qed.

Lemma qa_returned_value_witness :
  let o := QaBot.process_wav_url (qa_config true) (all_fine greeting plain_verdict)
             sample_url sample_ts sample_channel true true [] empty_state in
  errors_logged (evs o) = []
  /\ (plain_verdict = QaBot.no_speech \/ analyses (evs o) = [plain_verdict]).
Proof.
  apply (proj1 (qa_returned_value (qa_config true) (all_fine greeting plain_verdict)
                  sample_url sample_ts sample_channel true true [] empty_state)).
  vm_compute. reflexivity.
Defined.

(** ** The hourglass *)

Lemma extra_grade_names (analysis name : pystr) :
  In name (Extra.extract_grade_emojis analysis) ->
  In name (map snd Extra.GRADE_EMOJI_MAP).
Proof.
  unfold Extra.extract_grade_emojis. rewrite grade_loop_filter.
  rewrite !in_map_iff. intros (kv & Hkv & Hin). exists kv. split; [assumption|].
  now apply filter_In in Hin.
Qed.

Lemma hourglass_is_no_grade (analysis : pystr) :
  ~ In Extra.hourglass (Extra.extract_grade_emojis analysis).
Proof.
  intros Hin. apply extra_grade_names in Hin. cbn in Hin.
  repeat (destruct Hin as [Hin|Hin]; [discriminate Hin|]). contradiction.
Qed.

Lemma handle_file_without_url cfg en ch ts file h s :
  get (Extra.py_or (f_url_private_download file) (f_url_private file)) [] = [] ->
  Extra.handle_file cfg en ch ts file h s
  = Out (Ok tt)
        [Log WARNING (lit "No download URL for file: "
                      +++ get (f_name file) (lit "unknown.wav"))] s.
Proof.
  unfold Extra.handle_file. cbv zeta.
  destruct (Extra.py_or (f_url_private_download file) (f_url_private file))
    as [[|c u]|]; cbn [get]; intros H; try discriminate H; reflexivity.
Qed.

(** X14: a file without a download URL (neither [url_private_download] nor
    [url_private], or both empty) only gets a warning in the log: no
    reaction, no request, no reply.  For a file with a URL the hourglass is
    the first reaction tried, no grade is ever named like it, and its
    removal is tried exactly once on every path, also when the run fails;
    reactions and replies all go to the message of the upload; at most two
    replies are posted and at most one error is logged, and a run without a
    logged error ends normally. *)
Theorem hourglass_is_always_taken_away :
  (forall cfg en ch ts file h s,
      let o := Extra.handle_file cfg en ch ts file h s in
      get (Extra.py_or (f_url_private_download file) (f_url_private file)) [] = [] ->
      evs o = [Log WARNING (lit "No download URL for file: "
                            +++ get (f_name file) (lit "unknown.wav"))]
      /\ res o = Ok tt /\ st o = s)
  /\
  (forall cfg en ch ts file download_url h s,
      let o := Extra.handle_file cfg en ch ts file h s in
      let l := evs o in
      Extra.py_or (f_url_private_download file) (f_url_private file)
      = Some download_url ->
      download_url <> [] ->
      (exists names,
          reactions_at l
          = (ch, Extra.hourglass, ts) :: map (fun name => (ch, name, ts)) names
          /\ ~ In Extra.hourglass names)
      /\ reactions_removed l = [(ch, Extra.hourglass, ts)]
      /\ (forall x, In x (says l) -> snd (fst x) = ts)
      /\ (List.length (says l) <= 2)%nat
      /\ (List.length (errors_logged l) <= 1)%nat
      /\ (errors_logged l = [] -> res o = Ok tt)).
Proof.
  split.
  - intros cfg en ch ts file h s o Hno. subst o.
    rewrite (handle_file_without_url cfg en ch ts file h s Hno). now repeat split.
  - intros cfg en ch ts file download_url h s o l Hurl Hne.
    destruct (extra_run_flow cfg en ch ts file h s Hurl Hne)
      as (Hone & Hnone & Hgr & Hrm & Hth & Hlen & _ & _ & _ & _ & _ & _ & _ & _
          & Herr & Hok).
    split; [|repeat split; assumption].
    destruct Hone as [Han|(analysis & Han)].
    + exists []. split; [exact (Hnone Han) | intros []].
    + exists (Extra.extract_grade_emojis analysis).
      split; [exact (proj1 (Hgr analysis Han)) | apply hourglass_is_no_grade].
Qed.

Lemma hourglass_is_always_taken_away_witness :
  let l := evs (Extra.handle_file extra_config not_found sample_channel sample_ts
                  upload [] empty_state) in
  reactions_removed l = [(sample_channel, Extra.hourglass, sample_ts)]
  /\ (List.length (says l) <= 2)%nat.
Proof.
  cbv zeta.
  destruct (proj2 hourglass_is_always_taken_away extra_config not_found sample_channel
              sample_ts upload (lit "https://files.example/call.wav") [] empty_state)
    as (_ & Hrm & _ & Hlen & _); [reflexivity | discriminate |].
  split; assumption.
Defined.

(** ** The listener of the file-upload bot *)

Lemma hourglass_filter (ch ts : pystr) (names : list pystr) :
  ~ In Extra.hourglass names ->
  filter (fun x : pystr * pystr * pystr => PyStr.eqb (snd (fst x)) Extra.hourglass)
    (map (fun name => (ch, name, ts)) names) = [].
Proof.
  induction names as [|name names IH]; intros Hno; [reflexivity|].
  cbn [map filter fst snd]. rewrite eqb_neq.
  - apply IH. intros Hin. apply Hno. now right.
  - intros ->. apply Hno. now left.
Qed.

Lemma handle_file_shape cfg en ch ts file h s :
  upload_listener_shape ch ts 1 (Extra.handle_file cfg en ch ts file h s).
Proof.
  destruct (Extra.py_or (f_url_private_download file) (f_url_private file))
    as [download_url|] eqn:Hurl.
  2: { rewrite handle_file_without_url by (now rewrite Hurl).
       unfold upload_listener_shape. cbn. repeat split; try contradiction; auto. }
  destruct download_url as [|c u] eqn:Hu.
  { rewrite handle_file_without_url by (now rewrite Hurl).
    unfold upload_listener_shape. cbn. repeat split; try contradiction; auto. }
  rewrite <- Hu in Hurl.
  assert (download_url <> []) as Hne by (rewrite Hu; discriminate).
  destruct (extra_run_flow cfg en ch ts file h s Hurl Hne)
    as (Hone & Hnone & Hgr & Hrm & Hth & _).
  destruct (extra_run_paths cfg en ch ts file h s) as (_ & _ & _ & _ & Hres & _).
  assert (exists names,
             reactions_at (evs (Extra.handle_file cfg en ch ts file h s))
             = (ch, Extra.hourglass, ts) :: map (fun name => (ch, name, ts)) names
             /\ ~ In Extra.hourglass names) as (names & Hat & Hno).
  { destruct Hone as [Han|(analysis & Han)].
    - exists []. split; [exact (Hnone Han) | intros []].
    - exists (Extra.extract_grade_emojis analysis).
      split; [exact (proj1 (Hgr analysis Han)) | apply hourglass_is_no_grade]. }
  unfold upload_listener_shape. cbv zeta. rewrite Hat, Hrm.
  split; [|split; [|split; [|split; [|split]]]].
  - intros x [<-|Hin]; [now eexists|].
    apply in_map_iff in Hin as (name & <- & _). now eexists.
  - intros x [<-|[]]. reflexivity.
  - exact Hth.
  - cbn [filter fst snd]. rewrite eqb_refl, hourglass_filter by assumption. reflexivity.
  - cbn. lia.
  - destruct Hres as [Hok|(e0 & e & He & Hin)]; [now left | right].
    exists e. eexists. split; eassumption.
Qed.

Lemma upload_listener_shape_app ch ts n1 n2 (l1 l2 : list event) (s1 s2 : state)
    (r : result unit) :
  upload_listener_shape ch ts n1 (Out (Ok tt) l1 s1) ->
  upload_listener_shape ch ts n2 (Out r l2 s2) ->
  upload_listener_shape ch ts (n1 + n2) (Out r (l1 ++ l2) s2).
Proof.
  unfold upload_listener_shape. cbn [res evs st].
  unfold reactions_at, reactions_removed, says. rewrite !pick_app.
  intros (A1 & B1 & C1 & D1 & E1 & _) (A2 & B2 & C2 & D2 & E2 & F2).
  split; [|split; [|split; [|split; [|split]]]].
  - intros x Hin. apply in_app_iff in Hin as [Hin|Hin]; auto.
  - intros x Hin. apply in_app_iff in Hin as [Hin|Hin]; auto.
  - intros x Hin. apply in_app_iff in Hin as [Hin|Hin]; auto.
  - rewrite filter_app, !length_app. congruence.
  - rewrite length_app. lia.
  - destruct F2 as [Hok|(e & text & He & Hin)]; [now left | right].
    exists e, text. split; [assumption|]. apply in_app_iff. now right.
Qed.

Lemma for_each_file_shape cfg en ch ts (files : list file_info) :
  forall h s,
    upload_listener_shape ch ts (List.length files)
      (for_each files (Extra.handle_file cfg en ch ts) h s).
Proof.
  induction files as [|file files IH]; intros h s.
  - unfold upload_listener_shape. cbn. repeat split; try contradiction; auto.
  - cbn [for_each]. unfold bind.
    pose proof (handle_file_shape cfg en ch ts file h s) as H1.
    destruct (Extra.handle_file cfg en ch ts file h s) as [r1 l1 s1].
    cbn [res evs st]. destruct r1 as [[]|e].
    + unfold andthen. cbn [res evs st].
      pose proof (IH (h ++ l1) s1) as H2.
      destruct (for_each files (Extra.handle_file cfg en ch ts) (h ++ l1) s1)
        as [r2 l2 s2].
      cbn [res evs st]. change (List.length (file :: files)) with (1 + List.length files)%nat.
      now apply upload_listener_shape_app with (s1 := s1).
    + unfold upload_listener_shape in *. cbn [res evs st] in *.
      destruct H1 as (A & B & C & D & E & F).
      split; [exact A|]. split; [exact B|]. split; [exact C|]. split; [exact D|].
      split; [cbn [List.length]; lia | exact F].
Qed.

(** X15: the listener of [extra.py] does nothing at all for a message of
    another channel than a configured one (the configured value is compared
    as it is) and for a message without WAV file.  Otherwise every reaction,
    removal and reply goes to the message received; every hourglass added has
    its removal tried, at most one per WAV file; and the listener raises
    only what posting a reply raised. *)
Theorem upload_listener_spec cfg en (event : message) h s :
  let o := Extra.handle_message cfg en event h s in
  let channel := get (m_channel event) [] in
  let ts := get (m_ts event) [] in
  let wav_files := filter Extra.is_wav (get (m_files event) []) in
  (Extra.QA_CHANNEL_ID cfg <> [] -> channel <> Extra.QA_CHANNEL_ID cfg ->
   evs o = [] /\ res o = Ok tt)
  /\ (wav_files = [] -> evs o = [] /\ res o = Ok tt)
  /\ upload_listener_shape channel ts (List.length wav_files) o.
Proof.
  cbv zeta. unfold Extra.handle_message, bind, andthen. cbv zeta.
  cbn [set_tmp_path res evs st app].
  destruct (truthy (Extra.QA_CHANNEL_ID cfg)
            && negb (PyStr.eqb (get (m_channel event) []) (Extra.QA_CHANNEL_ID cfg)))
    eqn:Edrop.
  - cbn. split; [now split|]. split; [now split|].
    unfold upload_listener_shape. cbn. repeat split; try contradiction; auto. lia.
  - split.
    + intros Hid Hch. rewrite (eqb_neq Hch) in Edrop.
      destruct (Extra.QA_CHANNEL_ID cfg); [contradiction | discriminate Edrop].
    + destruct (filter Extra.is_wav (get (m_files event) [])) as [|f fs] eqn:Ewav.
      * cbn. split; [now split|].
        unfold upload_listener_shape. cbn. repeat split; try contradiction; auto.
      * split; [discriminate|].
        pose proof (for_each_file_shape cfg en (get (m_channel event) [])
                      (get (m_ts event) []) (f :: fs)
                      (h ++ []) (State (files s) None)) as H.
        destruct (for_each (f :: fs) _ (h ++ []) (State (files s) None)) as [r l s'].
        exact H.
Qed.

Lemma upload_listener_spec_witness :
  let o := Extra.handle_message
             (Extra.Config (lit "xoxb-1") (lit "xapp-1") (lit "llama")
                (lit "general") (lit "Rubric. Dialogue: "))
             (all_fine greeting plain_verdict)
             (Message (Some sample_channel) (Some (lit "U1")) None (Some sample_ts)
                (Some [upload])) [] empty_state in
  evs o = [] /\ res o = Ok tt.
Proof.
  apply (proj1 (upload_listener_spec
                  (Extra.Config (lit "xoxb-1") (lit "xapp-1") (lit "llama")
                     (lit "general") (lit "Rubric. Dialogue: "))
                  (all_fine greeting plain_verdict)
                  (Message (Some sample_channel) (Some (lit "U1")) None (Some sample_ts)
                     (Some [upload])) [] empty_state));
    discriminate.
Defined.

(** ** The listener and the startup of the URL bot *)

Lemma reactions_added_at (l : list event) :
  reactions_added l = map (fun x => snd (fst x)) (reactions_at l).
Proof.
  unfold reactions_added, reactions_at.
  induction l as [|ev l IH]; [reflexivity|].
  destruct ev; cbn [pick map fst snd]; rewrite ?IH; reflexivity.
Qed.

(** What a run of [process_wav_url] may have done in Slack. *)
Lemma wp_qa_process_slack cfg en url ts ch say client h s
    (Q : out (option pystr) -> Prop) :
  (forall v l st,
      (client = false -> reactions_at l = []) ->
      (say = false -> says l = []) ->
      (QaBot.ANALYZE_ONLY cfg = true -> says l = [] /\ reactions_at l = []) ->
      (forall x, In x (reactions_at l) -> exists name, x = (ch, name, ts)) ->
      (forall x, In x (says l) -> snd (fst x) = ts) ->
      (List.length (says l) <= 1)%nat ->
      reactions_removed l = [] ->
      (exists r, runs_started l = [r]) ->
      histories l = [] ->
      Q (Out (Ok v) l st)) ->
  wp (QaBot.process_wav_url cfg en url ts ch say client) h s Q.
Proof.
  intros HQ. unfold wp.
  destruct (qa_run_flow cfg en url ts ch say client h s)
    as (H1 & H2 & H3 & H4 & H5 & H6 & _).
  destruct (qa_run_paths cfg en url ts ch say client h s)
    as (_ & _ & _ & _ & (v & Hv) & Hr & _ & Hh & _ & Hao).
  destruct (QaBot.process_wav_url cfg en url ts ch say client h s) as [r0 l st0].
  cbn [res evs st] in *. subst r0. apply HQ; try assumption.
  intros Hm. destruct (Hao Hm) as [Hs Hra]. split; [assumption|].
  rewrite reactions_added_at in Hra. now apply map_eq_nil in Hra.
Qed.

Ltac wp_slack :=
  lazymatch goal with
  | |- wp (QaBot.process_wav_url _ _ _ _ _ _ _) _ _ _ =>
      apply wp_qa_process_slack;
      let Hc := fresh "Hclient" in let Hs := fresh "Hsay" in
      let Hao := fresh "Hmode" in let Hat := fresh "Hat" in
      let Hth := fresh "Hthread" in let Hlen := fresh "Hlen" in
      let Hrm := fresh "Hrm" in let Hr := fresh "Hruns" in
      let Hh := fresh "Hhist" in
      intros ? ? ? Hc Hs Hao Hat Hth Hlen Hrm Hr Hh
  end; wp_red.

Lemma wp_scan_silent cfg en ch (messages : list message) :
  forall h s (Q : out unit -> Prop),
    (forall l st,
        says l = [] -> reactions_at l = [] -> reactions_removed l = [] ->
        Q (Out (Ok tt) l st)) ->
    wp (QaBot.scan_messages cfg en ch messages) h s Q.
Proof.
  induction messages as [|msg messages IH]; intros h s Q HQ;
    cbn [QaBot.scan_messages]; cbv zeta.
  - wp_step. wp_step. now apply HQ.
  - destruct (QaBot.extract_wav_urls (get (m_text msg) [])) as [|first rest].
    + apply IH. exact HQ.
    + repeat first [ wp_slack | wp_step ].
      specialize (Hclient eq_refl). specialize (Hsay eq_refl).
      apply HQ; unfold says, reactions_at, reactions_removed in *;
        cbn [pick app]; rewrite ?pick_app, ?app_nil_r; cbn [pick];
        rewrite ?app_nil_r; assumption.
Qed.

Lemma url_bot_in_slack_facts :
  (forall cfg en (event : message) h s,
      let l := evs (QaBot.handle_message cfg en event h s) in
      let channel := get (m_channel event) [] in
      let ts := get (m_ts event) [] in
      (forall x, In x (reactions_at l) -> exists name, x = (channel, name, ts))
      /\ (forall x, In x (says l) -> snd (fst x) = ts)
      /\ (List.length (says l) <= 1)%nat
      /\ reactions_removed l = []
      /\ (QaBot.ANALYZE_ONLY cfg = true -> says l = [] /\ reactions_at l = []))
  /\
  (forall cfg en channel_id h s,
      let l := evs (QaBot.process_latest_message cfg en channel_id h s) in
      says l = [] /\ reactions_at l = [] /\ reactions_removed l = []
      /\ (forall e,
             histories l = [(channel_id, 20, Err e)] ->
             errors_logged l = [lit "Failed to fetch messages: " +++ exn_str e]
             /\ runs_started l = [] /\ requests l = [])).
Proof.
  split.
  - intros cfg en event h s.
    wp_start (QaBot.handle_message cfg en event) h s.
    unfold QaBot.handle_message. cbv zeta.
    repeat first [ wp_slack | wp_step ].
    all: cbn [evs]; unfold says, reactions_at, reactions_removed in *;
      cbn [pick app]; rewrite ?pick_app, ?app_nil_r; cbn [pick];
      rewrite ?app_nil_r.
    all: try (repeat split; first [contradiction | discriminate | reflexivity
                                   | (cbn; lia) | idtac]).
    all: try assumption.
    all: match goal with
         | H : QaBot.ANALYZE_ONLY _ = true, Hm : QaBot.ANALYZE_ONLY _ = true -> _ |- _ =>
             destruct (Hm H); assumption
         end.
  - intros cfg en channel_id h s.
    wp_start (QaBot.process_latest_message cfg en channel_id) h s.
    unfold QaBot.process_latest_message.
    repeat first
      [ lazymatch goal with
        | |- wp (QaBot.scan_messages _ _ _ _) _ _ _ =>
            apply wp_scan_silent;
            let Hs := fresh "Hsay" in let Ha := fresh "Hat" in
            let Hr := fresh "Hrm" in
            intros ? ? Hs Ha Hr; wp_red
        end
      | wp_step ].
    all: cbn [evs]; unfold_picks; cbn [pick app stage_failure];
      rewrite ?pick_app, ?app_nil_r; cbn [pick]; rewrite ?app_nil_r.
    + split; [assumption|]. split; [assumption|]. split; [assumption|].
      intros e He. discriminate He.
    + split; [reflexivity|]. split; [reflexivity|]. split; [reflexivity|].
      intros e0 [= <-]. now repeat split.
Qed.

(** X16: what the URL bot may do in Slack.  The listener reacts and replies
    only on the message it received (at most one reply, no reaction
    removed), and in analyze-only mode it neither reacts nor replies.  The
    startup replay never reacts or replies, in any mode; when the history
    cannot be fetched it logs that and starts nothing. *)
Theorem url_bot_in_slack :
  (forall cfg en (event : message) h s,
      let l := evs (QaBot.handle_message cfg en event h s) in
      let channel := get (m_channel event) [] in
      let ts := get (m_ts event) [] in
      (forall x, In x (reactions_at l) -> exists name, x = (channel, name, ts))
      /\ (forall x, In x (says l) -> snd (fst x) = ts)
      /\ (List.length (says l) <= 1)%nat
      /\ reactions_removed l = []
      /\ (QaBot.ANALYZE_ONLY cfg = true -> says l = [] /\ reactions_at l = []))
  /\
  (forall cfg en channel_id h s,
      let l := evs (QaBot.process_latest_message cfg en channel_id h s) in
      says l = [] /\ reactions_at l = [] /\ reactions_removed l = []
      /\ (forall e,
             histories l = [(channel_id, 20, Err e)] ->
             errors_logged l = [lit "Failed to fetch messages: " +++ exn_str e]
             /\ runs_started l = [] /\ requests l = [])).
Proof. exact url_bot_in_slack_facts. Qed.

Lemma url_bot_in_slack_witness :
  let l := evs (QaBot.handle_message (qa_config true) (with_history []) two_urls []
                  empty_state) in
  says l = [] /\ reactions_at l = [].
Proof.
  destruct (proj1 url_bot_in_slack (qa_config true) (with_history []) two_urls []
              empty_state) as (_ & _ & _ & _ & Hmode).
  exact (Hmode eq_refl).
Defined.

(** What the startup replay leaves in the trace. *)
Lemma wp_replay cfg en channel_id h s (Q : out unit -> Prop) :
  (forall l st,
      says l = [] -> reactions_at l = [] -> reactions_removed l = [] ->
      (exists r, histories l = [(channel_id, 20, r)]) ->
      (List.length (runs_started l) <= 1)%nat ->
      Q (Out (Ok tt) l st)) ->
  wp (QaBot.process_latest_message cfg en channel_id) h s Q.
Proof.
  intros HQ. unfold wp.
  destruct (proj2 url_bot_in_slack_facts cfg en channel_id h s) as (Hs & Ha & Hr & _).
  destruct (qa_replay_shape cfg en channel_id h s) as (Hres & r & Hh & Hscan).
  destruct (QaBot.process_latest_message cfg en channel_id h s) as [r0 l st0].
  cbn [res evs st] in *. subst r0. apply HQ; try assumption.
  - now exists r.
  - destruct r as [messages|e].
    + unfold scan_report in Hscan. destruct (find has_wav_url messages).
      * destruct Hscan as [(run & ->) _]. cbn. lia.
      * destruct Hscan as [-> _]. cbn. lia.
    + destruct Hscan as [-> _]. cbn. lia.
Qed.

Lemma ends_single {A} (z : A) : exists before, [z] = before ++ [z].
Proof. now exists []. Qed.

Lemma ends_app {A} (l : list A) (z : A) : exists before, l ++ [z] = before ++ [z].
Proof. now exists l. Qed.

Lemma ends_cons {A} (a : A) (l : list A) (z : A) :
  (exists before, l = before ++ [z]) -> exists before, a :: l = before ++ [z].
Proof. intros [b ->]. now exists (a :: b). Qed.

Ltac ends := repeat first [apply ends_single | apply ends_app | apply ends_cons].

(** The events a history [h ++ ...] adds to [h]. *)
Ltac strip_history H :=
  lazymatch H with
  | ?X ++ ?Y => let X' := strip_history X in constr:(X' ++ Y)
  | _ => constr:(@nil event)
  end.

(** X17: the [__main__] block of [qa_bot.py], whatever the Socket Mode
    handler does.  Nothing before the handler raises: the block always
    reaches [SocketModeHandler(app, SLACK_APP_TOKEN).start()], which it runs
    once, with the app token, right after the log line that announces the
    live phase, and the block ends as the handler ends, with its result and
    its state.  Before that line the block never reacts or replies in
    Slack.  Without a channel restriction it only logs: no history is asked
    for, no run started, nothing requested.  With one it asks once for the
    history of that channel, with limit 20, and starts at most one run. *)
Theorem startup_spec cfg en serve h s :
  let o := QaBot.startup cfg en serve h s in
  let live := Log INFO (nl +++ [0x1F534] +++ lit " LIVE " +++ [0x2014]
                        +++ lit " waiting for new .wav messages (Ctrl+C to stop)"
                        +++ nl) in
  exists before s1,
    let served := serve (QaBot.SLACK_APP_TOKEN cfg) (h ++ before ++ [live]) s1 in
    evs o = before ++ live :: evs served
    /\ res o = res served /\ st o = st served
    /\ says before = [] /\ reactions_at before = [] /\ reactions_removed before = []
    /\ (QaBot.QA_CHANNEL_ID cfg = [] ->
        histories before = [] /\ runs_started before = [] /\ requests before = [])
    /\ (QaBot.QA_CHANNEL_ID cfg <> [] ->
        exists r, histories before = [(QaBot.QA_CHANNEL_ID cfg, 20, r)])
    /\ (List.length (runs_started before) <= 1)%nat.
Proof.
  wp_start (QaBot.startup cfg en serve) h s.
  unfold QaBot.startup.
  repeat first
    [ lazymatch goal with
      | |- wp (QaBot.process_latest_message _ _ _) _ _ _ =>
          apply wp_replay;
          let Hs := fresh "Hsay" in let Ha := fresh "Hat" in
          let Hr := fresh "Hrm" in let Hh := fresh "Hhist" in
          let Hn := fresh "Hruns" in
          let l := fresh "l" in let s' := fresh "s" in
          intros l s' Hs Ha Hr Hh Hn; wp_red
      end
    | wp_step ].
  all: unfold wp; cbv zeta; cbn [res evs st].
  all: lazymatch goal with
       | |- context [evs (_ _ (?H ++ [_]) ?S)] =>
           let b := strip_history H in
           exists b, S
       end.
  all: cbn [app]; rewrite <- ?app_assoc; cbn [app]; rewrite ?app_nil_r.
  all: split; [reflexivity|].
  all: split; [reflexivity|].
  all: split; [reflexivity|].
  all: unfold_picks; cbn [pick app]; rewrite ?pick_app, ?app_nil_r; cbn [pick];
    rewrite ?app_nil_r.
  all: repeat match goal with
              | H : pick ?f ?l = _ |- context [pick ?f ?l] => rewrite H
              end.
  all: split; [reflexivity|].
  all: split; [reflexivity|].
  all: split; [reflexivity|].
  all: split;
    [ let H := fresh "H" in
      intros H;
      first [ repeat split; reflexivity
            | exfalso; destruct (QaBot.QA_CHANNEL_ID cfg); discriminate ] |].
  all: split;
    [ let H := fresh "H" in
      intros H;
      first [ assumption
            | exfalso; destruct (QaBot.QA_CHANNEL_ID cfg); [contradiction | discriminate] ] |].
  all: first [assumption | cbn; lia].
Qed.

Lemma startup_spec_witness :
  let o := QaBot.startup (qa_config true) (with_history [])
             (fun _ => raise (Exn "KeyboardInterrupt" [])) [] empty_state in
  res o = Err (Exn "KeyboardInterrupt" [])
  /\ exists before,
      evs o = before
              ++ [Log INFO (nl +++ [0x1F534] +++ lit " LIVE " +++ [0x2014]
                            +++ lit " waiting for new .wav messages (Ctrl+C to stop)"
                            +++ nl)].
Proof.
  destruct (startup_spec (qa_config true) (with_history [])
              (fun _ => raise (Exn "KeyboardInterrupt" [])) [] empty_state)
    as (before & s1 & Hev & Hres & _).
  split; [exact Hres|]. exists before. rewrite Hev. reflexivity.
Defined.

(** ** The stand-alone script *)

Lemma main_chunks_kind en (chunks : list audio) :
  forall full h s,
    Forall chunk_event (evs (Main.recognize_chunks en chunks full h s)).
Proof.
  induction chunks as [|chunk chunks IH]; intros full h s.
  - constructor.
  - wp_start (Main.recognize_chunks en (chunk :: chunks) full) h s.
    cbn [Main.recognize_chunks]. repeat wp_step.
    + unfold wp. cbn [evs app]. repeat (constructor; [cbn; first [exact I | discriminate]|]).
      apply IH.
    + destruct (String.eqb (exn_class r) "UnknownValueError").
      * repeat wp_step. unfold wp. cbn [evs app].
        repeat (constructor; [cbn; first [exact I | discriminate]|]). apply IH.
      * cbn [evs]. repeat constructor.
Qed.

Lemma main_transcribe_loaded en (p : path) h s :
  loaded (evs (Main.transcribe en p h s)) = [p].
Proof.
  wp_start (Main.transcribe en p) h s.
  unfold Main.transcribe. repeat wp_step; [|reflexivity].
  unfold wp.
  match goal with
  | |- context [Main.recognize_chunks ?e ?c ?f ?h' ?s'] =>
      pose proof (@main_chunks_kind e c f h' s') as Hk;
      destruct (Main.recognize_chunks e c f h' s') as [rr ll ss]
  end.
  cbn [res evs st] in *. apply chunk_events_loaded in Hk.
  destruct rr; cbn [res evs st]; repeat wp_step; cbn [evs];
    unfold loaded in *; cbn [pick app]; rewrite ?pick_app, Hk; reflexivity.
Qed.

Lemma wp_main_transcribe_loaded en (p : path) h s (Q : out pystr -> Prop) :
  (forall l r, transcription_report en p r l -> loaded l = [p] -> Q (Out r l s)) ->
  wp (Main.transcribe en p) h s Q.
Proof.
  intros HQ.
  assert (wp (Main.transcribe en p) h s
            (fun o => transcription_report en p (res o) (evs o) /\ st o = s)) as Hrep
    by (apply wp_main_transcribe; intros l r Hr; now split).
  pose proof (main_transcribe_loaded en p h s) as Hl.
  unfold wp in *. destruct (Main.transcribe en p h s) as [r l s'].
  cbn [res evs st] in *. destruct Hrep as [Hrep ->]. now apply HQ.
Qed.

Ltac main_block :=
  lazymatch goal with
  | |- wp (Main.transcribe _ _) _ _ _ =>
      apply wp_main_transcribe_loaded;
      let l := fresh "l" in let r := fresh "r" in
      let Hk := fresh "Hk" in let Hr := fresh "Hr" in
      let Hl := fresh "Hloaded" in
      intros l r [Hk Hr] Hl; unfold loaded in Hl; quiet Hk; clear Hk;
      destruct r as [r|r];
      [ let Hf := fresh "Hf" in let Ht := fresh "Ht" in
        destruct Hr as (Hf & Ht & _); unfold failures in Hf;
        unfold recognized in Ht; subst r
      | unfold failures in Hr ]
  end; wp_red.

Ltac in_disj :=
  first [ reflexivity | left; solve [in_disj] | right; solve [in_disj] ].

Ltac in_list := cbn [In]; repeat rewrite in_app_iff; cbn [In]; solve [in_disj].

Lemma analyze_dialogue_facts en default_path prompt_head filename model_name h s :
  script_report default_path prompt_head filename model_name s
    (Main.analyze_dialogue en default_path prompt_head filename model_name h s).
Proof.
  wp_start (Main.analyze_dialogue en default_path prompt_head filename model_name) h s.
  unfold Main.analyze_dialogue. cbv zeta.
  repeat first [ main_block | wp_step ].
  all: digest; unfold script_report; cbv zeta; use_digest; cbn [hd_error].
  all: split; [repeat split; reflexivity|].
  all: split;
    [ let Hf := fresh "Hf" in let Ht := fresh "Ht" in
      intros Hf Ht;
      first [ discriminate Hf
            | split; [reflexivity | in_list]
            | exfalso;
              match goal with
              | E : negb (truthy _) = false |- _ => rewrite Ht in E; discriminate E
              end ] |].
  all: split;
    [ let Hf := fresh "Hf" in let Ht := fresh "Ht" in
      intros Hf Ht;
      first [ discriminate Hf
            | exfalso; apply Ht;
              match goal with
              | E : negb (truthy ?t) = true |- _ =>
                  destruct t; [reflexivity | discriminate E]
              end
            | split; [reflexivity|]; split; [in_list|];
              eexists; split; [reflexivity | in_list] ] |].
  all: let e := fresh "e" in let He := fresh "He" in
       intros e He;
       first [ discriminate He | injection He as <- ];
       (split;
        [ let Hc := fresh "Hc" in
          intros Hc;
          first [ in_list
                | exfalso;
                  match goal with
                  | E : String.eqb _ "FileNotFoundError" = false |- _ =>
                      rewrite Hc in E; discriminate E
                  end ]
        | split;
          (let Hc := fresh "Hc" in let Hi := fresh "Hi" in
           intros Hc Hi;
           first [ in_list
                 | exfalso;
                   match goal with
                   | E : String.eqb _ "FileNotFoundError" = true |- _ =>
                       apply String.eqb_eq in E; contradiction
                   end
                 | exfalso; congruence ]) ]).
Qed.

(** X18: [analyze_dialogue] never raises, whatever fails, and leaves the
    state as it was.  It announces the file it loads, which is [filename]
    joined to the downloads directory, and loads that file and no other.
    It works on that file in place: it writes, creates and removes no file,
    and it sends nothing to Slack. *)
Theorem analyze_dialogue_never_raises en default_path prompt_head filename
    model_name h s :
  let o := Main.analyze_dialogue en default_path prompt_head filename model_name h s in
  let l := evs o in
  let wav_file_path := Main.os_path_join default_path filename in
  res o = Ok tt /\ st o = s
  /\ hd_error (printed l)
     = Some (lit "Loading and analyzing audio file: " +++ wav_file_path)
  /\ loaded l = [wav_file_path]
  /\ writes l = [] /\ temp_files l = [] /\ unlinks l = []
  /\ says l = [] /\ reactions_at l = [].
Proof.
  exact (proj1 (analyze_dialogue_facts en default_path prompt_head filename
                  model_name h s)).
Qed.

(** X19: what [analyze_dialogue] does with the transcript.  When nothing
    failed and the transcript is empty it prints that no speech could be
    transcribed and does not call the analyzer.  When the transcript is not
    empty it prints it, calls the analyzer once, with the given model and
    the rubric followed by the transcript, and prints the analysis.  When a
    stage failed it prints one of three messages: for [FileNotFoundError]
    that the file was not found in the downloads directory, for
    [ImportError] that [pydub] is required, and for any other exception
    its text after "An unexpected error occurred". *)
Theorem analyze_dialogue_outcomes en default_path prompt_head filename model_name
    h s :
  let l := evs (Main.analyze_dialogue en default_path prompt_head filename
                  model_name h s) in
  let transcript := strip (join (lit " ") (recognized l)) in
  (failures l = [] -> transcript = [] ->
   prompts_to l = []
   /\ In (lit "Error: No speech could be transcribed from the file.") (printed l))
  /\ (failures l = [] -> transcript <> [] ->
      prompts_to l = [(model_name, prompt_head +++ transcript)]
      /\ In transcript (printed l)
      /\ exists analysis, analyses l = [analysis] /\ In analysis (printed l))
  /\ (forall e, failures l = [e] ->
        (exn_class e = "FileNotFoundError"%string ->
         In (lit "Error: The file '" +++ filename +++ lit "' was not found in "
             +++ default_path +++ lit ".") (printed l))
        /\ (exn_class e <> "FileNotFoundError"%string ->
            Main.is_ImportError e = true ->
            In (lit "Error: The 'pydub' library is required. Please run: pip install pydub")
              (printed l))
        /\ (exn_class e <> "FileNotFoundError"%string ->
            Main.is_ImportError e = false ->
            In (lit "An unexpected error occurred: " +++ exn_str e) (printed l))).
Proof.
  exact (proj2 (analyze_dialogue_facts en default_path prompt_head filename
                  model_name h s)).
Qed.

Lemma analyze_dialogue_outcomes_witness :
  let l := evs (Main.main missing_recording (lit "/home/qa/Downloads")
                  (lit "Rubric. Dialogue: ") [] empty_state) in
  In (lit "Error: The file 'C-3PO Topserv Recording.wav' was not found in /home/qa/Downloads.")
    (printed l).
Proof.
  destruct (analyze_dialogue_outcomes missing_recording (lit "/home/qa/Downloads")
              (lit "Rubric. Dialogue: ") (lit "C-3PO Topserv Recording.wav")
              (lit "hf.co/bartowski/Llama-3.2-1B-Instruct-GGUF:Q8_0") [] empty_state)
    as (_ & _ & Hfail).
  destruct (Hfail (FileNotFoundError
                     (lit "/home/qa/Downloads/C-3PO Topserv Recording.wav")))
    as (Hmsg & _); [vm_compute; reflexivity|].
  apply Hmsg. reflexivity.
Defined.

(** ** A recognizer that fails *)

Lemma chunks_outcome_step {A} (chunk : audio) (chunks : list audio)
    (r0 : result pystr) (mid l : list event) (r : result A) :
  recognize_calls mid = [] ->
  chunks_outcome chunks r l ->
  chunks_outcome (chunk :: chunks) r (RecognizeGoogle chunk r0 :: mid ++ l).
Proof.
  unfold chunks_outcome, recognize_calls. intros Hmid H.
  destruct r as [a|e].
  - cbn [pick]. rewrite pick_app, Hmid, H. reflexivity.
  - destruct H as (Hcls & done & c & rest & -> & Hcalls & before & ->).
    split; [assumption|]. exists (chunk :: done), c, rest.
    split; [reflexivity|]. split.
    + cbn [pick]. rewrite pick_app, Hmid, Hcalls. reflexivity.
    + exists (RecognizeGoogle chunk r0 :: mid ++ before).
      cbn [app]. now rewrite <- app_assoc.
Qed.

Lemma chunks_outcome_stop {A} (chunk : audio) (chunks : list audio) (e : exn) :
  String.eqb (exn_class e) "UnknownValueError" = false ->
  @chunks_outcome A (chunk :: chunks) (Err e) [RecognizeGoogle chunk (Err e)].
Proof.
  intros Hcls. split.
  - intros Heq. rewrite Heq in Hcls. discriminate Hcls.
  - exists [], chunk, chunks. repeat split. now exists [].
Qed.

Lemma extra_chunks_outcome en (chunks : list audio) :
  forall total i parts h s,
    let o := Extra.recognize_chunks en total i chunks parts h s in
    chunks_outcome chunks (res o) (evs o).
Proof.
  induction chunks as [|chunk chunks IH]; intros total i parts h s.
  - reflexivity.
  - cbv zeta.
    wp_start (Extra.recognize_chunks en total i (chunk :: chunks) parts) h s.
    cbn [Extra.recognize_chunks]. repeat wp_step.
    + unfold wp. cbn [res evs app].
      match goal with
      | |- chunks_outcome _ _ (?a :: ?b :: ?l) =>
          change (a :: b :: l) with (a :: [b] ++ l)
      end.
      apply chunks_outcome_step; [reflexivity | apply IH].
    + destruct (String.eqb (exn_class r) "UnknownValueError") eqn:Ecls.
      * repeat wp_step. unfold wp. cbn [res evs app].
        match goal with
        | |- chunks_outcome _ _ (?a :: ?b :: ?l) =>
            change (a :: b :: l) with (a :: [b] ++ l)
        end.
        apply chunks_outcome_step; [reflexivity | apply IH].
      * cbn [res evs]. now apply chunks_outcome_stop.
Qed.

Lemma main_chunks_outcome en (chunks : list audio) :
  forall full h s,
    let o := Main.recognize_chunks en chunks full h s in
    chunks_outcome chunks (res o) (evs o).
Proof.
  induction chunks as [|chunk chunks IH]; intros full h s.
  - reflexivity.
  - cbv zeta.
    wp_start (Main.recognize_chunks en (chunk :: chunks) full) h s.
    cbn [Main.recognize_chunks]. repeat wp_step.
    + unfold wp. cbn [res evs app].
      match goal with
      | |- chunks_outcome _ _ (?a :: ?b :: ?l) =>
          change (a :: b :: l) with (a :: [b] ++ l)
      end.
      apply chunks_outcome_step; [reflexivity | apply IH].
    + destruct (String.eqb (exn_class r) "UnknownValueError") eqn:Ecls.
      * repeat wp_step. unfold wp. cbn [res evs app].
        match goal with
        | |- chunks_outcome _ _ (?a :: ?l) =>
            change (a :: l) with (a :: [] ++ l)
        end.
        apply chunks_outcome_step; [reflexivity | apply IH].
      * cbn [res evs]. now apply chunks_outcome_stop.
Qed.

(** X20: in the chunked transcription of [extra.py] and of [main.py], a
    recognizer exception other than [UnknownValueError] ends the loop at
    once: it is raised by the last chunk sent, the chunks after it are never
    sent, and the texts recognized before it are given up with the
    exception. *)
Theorem recognizer_failure_ends_the_loop :
  (forall en total i chunks parts h s e,
      let o := Extra.recognize_chunks en total i chunks parts h s in
      res o = Err e ->
      exn_class e <> "UnknownValueError"%string
      /\ exists done chunk rest,
          chunks = done ++ chunk :: rest
          /\ recognize_calls (evs o) = done ++ [chunk]
          /\ exists before, evs o = before ++ [RecognizeGoogle chunk (Err e)])
  /\
  (forall en chunks full_transcript h s e,
      let o := Main.recognize_chunks en chunks full_transcript h s in
      res o = Err e ->
      exn_class e <> "UnknownValueError"%string
      /\ exists done chunk rest,
          chunks = done ++ chunk :: rest
          /\ recognize_calls (evs o) = done ++ [chunk]
          /\ exists before, evs o = before ++ [RecognizeGoogle chunk (Err e)]).
Proof.
  split.
  - intros en total i chunks parts h s e o He.
    pose proof (extra_chunks_outcome en chunks total i parts h s) as H.
    cbv zeta in H. fold o in H. rewrite He in H. exact H.
  - intros en chunks full_transcript h s e o He.
    pose proof (main_chunks_outcome en chunks full_transcript h s) as H.
    cbv zeta in H. fold o in H. rewrite He in H. exact H.
Qed.

Lemma recognizer_failure_ends_the_loop_witness :
  let chunks := [Audio 0 (-20)%float; Audio 1 (-20)%float; Audio 2 (-20)%float] in
  let o := Extra.recognize_chunks broken_line 3 0 chunks [] [] empty_state in
  exists done chunk rest,
    chunks = done ++ chunk :: rest
    /\ recognize_calls (evs o) = done ++ [chunk]
    /\ exists before,
        evs o = before
                ++ [RecognizeGoogle chunk
                      (Err (Exn "RequestError" (lit "recognition connection failed")))].
Proof.
  cbv zeta.
  apply (proj1 recognizer_failure_ends_the_loop broken_line 3%nat 0
           [Audio 0 (-20)%float; Audio 1 (-20)%float; Audio 2 (-20)%float] []
           [] empty_state (Exn "RequestError" (lit "recognition connection failed"))).
  vm_compute. reflexivity.
Defined.

(** ** The order of the stages *)

Lemma staged_app (ready : list event -> event -> Prop) (l1 l2 b : list event) :
  staged ready b (l1 ++ l2) <-> staged ready b l1 /\ staged ready (b ++ l1) l2.
Proof.
  revert b. induction l1 as [|ev l1 IH]; intros b; cbn [staged app].
  - rewrite app_nil_r. tauto.
  - rewrite IH, <- app_assoc. cbn [app]. tauto.
Qed.

Lemma staged_at (ready : list event -> event -> Prop) (l x y b : list event) ev :
  staged ready b l -> l = x ++ ev :: y -> ready (b ++ x) ev.
Proof.
  intros H ->. apply staged_app in H as [_ H]. cbn [staged] in H. apply H.
Qed.

Ltac unfold_stage_picks :=
  unfold running, failures, unlinks, runs_started, temp_files, requests, responses,
    written, whispered, analyses, splits, loaded_clips.

(** Close a statement about what happened before an event. *)
Ltac pick_goal :=
  unfold_stage_picks; simpl_picks_goal;
  solve [ repeat first [ exact I | reflexivity | discriminate | assumption
                       | split | eexists | eassumption | (left; reflexivity)
                       | match goal with
                         | |- _ ++ [_] <> [] =>
                             let Hn := fresh "Hn" in
                             intros Hn; apply app_eq_nil in Hn as [_ Hn];
                             discriminate Hn
                         end
                       | (apply in_or_app; right; left; reflexivity)
                       | match goal with
                         | H : In _ ?l |- ?l <> [] =>
                             let Hn := fresh "Hn" in
                             intros Hn; rewrite Hn in H; exact H
                         end ] ].

Ltac ready :=
  cbv beta iota delta [url_stage_ready upload_stage_ready]; pick_goal.

Ltac walk :=
  repeat lazymatch goal with
         | |- True => exact I
         | |- staged _ _ [] => exact I
         | |- staged _ _ (_ :: _) => cbn [staged]
         | |- staged _ _ (_ ++ _) => apply staged_app; split
         | |- staged _ _ ?l =>
             match goal with
             | H : forall b, _ -> staged _ b l |- _ => apply H; pick_goal
             end
         | |- _ /\ _ => split; [ready|]
         end.

Lemma reaction_events_staged_url (l : list event) :
  Forall reaction_event l ->
  forall b, running b /\ whispered b <> [] -> staged url_stage_ready b l.
Proof.
  induction 1 as [|ev l Hev _ IH]; intros b [[Hf Hu] Hw]; cbn [staged]; [exact I|].
  split.
  - destruct ev; cbn in Hev |- *; try contradiction; [exact I | now repeat split].
  - apply IH. unfold running, failures, unlinks, whispered in *. rewrite !pick_app.
    destruct ev; cbn in Hev |- *; try contradiction; rewrite ?app_nil_r;
      repeat split; assumption.
Qed.

Lemma reaction_events_staged_upload (l : list event) :
  Forall reaction_event l ->
  forall b, unlinks b = [] -> staged upload_stage_ready b l.
Proof.
  induction 1 as [|ev l Hev _ IH]; intros b Hu; cbn [staged]; [exact I|].
  split.
  - destruct ev; cbn in Hev |- *; try contradiction; [exact I | assumption].
  - apply IH; unfold unlinks in *; rewrite pick_app;
      destruct ev; cbn in Hev |- *; try contradiction; rewrite ?app_nil_r; assumption.
Qed.

Lemma wp_qa_download_staged en (url dest : pystr) h s (Q : out unit -> Prop) :
  (forall l r fs,
      download_report url r l ->
      (forall b, running b /\ In dest (temp_files b) /\ requests b = [] ->
                 staged url_stage_ready b l) ->
      (r = Ok tt -> exists data, written l = [(dest, data)]) ->
      Q (Out r l (State fs (tmp_path s)))) ->
  wp (QaBot.download_wav en url dest) h s Q.
Proof.
  destruct s as [fs tp]. intros HQ. unfold QaBot.download_wav.
  wp_run;
    (apply HQ;
     [ unfold download_report, fetched, failures; cbn [pick stage_failure];
       repeat match goal with
              | H : ?b = _ |- context [if ?b then _ else _] => rewrite H
              end;
       (split; [kind_list | split; reflexivity])
     | intros b ((Hf & Hu) & Hin & Hreq);
       unfold failures, unlinks, temp_files, requests in Hf, Hu, Hin, Hreq; walk
     | first [discriminate | intros _; eexists; reflexivity] ]).
Qed.

Lemma wp_extra_download_staged cfg en (url dest : pystr) h s (Q : out unit -> Prop) :
  (forall l r fs,
      download_report url r l ->
      (forall b, running b /\ In dest (temp_files b) /\ requests b = [] ->
                 staged upload_stage_ready b l) ->
      (r = Ok tt -> exists data, written l = [(dest, data)]) ->
      Q (Out r l (State fs (tmp_path s)))) ->
  wp (Extra.download_slack_file cfg en url dest) h s Q.
Proof.
  destruct s as [fs tp]. intros HQ. unfold Extra.download_slack_file.
  wp_run;
    (apply HQ;
     [ unfold download_report, fetched, failures; cbn [pick stage_failure];
       repeat match goal with
              | H : ?b = _ |- context [if ?b then _ else _] => rewrite H
              end;
       (split; [kind_list | split; reflexivity])
     | intros b ((Hf & Hu) & Hin & Hreq);
       unfold failures, unlinks, temp_files, requests in Hf, Hu, Hin, Hreq; walk
     | first [discriminate | intros _; eexists; reflexivity] ]).
Qed.

Lemma extra_chunks_staged en (chunks : list audio) :
  forall total i parts h s b,
    running b /\ splits b <> [] ->
    staged upload_stage_ready b
      (evs (Extra.recognize_chunks en total i chunks parts h s)).
Proof.
  induction chunks as [|chunk chunks IH]; intros total i parts h s b ((Hf & Hu) & Hs);
    unfold failures, unlinks, splits in Hf, Hu, Hs.
  - exact I.
  - wp_start (Extra.recognize_chunks en total i (chunk :: chunks) parts) h s.
    cbn [Extra.recognize_chunks]. repeat wp_step.
    + unfold wp. cbn [evs app]. walk. apply IH. pick_goal.
    + destruct (String.eqb (exn_class r) "UnknownValueError") eqn:Ecls.
      * repeat wp_step. unfold wp. cbn [evs app]. walk. apply IH. pick_goal.
      * cbn [evs]. walk.
Qed.

Lemma extra_transcribe_staged en (p : path) h s b :
  running b /\ (exists data, In (p, data) (written b)) ->
  staged upload_stage_ready b (evs (Extra.transcribe_wav en p h s)).
Proof.
  intros ((Hf & Hu) & data & Hw). unfold failures, unlinks, written in Hf, Hu, Hw.
  wp_start (Extra.transcribe_wav en p) h s.
  unfold Extra.transcribe_wav. repeat wp_step; [|walk].
  unfold wp.
  match goal with
  | |- context [Extra.recognize_chunks ?e ?t ?i ?c ?ps ?h' ?s'] =>
      pose proof (fun b => @extra_chunks_staged e c t i ps h' s' b) as Hk;
      destruct (Extra.recognize_chunks e t i c ps h' s') as [rr ll ss]
  end.
  cbn [res evs st] in *.
  destruct rr; cbn [res evs st]; repeat wp_step; cbn [evs app]; rewrite ?app_nil_r;
    walk.
Qed.

Lemma wp_extra_transcribe_staged en (p : path) h s (Q : out pystr -> Prop) :
  (forall l r,
      transcription_report en p r l ->
      (forall b, running b /\ (exists data, In (p, data) (written b)) ->
                 staged upload_stage_ready b l) ->
      Q (Out r l s)) ->
  wp (Extra.transcribe_wav en p) h s Q.
Proof.
  intros HQ.
  assert (wp (Extra.transcribe_wav en p) h s
            (fun o => transcription_report en p (res o) (evs o) /\ st o = s)) as Hrep
    by (apply wp_extra_transcribe_wav; intros l r Hr; now split).
  pose proof (fun b => @extra_transcribe_staged en p h s b) as Hst.
  unfold wp in *. destruct (Extra.transcribe_wav en p h s) as [r l s'].
  cbn [res evs st] in *. destruct Hrep as [Hrep ->]. now apply HQ.
Qed.

Ltac staged_download lem :=
  apply lem;
  let l := fresh "l" in let r := fresh "r" in let fs := fresh "fs" in
  let Hk := fresh "Hk" in let Hf := fresh "Hf" in
  let Hst := fresh "Hst" in let Hw := fresh "Hw" in
  intros l r fs (Hk & _ & Hf) Hst Hw; unfold failures in Hf;
  quiet Hk; clear Hk;
  destruct r as [[]|r];
  [ let data := fresh "data" in
    destruct (Hw eq_refl) as (data & Hw'); unfold written in Hw'; clear Hw
  | clear Hw ];
  wp_red.

Ltac wp_staged :=
  repeat first
    [ lazymatch goal with
      | |- wp (QaBot.download_wav _ _ _) _ _ _ => staged_download wp_qa_download_staged
      | |- wp (Extra.download_slack_file _ _ _ _) _ _ _ =>
          staged_download wp_extra_download_staged
      | |- wp (Extra.transcribe_wav _ _) _ _ _ =>
          apply wp_extra_transcribe_staged;
          let l := fresh "l" in let r := fresh "r" in
          let Hk := fresh "Hk" in let Hr := fresh "Hr" in let Hst := fresh "Hst" in
          intros l r [Hk Hr] Hst; quiet Hk; clear Hk;
          destruct r as [r|r];
          [ let Hf := fresh "Hf" in let Hs := fresh "Hs" in
            destruct Hr as (Hf & _ & ? & _ & Hs & _); unfold failures in Hf;
            unfold splits in Hs
          | unfold failures in Hr ];
          wp_red
      | |- wp (QaBot.react_all _ _ _ _) _ _ _ =>
          apply wp_qa_react_all;
          let Hk := fresh "Hk" in let Hst := fresh "Hst" in
          intros ? ? Hk; pose proof (reaction_events_staged_url Hk) as Hst;
          quiet Hk; clear Hk; wp_red
      | |- wp (Extra.react_all _ _ _ _) _ _ _ =>
          apply wp_extra_react_all;
          let Hk := fresh "Hk" in let Hst := fresh "Hst" in
          intros ? ? Hk; pose proof (reaction_events_staged_upload Hk) as Hst;
          quiet Hk; clear Hk; wp_red
      end
    | wp_known | wp_blocks | wp_step ].

Lemma qa_run_staged cfg en url ts ch say client h s :
  staged url_stage_ready []
    (evs (QaBot.process_wav_url cfg en url ts ch say client h s)).
Proof.
  wp_start (QaBot.process_wav_url cfg en url ts ch say client) h s.
  unfold QaBot.process_wav_url, QaBot.transcribe_wav, QaBot.analyze_transcript.
  wp_staged.
  all: try (rewrite truthy_temp in *; discriminate).
  all: cbv beta; cbn [evs]; walk.
Qed.

Lemma extra_run_staged cfg en ch ts file h s :
  staged upload_stage_ready [] (evs (Extra.handle_file cfg en ch ts file h s)).
Proof.
  wp_start (Extra.handle_file cfg en ch ts file) h s.
  unfold Extra.handle_file, Extra.analyze_transcript. cbv zeta.
  wp_staged.
  all: cbv beta; cbn [evs]; walk.
Qed.

(** X10: the stages of a run never run out of order, and a stage runs only
    if every stage before it succeeded.  Whenever an event [ev] of a run
    comes after the events [before]:
    - the temporary file is asked for first, once;
    - the request is made only after the temporary file was created;
    - data is written only to that file, and it is the body of a response
      received before;
    - Whisper ([qa_bot.py]) or the loader ([extra.py]) is given a file only
      after a write to that file succeeded; the clip that is split is a
      clip loaded before, and the recognizer is called only after the split;
    - the analyzer is called only after Whisper answered, or after the
      split;
    - in [qa_bot.py] a reaction is added only after Whisper answered and the
      reply is posted only after the analyzer answered;
    - each of these happens only while no stage has failed and before the
      temporary file is unlinked; in [qa_bot.py] the file unlinked is the
      file created, and no other kind of event occurs.
    Counted over a whole run, then: no request without a temporary file,
    no transcription or load without a write, no call of the analyzer
    without an answer of Whisper or a load, no reply of [qa_bot.py] without
    an analysis.  In both pipelines the analyzer is called at most once,
    with the configured model; in [extra.py] the prompt is the rubric
    followed by the transcript. *)
Theorem stages_run_in_order :
  (forall cfg en url ts ch say client h s before ev after,
      evs (QaBot.process_wav_url cfg en url ts ch say client h s)
      = before ++ ev :: after ->
      url_stage_ready before ev)
  /\
  (forall cfg en ch ts file h s before ev after,
      evs (Extra.handle_file cfg en ch ts file h s) = before ++ ev :: after ->
      upload_stage_ready before ev)
  /\
  (forall cfg en url ts ch say client h s,
      let l := evs (QaBot.process_wav_url cfg en url ts ch say client h s) in
      (temp_files l = [] -> requests l = [])
      /\ (writes l = [] -> whisper_calls l = [])
      /\ (whispered l = [] -> prompts_to l = [])
      /\ (analyses l = [] -> says l = [])
      /\ (forall x, In x (prompts_to l) -> fst x = QaBot.OLLAMA_MODEL cfg)
      /\ (List.length (prompts_to l) <= 1)%nat)
  /\
  (forall cfg en ch ts file download_url h s,
      let l := evs (Extra.handle_file cfg en ch ts file h s) in
      Extra.py_or (f_url_private_download file) (f_url_private file)
      = Some download_url ->
      download_url <> [] ->
      (temp_files l = [] -> requests l = [])
      /\ (writes l = [] -> loaded l = [])
      /\ (loaded l = [] -> prompts_to l = [])
      /\ (forall x, In x (prompts_to l) ->
                    x = (Extra.OLLAMA_MODEL cfg,
                         Extra.PROMPT_HEAD cfg
                         +++ strip (join (lit " ") (recognized l))))
      /\ (List.length (prompts_to l) <= 1)%nat).
Proof.
  split; [|split; [|split]].
  - intros cfg en url ts ch say client h s before ev after Hl.
    pose proof (qa_run_staged cfg en url ts ch say client h s) as Hst.
    eapply staged_at in Hst; [|exact Hl]. exact Hst.
  - intros cfg en ch ts file h s before ev after Hl.
    pose proof (extra_run_staged cfg en ch ts file h s) as Hst.
    eapply staged_at in Hst; [|exact Hl]. exact Hst.
  - intros cfg en url ts ch say client h s l.
    destruct (qa_run_flow cfg en url ts ch say client h s)
      as (_ & _ & _ & _ & _ & _ & _ & _ & _ & _ & H1 & H2 & H3 & H4 & H5 & H6 & _).
    repeat split; assumption.
  - intros cfg en ch ts file download_url h s l Hurl Hne.
    destruct (extra_run_flow cfg en ch ts file h s Hurl Hne)
      as (_ & _ & _ & _ & _ & _ & _ & _ & _ & H1 & H2 & H3 & H4 & H5 & _).
    repeat split; assumption.
Qed.

Lemma stages_run_in_order_witness :
  let l := evs (QaBot.process_wav_url (qa_config false) (all_fine greeting plain_verdict)
                  sample_url sample_ts sample_channel true true [] empty_state) in
  let p := lit "/tmp/tmpk3.wav" in
  l = firstn 6 l ++ WhisperTranscribe p (lit "en") false (Ok (Some greeting)) :: skipn 7 l
  /\ failures (firstn 6 l) = [] /\ unlinks (firstn 6 l) = []
  /\ exists data, In (p, data) (written (firstn 6 l)).
Proof.
  intros l p.
  assert (l = firstn 6 l
              ++ WhisperTranscribe p (lit "en") false (Ok (Some greeting)) :: skipn 7 l)
    as Hl by (vm_compute; reflexivity).
  split; [exact Hl|].
  destruct (proj1 stages_run_in_order (qa_config false) (all_fine greeting plain_verdict)
              sample_url sample_ts sample_channel true true [] empty_state _ _ _ Hl)
    as ((Hf & Hu) & Hw).
  split; [exact Hf|]. split; [exact Hu | exact Hw].
Defined.
